(** * ratepulling.py: the incremental reconciliation engine

    A shallow embedding of the append-only rate collector: the
    quota-gated executor [gs_retry], the per-sheet caches, the
    timestamp formatter and parser, the loan arithmetic, the
    nearest-sample lookup and the Bybit interest alignment pass.

    Conventions.
    - Python [float] is IEEE binary64: Rocq's primitive [float].
    - Python [int] is [Z]; list indices and loop counters are [nat].
    - Python [str] is [string]; a character is a code point below 256.
    - A value that may be [None] is an [option].
    - Worksheet cells read back from the store are strings, as gspread
      returns them. *)

From Stdlib Require Import ZArith Bool Floats Ascii String List Lia DecimalString.
From stdpp Require Import base gmap strings list.

Set Warnings "-inexact-float".

Local Open Scope Z_scope.

(* ===================================================================== *)
(** * Part I: the program                                                *)
(* ===================================================================== *)

(** ** Python values and built-ins *)
Module Py.

(** A cell of a row built by the collector: [str], [float] or [None]. *)
Inductive value :=
| VStr (s : string)
| VFloat (f : float)
| VNone.

(** Truth value of a float: every float but [0.0] and [-0.0] is true
    ([nan] included). *)
Definition float_truthy (f : float) : bool := negb (f =? 0)%float.

(** Truth value of an optional float ([None] is false). *)
Definition truthy (x : option float) : bool :=
  match x with
  | Some f => float_truthy f
  | None => false
  end.

(** [a or b] on optional floats. *)
Definition or_else (a b : option float) : option float :=
  if truthy a then a else b.

Definition of_option (x : option float) : value :=
  match x with
  | Some f => VFloat f
  | None => VNone
  end.

(** [needle in hay] on strings. *)
Fixpoint contains (needle hay : string) : bool :=
  String.prefix needle hay ||
  match hay with
  | EmptyString => false
  | String _ rest => contains needle rest
  end.

(** [str.isspace] on code points below 256. *)
Definition isspace (c : ascii) : bool :=
  let n := Z.of_nat (nat_of_ascii c) in
  ((9 <=? n) && (n <=? 13)) || ((28 <=? n) && (n <=? 32))
  || (n =? 133) || (n =? 160).

(** [s.strip() == ""]: the string holds white space only. Cell texts
    are taken to hold code points below 256; the blanks and digits that
    Unicode has beyond them are not covered. *)
Fixpoint blank (s : string) : bool :=
  match s with
  | EmptyString => true
  | String c rest => isspace c && blank rest
  end.

(** [not s] on strings. *)
Definition str_empty (s : string) : bool :=
  match s with
  | EmptyString => true
  | String _ _ => false
  end.

(** [s.replace(",", "")]. *)
Fixpoint drop_commas (s : string) : string :=
  match s with
  | EmptyString => EmptyString
  | String c rest =>
      if Ascii.eqb c "," then drop_commas rest else String c (drop_commas rest)
  end.

(** Decimal text of an integer, as [str(n)] and [f"{n}"] print it. *)
Definition dec (n : Z) : string := NilZero.string_of_int (Z.to_int n).

(** [f"{n:02d}"]: zero-padded to two characters. *)
Definition dec02 (n : Z) : string :=
  let s := dec n in
  if (String.length s <? 2)%nat then String "0" s else s.

Section Str.
(** [repr] of a float is left to the run time. *)
Variable float_repr : float -> string.

(** [str(v)]. *)
Definition str (v : value) : string :=
  match v with
  | VStr s => s
  | VFloat f => float_repr f
  | VNone => "None"
  end.
End Str.

End Py.

(** ** The quota-gated executor *)
Module Executor.

(** What a wrapped gspread call can raise: [gspread.exceptions.APIError]
    with its message, or anything else (which the handler of [gs_retry]
    does not catch). *)
Inductive exn :=
| APIError (msg : string)
| OtherError (msg : string).

Inductive outcome (A : Type) :=
| Returned (a : A)
| Raised (e : exn).
Arguments Returned {A} a.
Arguments Raised {A} e.

(** The test of the [except] clause: an [APIError] whose message holds
    ["429"] or ["Quota exceeded"]. *)
Definition is_rate_limit (e : exn) : bool :=
  match e with
  | APIError msg => Py.contains "429" msg || Py.contains "Quota exceeded" msg
  | OtherError _ => false
  end.

Section Retry.
Context {W A : Type}.

(** The wrapped call with its arguments applied: it acts on the outside
    world [W] and returns or raises. *)
Variable fn : W -> outcome A * W.

(** What [gs_retry] leaves behind: the result, the world, and the delays
    passed to [time.sleep], oldest first. *)
Record run := Run { result : outcome A; world : W; slept : list float }.

(** [budget] guarded attempts, then the last, unguarded one. *)
Fixpoint gs_retry_loop (budget : nat) (delay : float) (w : W)
    (log : list float) : run :=
  match budget with
  | O => let '(r, w') := fn w in Run r w' log
  | S budget' =>
      let '(r, w') := fn w in
      match r with
      | Returned a => Run (Returned a) w' log
      | Raised e =>
          if is_rate_limit e
          then gs_retry_loop budget' (delay * 2)%float w' (log ++ [delay])
          else Run (Raised e) w' log
      end
  end.

Definition gs_retry (w : W) : run := gs_retry_loop 6 1%float w [].

(** The world after [k] calls of [fn], and what call number [k]
    (counting from 0) answers. *)
Fixpoint after_calls (k : nat) (w : W) : W :=
  match k with
  | O => w
  | S k' => after_calls k' (snd (fn w))
  end.

Definition answer (k : nat) (w : W) : outcome A := fst (fn (after_calls k w)).

Definition rate_limited (r : outcome A) : bool :=
  match r with
  | Returned _ => false
  | Raised e => is_rate_limit e
  end.

End Retry.

(** The first [k] delays of a back-off that starts at [delay]. *)
Fixpoint backoff (k : nat) (delay : float) : list float :=
  match k with
  | O => []
  | S k' => delay :: backoff k' (delay * 2)%float
  end.

End Executor.

(** ** Loan arithmetic *)
Module Loan.

Definition collateral_needed_usdt (loan_usd init_ltv : option float)
    : option float :=
  match loan_usd, init_ltv with
  | Some l, Some i =>
      if negb (Py.float_truthy l) || negb (Py.float_truthy i) || (i <=? 0)%float
      then None
      else Some (l / i)%float
  | _, _ => None
  end.

Definition liquidation_start_price (spot init_ltv liq_ltv : option float)
    : option float :=
  match spot, init_ltv, liq_ltv with
  | Some s, Some i, Some q =>
      if negb (Py.float_truthy s) || (s <=? 0)%float
         || negb (Py.float_truthy i) || negb (Py.float_truthy q)
      then None
      else Some (s * (q / i))%float
  | _, _, _ => None
  end.

End Loan.

(** ** Date-times: [datetime.strptime], [datetime.fromtimestamp], [fmt_dt] *)
Module Calendar.

(** A naive [datetime]. *)
Record datetime := DateTime {
  year : Z; month : Z; day : Z;
  hour : Z; minute : Z; second : Z; microsecond : Z
}.

Definition is_leap (y : Z) : bool :=
  (y mod 4 =? 0) && (negb (y mod 100 =? 0) || (y mod 400 =? 0)).

Definition days_in_month (y m : Z) : Z :=
  if m =? 2 then (if is_leap y then 29 else 28)
  else if (m =? 4) || (m =? 6) || (m =? 9) || (m =? 11) then 30
  else 31.

(** The argument checks of the [datetime] constructor. *)
Definition valid_fields (y m d hh mm ss : Z) : bool :=
  (1 <=? y) && (y <=? 9999) && (1 <=? m) && (m <=? 12)
  && (1 <=? d) && (d <=? days_in_month y m)
  && (0 <=? hh) && (hh <=? 23) && (0 <=? mm) && (mm <=? 59)
  && (0 <=? ss) && (ss <=? 59).

(** [datetime(y, m, d, hh, mm, ss)]; [None] stands for [ValueError]. *)
Definition make_datetime (y m d hh mm ss : Z) : option datetime :=
  if valid_fields y m d hh mm ss then Some (DateTime y m d hh mm ss 0) else None.

(** Order of naive date-times: field by field. *)
Fixpoint compare_fields (a b : list Z) : comparison :=
  match a, b with
  | x :: a', y :: b' =>
      match x ?= y with
      | Eq => compare_fields a' b'
      | c => c
      end
  | [], [] => Eq
  | [], _ :: _ => Lt
  | _ :: _, [] => Gt
  end.

Definition fields (dt : datetime) : list Z :=
  [year dt; month dt; day dt; hour dt; minute dt; second dt; microsecond dt].

(** [a > b]. *)
Definition dt_gt (a b : datetime) : bool :=
  match compare_fields (fields a) (fields b) with
  | Gt => true
  | _ => false
  end.

(** *** The regular expression [strptime] builds for
    ["%m/%d/%Y %H:%M:%S"]

    Each group is the list of its matches at the head of the input,
    in the order a backtracking matcher tries them; a match is the
    number read and the input that is left. *)
Definition matches (A : Type) : Type := list (A * string).

(** A digit of the class [[lo-hi]]. *)
Definition digit (lo hi : Z) (c : ascii) : option Z :=
  let n := Z.of_nat (nat_of_ascii c) - 48 in
  if (lo <=? n) && (n <=? hi) then Some n else None.

Definition one_digit (lo hi : Z) (s : string) : matches Z :=
  match s with
  | String c rest =>
      match digit lo hi c with
      | Some a => [(a, rest)]
      | None => []
      end
  | EmptyString => []
  end.

Definition two_digits (lo1 hi1 lo2 hi2 : Z) (s : string) : matches Z :=
  match s with
  | String c1 (String c2 rest) =>
      match digit lo1 hi1 c1, digit lo2 hi2 c2 with
      | Some a, Some b => [(10 * a + b, rest)]
      | _, _ => []
      end
  | _ => []
  end.

(** [%m]: [1[0-2]|0[1-9]|[1-9]]. *)
Definition re_m (s : string) : matches Z :=
  two_digits 1 1 0 2 s ++ two_digits 0 0 1 9 s ++ one_digit 1 9 s.

(** [%d]: [3[0-1]|[1-2]\d|0[1-9]|[1-9]| [1-9]]. *)
Definition re_d (s : string) : matches Z :=
  two_digits 3 3 0 1 s ++ two_digits 1 2 0 9 s ++ two_digits 0 0 1 9 s
  ++ one_digit 1 9 s
  ++ match s with
     | String " " rest => one_digit 1 9 rest
     | _ => []
     end.

(** [%Y]: [\d\d\d\d]. *)
Definition re_Y (s : string) : matches Z :=
  match s with
  | String c1 (String c2 (String c3 (String c4 rest))) =>
      match digit 0 9 c1, digit 0 9 c2, digit 0 9 c3, digit 0 9 c4 with
      | Some a, Some b, Some c, Some d =>
          [(1000 * a + 100 * b + 10 * c + d, rest)]
      | _, _, _, _ => []
      end
  | _ => []
  end.

(** [%H]: [2[0-3]|[0-1]\d|\d]. *)
Definition re_H (s : string) : matches Z :=
  two_digits 2 2 0 3 s ++ two_digits 0 1 0 9 s ++ one_digit 0 9 s.

(** [%M]: [[0-5]\d|\d]. *)
Definition re_M (s : string) : matches Z :=
  two_digits 0 5 0 9 s ++ one_digit 0 9 s.

(** [%S]: [6[0-1]|[0-5]\d|\d]. *)
Definition re_S (s : string) : matches Z :=
  two_digits 6 6 0 1 s ++ two_digits 0 5 0 9 s ++ one_digit 0 9 s.

(** A literal character. *)
Definition lit (c : ascii) (s : string) : list string :=
  match s with
  | String c' rest => if Ascii.eqb c c' then [rest] else []
  | EmptyString => []
  end.

(** [\s+], the blank of the format: the longest run first. *)
Fixpoint spaces (s : string) : list string :=
  match s with
  | String c rest => if Py.isspace c then spaces rest ++ [rest] else []
  | EmptyString => []
  end.

(** All the ways the whole expression matches at the head of [s]. *)
Definition strptime_matches (s : string) : matches (Z * Z * Z * Z * Z * Z) :=
  '(m, s1) ← re_m s;
  s2 ← lit "/" s1;
  '(d, s3) ← re_d s2;
  s4 ← lit "/" s3;
  '(y, s5) ← re_Y s4;
  s6 ← spaces s5;
  '(hh, s7) ← re_H s6;
  s8 ← lit ":" s7;
  '(mm, s9) ← re_M s8;
  s10 ← lit ":" s9;
  '(ss, s11) ← re_S s10;
  [((m, d, y, hh, mm, ss), s11)].

(** [_parse_dt]: the first match must use up the input and name a real
    date and time; any exception gives [None]. *)
Definition _parse_dt (s : string) : option datetime :=
  match strptime_matches s with
  | ((m, d, y, hh, mm, ss), rest) :: _ =>
      if Py.str_empty rest then make_datetime y m d hh mm ss else None
  | [] => None
  end.

(** Broken-down time, as [time.localtime] returns it. *)
Record tm := Tm {
  tm_year : Z; tm_mon : Z; tm_mday : Z;
  tm_hour : Z; tm_min : Z; tm_sec : Z
}.

(** What the C library computes when the zone is UTC: the civil date of
    a day number, then the time of day. *)
Definition civil_from_days (days : Z) : Z * Z * Z :=
  let z := days + 719468 in
  let era := z / 146097 in
  let doe := z - era * 146097 in
  let yoe := (doe - doe / 1460 + doe / 36524 - doe / 146096) / 365 in
  let doy := doe - (365 * yoe + yoe / 4 - yoe / 100) in
  let mp := (5 * doy + 2) / 153 in
  let d := doy - (153 * mp + 2) / 5 + 1 in
  let m := if mp <? 10 then mp + 3 else mp - 9 in
  let y := yoe + era * 400 + (if m <=? 2 then 1 else 0) in
  (y, m, d).

Definition utc_time (secs : Z) : option tm :=
  let '(y, m, d) := civil_from_days (secs / 86400) in
  let r := secs mod 86400 in
  Some (Tm y m d (r / 3600) (r mod 3600 / 60) (r mod 60)).

(** The inverse under UTC: the seconds of a date-time since the epoch. *)
Definition days_from_civil (y m d : Z) : Z :=
  let y' := if m <=? 2 then y - 1 else y in
  let era := y' / 400 in
  let yoe := y' - era * 400 in
  let doy := (153 * (if 2 <? m then m - 3 else m + 9) + 2) / 5 + d - 1 in
  let doe := yoe * 365 + yoe / 4 - yoe / 100 + doy in
  era * 146097 + doe - 719468.

Definition utc_mktime (dt : datetime) : Z :=
  days_from_civil (year dt) (month dt) (day dt) * 86400
  + hour dt * 3600 + minute dt * 60 + second dt.

(** The text [fmt_dt] prints for a year with four digits reads back as
    that year (a check run over the years 1000 to 9999). *)
Definition year_reads_back (y : Z) : bool :=
  match Py.dec y with
  | String c1 (String c2 (String c3 (String c4 EmptyString))) =>
      match digit 0 9 c1, digit 0 9 c2, digit 0 9 c3, digit 0 9 c4 with
      | Some a, Some b, Some c, Some d =>
          1000 * a + 100 * b + 10 * c + d =? y
      | _, _, _, _ => false
      end
  | _ => false
  end.

(** The layout of [fmt_dt]. *)
Definition layout (m d y hh mm ss : Z) : string :=
  Py.dec m +:+ "/" +:+ Py.dec d +:+ "/" +:+ Py.dec y +:+ " "
  +:+ Py.dec hh +:+ ":" +:+ Py.dec02 mm +:+ ":" +:+ Py.dec02 ss.

Section Clock.
(** The zone of the machine: [time.localtime] on whole seconds ([None]
    when the platform refuses the value), and the inverse the collector
    uses through [datetime.timestamp] on a parsed date-time. *)
Variable localtime : Z -> option tm.
Variable mktime : datetime -> Z.

(** [datetime.fromtimestamp] on whole seconds. The probe one day back by
    which CPython looks for a fold, and which raises on the first day of
    year 1, is left out: what is stated of [fmt_dt] is about later
    dates. *)
Definition fromtimestamp (secs : Z) : option datetime :=
  t ← localtime secs;
  make_datetime (tm_year t) (tm_mon t) (tm_mday t)
    (tm_hour t) (tm_min t) (Z.min (tm_sec t) 59).

(** [fmt_dt]. The quotient [ts_ms/1000] keeps the milliseconds as a
    fraction, which the date fields drop: the seconds are the floor.
    [None] stands for the exception of [fromtimestamp]. *)
Definition fmt_dt (ts_ms : Z) : option string :=
  dt ← fromtimestamp (ts_ms / 1000);
  Some (layout (month dt) (day dt) (year dt)
               (hour dt) (minute dt) (second dt)).

(** [_to_ms]: a parsed date-time has no microseconds, so the product is
    a whole number. [timestamp()] is taken to answer, as it does from
    the second day of year 1 on. *)
Definition _to_ms (s : string) : option Z :=
  dt ← _parse_dt s;
  Some (mktime dt * 1000).

End Clock.

End Calendar.


(** ** The ledger: worksheets, the per-sheet caches, appends *)
Module Ledger.
Import Calendar.

(** A worksheet as the collector reads it: its title and the displayed
    text of its cells, row by row (row 1 is the header). A row may be
    shorter than the sheet is wide: the cells it lacks are empty. *)
Record worksheet := Worksheet {
  title : string;
  grid : list (list string)
}.

(** [ws.col_values(1)]: column A from row 1 down. *)
Definition col_values_1 (ws : worksheet) : list string :=
  map (fun row => nth 0 row EmptyString) (grid ws).

(** [ws.get('A2:B')] and [ws.get('A2:D')]: rows 2 onwards, cut to the
    width of the range. *)
Definition get_A2 (width : nat) (ws : worksheet) : list (list string) :=
  map (firstn width) (skipn 1 (grid ws)).

(** The module-level state of a run: the two caches, and the batches
    handed to [ws.append_rows], oldest first, each with the title of its
    sheet. *)
Record state := State {
  _EXISTING_DATES_CACHE : gmap string (gset string);
  _LAST_FUNDING_DT_CACHE : gmap string (option datetime);
  appended : list (string * list (list Py.value))
}.

Definition empty_state : state := State ∅ ∅ [].

(** [set(v for v in vals[1:] if v)]. *)
Definition dates_of_column (vals : list string) : gset string :=
  list_to_set (List.filter (fun v => negb (Py.str_empty v)) (skipn 1 vals)).

(** [get_existing_dates_set]: the cached set, read from the sheet on the
    first call for a title. *)
Definition get_existing_dates_set (ws : worksheet) (st : state)
    : gset string * state :=
  match _EXISTING_DATES_CACHE st !! title ws with
  | Some s => (s, st)
  | None =>
      let s := dates_of_column (col_values_1 ws) in
      (s, State (<[title ws := s]> (_EXISTING_DATES_CACHE st))
                (_LAST_FUNDING_DT_CACHE st) (appended st))
  end.

(** One turn of the loop of [get_last_funding_dt]. *)
Definition last_dt_step (last_dt : option datetime) (row : list string)
    : option datetime :=
  match row with
  | [] => last_dt
  | _ :: _ =>
      let ds := nth 0 row EmptyString in
      let b := nth 1 row EmptyString in
      if negb (Py.str_empty ds) && negb (Py.blank b) then
        match _parse_dt ds with
        | Some dt =>
            match last_dt with
            | None => Some dt
            | Some l => if dt_gt dt l then Some dt else last_dt
            end
        | None => last_dt
        end
      else last_dt
  end.

Definition last_dt_of_rows (vals : list (list string)) : option datetime :=
  fold_left last_dt_step vals None.

(** [get_last_funding_dt]. *)
Definition get_last_funding_dt (ws : worksheet) (st : state)
    : option datetime * state :=
  match _LAST_FUNDING_DT_CACHE st !! title ws with
  | Some d => (d, st)
  | None =>
      let d := last_dt_of_rows (get_A2 2 ws) in
      (d, State (_EXISTING_DATES_CACHE st)
                (<[title ws := d]> (_LAST_FUNDING_DT_CACHE st)) (appended st))
  end.

Section Append.
Variable float_repr : float -> string.

(** The key of a row: [str(r[0])]. *)
Definition key_of (r : list Py.value) : string :=
  Py.str float_repr (nth 0 r Py.VNone).

(** [r and str(r[0]) not in existing]. *)
Definition is_new (existing : gset string) (r : list Py.value) : bool :=
  match r with
  | [] => false
  | _ :: _ => negb (bool_decide (key_of r ∈ existing))
  end.

(** [list(r)[:11]], then [""] appended up to 11 fields. *)
Definition normalize (r : list Py.value) : list Py.value :=
  let row := firstn 11 r in
  row ++ repeat (Py.VStr EmptyString) (11 - length row).

(** The loop over [to_add]: the rows to write and the set, which is the
    very object the cache holds. *)
Fixpoint fill (to_add : list (list Py.value)) (out : list (list Py.value))
    (existing : gset string) : list (list Py.value) * gset string :=
  match to_add with
  | [] => (out, existing)
  | r :: rest =>
      let row := normalize r in
      fill rest (out ++ [row]) ({[ key_of row ]} ∪ existing)
  end.

(** The rows [append_new_unique_rows] keeps: [to_add]. *)
Definition to_add (ws : worksheet) (rows : list (list Py.value)) (st : state)
    : list (list Py.value) :=
  List.filter (is_new (fst (get_existing_dates_set ws st))) rows.

(** [append_new_unique_rows]. The store call is taken to answer; its
    failures are those of [gs_retry]. *)
Definition append_new_unique_rows (ws : worksheet)
    (rows : list (list Py.value)) (st : state) : state :=
  match rows with
  | [] => st
  | _ :: _ =>
      let '(existing, st1) := get_existing_dates_set ws st in
      match List.filter (is_new existing) rows with
      | [] => st1
      | (_ :: _) as to_add =>
          let '(out, existing') := fill to_add [] existing in
          State (<[title ws := existing']> (_EXISTING_DATES_CACHE st1))
                (_LAST_FUNDING_DT_CACHE st1)
                (appended st1 ++ [(title ws, out)])
      end
  end.

End Append.

End Ledger.

(** ** Nearest sample in a series *)
Module Nearest.

(** A sample of a series: its time in milliseconds and its value. *)
Definition sample : Type := Z * float.

(** The loop of [bisect.bisect_left]; [None] when the fuel runs out. *)
Fixpoint bisect_loop (fuel : nat) (a : list Z) (x : Z) (lo hi : nat)
    : option nat :=
  match fuel with
  | O => None
  | S fuel' =>
      if (lo <? hi)%nat then
        let mid := ((lo + hi) / 2)%nat in
        if nth mid a 0 <? x
        then bisect_loop fuel' a x (mid + 1)%nat hi
        else bisect_loop fuel' a x lo mid
      else Some lo
  end.

(** [bisect.bisect_left(a, x)]: the interval shrinks at every turn, so
    one turn more than the length is fuel enough. *)
Definition bisect_left (a : list Z) (x : Z) : nat :=
  default 0%nat (bisect_loop (S (length a)) a x 0 (length a)).

(** The key of [min]: [(abs(p[0]-ts_ms), 0 if p[0] <= ts_ms else 1)]. *)
Definition key (t : Z) (p : sample) : Z * Z :=
  (Z.abs (p.1 - t), if p.1 <=? t then 0 else 1).

(** Order of the key tuples. *)
Definition key_lt (a b : Z * Z) : bool :=
  (a.1 <? b.1) || ((a.1 =? b.1) && (a.2 <? b.2)).

Definition key_le (a b : Z * Z) : bool := negb (key_lt b a).

(** [min(l, key=k)]: the first of the smallest; [None] stands for the
    [ValueError] on an empty list. *)
Definition min_by {A : Type} (k : A -> Z * Z) (l : list A) : option A :=
  match l with
  | [] => None
  | x :: rest =>
      Some (fold_left (fun best y => if key_lt (k y) (k best) then y else best)
                      rest x)
  end.

(** [cands]: the samples on either side of the insertion point. *)
Definition candidates (hist : list sample) (pos : nat) : list sample :=
  (if (0 <? pos)%nat then [nth (pos - 1) hist (0, 0%float)] else [])
  ++ (if (pos <? length hist)%nat then [nth pos hist (0, 0%float)] else []).

(** The choice both callers make: [best]. *)
Definition nearest (hist : list sample) (t : Z) : option sample :=
  min_by (key t) (candidates hist (bisect_left (map fst hist) t)).

(** [pick_closest_rate]. *)
Definition pick_closest_rate (hist : list sample) (ts_ms : Z) : option float :=
  match hist with
  | [] => None
  | _ :: _ => snd <$> nearest hist ts_ms
  end.

(** Ascending by time, as [sort(key=lambda x: x[0])] leaves a series. *)
Fixpoint ascending (ts : list Z) : Prop :=
  match ts with
  | [] => True
  | x :: rest => Forall (fun y => x <= y) rest /\ ascending rest
  end.

End Nearest.

(** ** Bybit interest alignment *)
Module Reconcile.
Import Calendar Ledger Nearest.

Definition BYBIT_ALIGN_MAX_GAP_HOURS : Z := 48.

Definition gap_ms : Z := BYBIT_ALIGN_MAX_GAP_HOURS * 3600 * 1000.

(** [snaps.sort(key=lambda x: x[0])]: a stable sort. *)
Fixpoint insert_by_time (x : sample) (l : list sample) : list sample :=
  match l with
  | [] => [x]
  | y :: rest => if x.1 <=? y.1 then x :: l else y :: insert_by_time x rest
  end.

Definition sort_by_time (l : list sample) : list sample :=
  foldr insert_by_time [] l.

(** The matching loop, for one target: at most one update. *)
Definition match_target (gap : Z) (snaps : list sample) (tg : Z * nat)
    : list (nat * float) :=
  match nearest snaps tg.1 with
  | None => []
  | Some best =>
      if Z.abs (best.1 - tg.1) <=? gap then [(tg.2, best.2)] else []
  end.

Definition match_targets (gap : Z) (snaps : list sample)
    (targets : list (Z * nat)) : list (nat * float) :=
  flat_map (match_target gap snaps) targets.

(** [ws.update_cell(row, col, v)] on the grid, rows and columns counted
    from 1; the cell shows [v]. *)
Definition pad_to {A : Type} (n : nat) (x : A) (l : list A) : list A :=
  l ++ repeat x (n - length l).

Definition set_cell (g : list (list string)) (r c : nat) (v : string)
    : list (list string) :=
  let g' := pad_to (S r) [] g in
  <[ r := <[ c := v ]> (pad_to (S c) EmptyString (nth r g' [])) ]> g'.

Definition update_cell (ws : worksheet) (row col : nat) (v : string)
    : worksheet :=
  Worksheet (title ws) (set_cell (grid ws) (row - 1) (col - 1) v).

(** The text of a cell, rows and columns counted from 1. *)
Definition cell (ws : worksheet) (row col : nat) : string :=
  nth (col - 1) (nth (row - 1) (grid ws) []) EmptyString.

Section Align.
(** The zone of the machine, [float(s)] on a string ([None] for
    [ValueError]), and the text a sheet shows for a number. *)
Variable mktime : datetime -> Z.
Variable py_float : string -> option float.
Variable show_float : float -> string.

(** One turn of the first loop over the rows read. *)
Definition classify_row (i : nat) (row : list string)
    (acc : list sample * list (Z * nat)) : list sample * list (Z * nat) :=
  let a := nth 0 row EmptyString in
  let b := nth 1 row EmptyString in
  let d := nth 3 row EmptyString in
  if Py.str_empty a then acc
  else
    match _to_ms mktime a with
    | None => acc
    | Some t_ms =>
        if Py.blank b && negb (Py.blank d) then
          match py_float (Py.drop_commas d) with
          | Some rate => (acc.1 ++ [(t_ms, rate)], acc.2)
          | None => acc
          end
        else if negb (Py.blank b) && Py.blank d then
          (acc.1, acc.2 ++ [(t_ms, i)])
        else acc
    end.

(** What that turn files as a target at time [t]: a row with a date
    that parses, a funding cell that is not blank and a blank interest
    cell. *)
Definition target_row (row : list string) (t : Z) : Prop :=
  _to_ms mktime (nth 0 row EmptyString) = Some t
  /\ Py.blank (nth 1 row EmptyString) = false
  /\ Py.blank (nth 3 row EmptyString) = true.

(** [for i, row in enumerate(vals, start=i)]. *)
Fixpoint classify (i : nat) (vals : list (list string))
    (acc : list sample * list (Z * nat)) : list sample * list (Z * nat) :=
  match vals with
  | [] => acc
  | row :: rest => classify (S i) rest (classify_row i row acc)
  end.

(** The updates the pass decides on, from the rows of ['A2:D']. *)
Definition align_updates (gap : Z) (vals : list (list string))
    : list (nat * float) :=
  let '(snaps, targets) := classify 2 vals ([], []) in
  match snaps, targets with
  | _ :: _, _ :: _ => match_targets gap (sort_by_time snaps) targets
  | _, _ => []
  end.

(** The pass with its gap as an argument, and as configured. *)
Definition align_with (gap : Z) (ws : worksheet) : worksheet :=
  fold_left (fun w u => update_cell w u.1 4 (show_float u.2))
            (align_updates gap (get_A2 4 ws)) ws.

Definition align_bybit_interest_to_funding (ws : worksheet) : worksheet :=
  align_with gap_ms ws.

End Align.

End Reconcile.

(** ** The Bybit branch of [main]: the snapshot row *)
Module Orchestrator.
Import Calendar Ledger.

Definition APPEND_BYBIT_SNAPSHOT_ROW : bool := true.

(** What [by_loan_snapshot] returns when it has an answer. *)
Record loan_snapshot := LoanSnapshot {
  flexible_pct : option float;
  fixed90_pct : option float;
  fixed180_pct : option float;
  maxBorrow_coin : option float
}.

(** [row = [ts, 0.0, 0.0, d, spot, None, None, None, None, None, None]]
    with [spot = None]. *)
Definition snapshot_row (ts : string) (snap : loan_snapshot)
    : list Py.value :=
  let d := Py.or_else (Py.or_else (flexible_pct snap) (fixed90_pct snap))
                      (fixed180_pct snap) in
  [Py.VStr ts; Py.VFloat 0; Py.VFloat 0; Py.of_option d; Py.VNone;
   Py.VNone; Py.VNone; Py.VNone; Py.VNone; Py.VNone; Py.VNone].

Section Snapshot.
Variable localtime : Z -> option tm.
Variable float_repr : float -> string.

(** The snapshot step for one token; an empty answer of
    [by_loan_snapshot] is [None]. The outer [None] stands for an
    exception of [fmt_dt]. *)
Definition append_snapshot (ws : worksheet) (snap : option loan_snapshot)
    (now_ms : Z) (st : state) : option state :=
  if APPEND_BYBIT_SNAPSHOT_ROW then
    match snap with
    | Some s =>
        ts ← fmt_dt localtime now_ms;
        Some (append_new_unique_rows float_repr ws [snapshot_row ts s] st)
    | None => Some st
    end
  else Some st.

End Snapshot.

End Orchestrator.

(** ** HTTP: [_http_json] *)
Module Http.

(** What one [requests.get] comes to: a body that [r.json()] decodes
    (a JSON [null] is a value of [J] like any other), a status other
    than 200, or an exception of the request or of the decoding. *)
Inductive reply (J : Type) :=
| Body (j : J)
| BadStatus
| Failure.
Arguments Body {J} j.
Arguments BadStatus {J}.
Arguments Failure {J}.

Definition is_body {J : Type} (r : reply J) : bool :=
  match r with
  | Body _ => true
  | _ => false
  end.

Section HttpJson.
Context {W J : Type}.

(** The request with its arguments applied, acting on the network [W]. *)
Variable get : W -> reply J * W.

(** The result ([None] is Python's [None]), the network afterwards and
    the naps taken, oldest first. *)
Record run := Run { result : option J; world : W; slept : list float }.

Fixpoint _http_json_loop (retries : nat) (sleep_sec : float) (w : W)
    (log : list float) : run :=
  match retries with
  | O => Run None w log
  | S retries' =>
      let '(r, w') := get w in
      match r with
      | Body j => Run (Some j) w' log
      | BadStatus => _http_json_loop retries' sleep_sec w' (log ++ [sleep_sec])
      | Failure => _http_json_loop retries' sleep_sec w' (log ++ [sleep_sec])
      end
  end.

(** [_http_json] with its defaults [retries=3], [sleep_sec=0.6], which
    no caller changes. *)
Definition _http_json (w : W) : run := _http_json_loop 3 0.6%float w [].

(** The network after [k] requests, and the reply to request [k]
    (counting from 0). *)
Fixpoint after_requests (k : nat) (w : W) : W :=
  match k with
  | O => w
  | S k' => after_requests k' (snd (get w))
  end.

Definition reply_at (k : nat) (w : W) : reply J :=
  fst (get (after_requests k w)).

End HttpJson.

End Http.

(** ** Spot prices *)
Module Market.

(** [minute_open]; [%] is the floor remainder, as [Z.modulo]. *)
Definition minute_open (ts_ms : Z) : Z := ts_ms - ts_ms mod 60000.

(** [s.endswith(suffix)]: some tail of [s] is [suffix]. *)
Fixpoint endswith (s suffix : string) : bool :=
  String.eqb s suffix ||
  match s with
  | EmptyString => false
  | String _ rest => endswith rest suffix
  end.

(** [s[:-n]]. *)
Definition drop_last (n : nat) (s : string) : string :=
  substring 0 (String.length s - n) s.

(** The spot symbol [spot_bybit_from_contract_symbol] asks for. *)
Definition spot_sym (contract_symbol : string) : string :=
  if endswith contract_symbol "USDT" then contract_symbol
  else if endswith contract_symbol "USDC" then
    drop_last 4 contract_symbol +:+ "USDT"
  else if endswith contract_symbol "USD" then
    drop_last 3 contract_symbol +:+ "USDT"
  else contract_symbol +:+ "USDT".

Definition _SPOT_QUOTES : list string :=
  ["USDT"; "FDUSD"; "TUSD"; "USD"; "BUSD"].

(** The process-wide caches of the Binance spot look-up, with the kline
    requests made so far, oldest first. *)
Record state := State {
  _SYMBOL_CACHE_BN : gmap string (option string);
  _SPOT_CACHE_BN : gmap (string * Z) float;
  asked : list (string * Z)
}.

Definition empty_state : state := State ∅ ∅ [].

Section Klines.
(** The one-minute candle of a symbol at a minute open: its close, or
    [None] when the venue has none or the request fails. The first is
    Bybit's spot market, the second Binance's ([_bn_kline]). *)
Variable bybit_kline : string -> Z -> option float.
Variable _bn_kline : string -> Z -> option float.

(** [spot_bybit_from_contract_symbol]. *)
Definition spot_bybit_from_contract_symbol (contract_symbol : string)
    (ts_ms : Z) : option float :=
  bybit_kline (spot_sym contract_symbol) (minute_open ts_ms).

(** The loop of [_bn_resolve_symbol] over the quotes left to try: the
    symbol found and the requests made. *)
Fixpoint try_quotes (token : string) (mo : Z) (quotes : list string)
    (log : list (string * Z)) : option string * list (string * Z) :=
  match quotes with
  | [] => (None, log)
  | q :: rest =>
      let sym := token +:+ q in
      match _bn_kline sym mo with
      | Some _ => (Some sym, log ++ [(sym, mo)])
      | None => try_quotes token mo rest (log ++ [(sym, mo)])
      end
  end.

(** [_bn_resolve_symbol]: the answer, found or not, is cached. *)
Definition _bn_resolve_symbol (token : string) (probe_ms : Z) (st : state)
    : option string * state :=
  match _SYMBOL_CACHE_BN st !! token with
  | Some r => (r, st)
  | None =>
      let '(r, log) :=
        try_quotes token (minute_open probe_ms) _SPOT_QUOTES (asked st) in
      (r, State (<[token := r]> (_SYMBOL_CACHE_BN st)) (_SPOT_CACHE_BN st) log)
  end.

(** Truth value of what [_SYMBOL_CACHE_BN.get(token)] gives. *)
Definition cached_sym (st : state) (token : string) : option string :=
  match _SYMBOL_CACHE_BN st !! token with
  | Some (Some sym) => if Py.str_empty sym then None else Some sym
  | _ => None
  end.

(** [spot_binance]. *)
Definition spot_binance (token : string) (ts_ms : Z) (st : state)
    : option float * state :=
  let mo := minute_open ts_ms in
  let '(sym, st1) :=
    match cached_sym st token with
    | Some sym => (Some sym, st)
    | None => _bn_resolve_symbol token ts_ms st
    end in
  match sym with
  | None => (None, st1)
  | Some sym =>
      if Py.str_empty sym then (None, st1)
      else
        match _SPOT_CACHE_BN st1 !! (sym, mo) with
        | Some px => (Some px, st1)
        | None =>
            let px := _bn_kline sym mo in
            let log := asked st1 ++ [(sym, mo)] in
            match px with
            | Some p =>
                (px, State (_SYMBOL_CACHE_BN st1)
                           (<[(sym, mo) := p]> (_SPOT_CACHE_BN st1)) log)
            | None =>
                (px, State (_SYMBOL_CACHE_BN st1) (_SPOT_CACHE_BN st1) log)
            end
        end
  end.

End Klines.

End Market.

(** ** Sheets and their header row *)
Module Sheets.

Definition HEADERS : list string :=
  ["Date"; "Funding Rate APR (%)"; "Funding Rate APR (%) reverse";
   "Interest Rate APR (%)"; "Spot Price (USDT)";
   "Per-Coin Max Loan USD (API)"; "Collateral Max Limit USD (USDT)";
   "USDT initialLTV"; "USDT liquidationLTV";
   "Collateral Needed (USDT) for Max Loan Amount";
   "Hypothetical liquidationStartingPrice (USDT/token)"].

(** [ws.row_values(1)]. *)
Definition row_values_1 (g : list (list string)) : list string := nth 0 g [].

(** [ws.update([row], 'A1')]: the cells of row 1 from column A on take
    the values of [row]; the others keep theirs. *)
Definition update_A1 (row : list string) (g : list (list string))
    : list (list string) :=
  match g with
  | [] => [row]
  | first :: rest => (row ++ skipn (length row) first) :: rest
  end.

(** [ensure_headers], on the cells of the sheet. *)
Definition ensure_headers (g : list (list string)) : list (list string) :=
  let first := row_values_1 g in
  if (length first =? 0)%nat
     || negb (bool_decide (firstn (length HEADERS) first = HEADERS))
  then update_A1 HEADERS g
  else g.

(** [ensure_sheet], on the spreadsheet, a map from titles to sheets: a
    sheet that is missing is added, empty, and given its header. *)
Definition ensure_sheet (ss : gmap string (list (list string)))
    (title : string) : gmap string (list (list string)) :=
  match ss !! title with
  | Some _ => ss
  | None => <[title := update_A1 HEADERS []]> ss
  end.

(** [ws = ensure_sheet(ss, title); ensure_headers(ws)], as [main] opens
    every sheet. *)
Definition open_sheet (ss : gmap string (list (list string)))
    (title : string) : gmap string (list (list string)) :=
  alter ensure_headers title (ensure_sheet ss title).

End Sheets.

(** ** What is fetched from the venues *)
Module Feeds.
Import Nearest Reconcile.

(** The inner loop of [bn_interest_history]: a row is the pair read
    from it, or [None] when [int] or [float] raises on it, and is then
    passed over. *)
Fixpoint read_rows (rows : list (option sample)) (out : list sample)
    : list sample :=
  match rows with
  | [] => out
  | Some p :: rest => read_rows rest (out ++ [p])
  | None :: rest => read_rows rest out
  end.

Section InterestHistory.
(** Page [n] as [_http_json] hands it over: [None] when the answer is no
    dictionary or names no rows, otherwise its rows. *)
Variable fetch : nat -> option (list (option sample)).

(** The loop over the pages, [left] of them to go. *)
Fixpoint read_pages (left page page_size : nat) (out : list sample)
    : list sample :=
  match left with
  | O => out
  | S left' =>
      match fetch page with
      | None => out
      | Some [] => out
      | Some ((_ :: _) as rows) =>
          let out' := read_rows rows out in
          if (length rows <? page_size)%nat then out'
          else read_pages left' (S page) page_size out'
      end
  end.

(** [bn_interest_history] with its defaults [max_pages=10],
    [page_size=100]. *)
Definition bn_interest_history : list sample :=
  sort_by_time (read_pages 10 1 100 []).

(** A page that lets the loop go on to the next. *)
Definition full_page (page : nat) : Prop :=
  exists rows, fetch page = Some rows /\ (100 <= length rows)%nat.

End InterestHistory.

Section PickContract.
Context {R : Type}.
(** [by_funding_history_from], as what it returns for a contract. *)
Variable by_funding_history_from : string * string -> list R.

(** [by_pick_contract_with_rows], given the candidates that
    [by_resolve_contracts] returned. *)
Fixpoint by_pick_contract_with_rows (candidates : list (string * string))
    : list R * option (string * string) :=
  match candidates with
  | [] => ([], None)
  | c :: rest =>
      match by_funding_history_from c with
      | [] => by_pick_contract_with_rows rest
      | (_ :: _) as rows => (rows, Some c)
      end
  end.

End PickContract.

(** An instrument of a catalog: its ["symbol"], when it has the key. *)
Definition item : Type := option string.

Definition BYBIT_CONTRACT_MAP : gmap string (list (string * string)) := ∅.

(** [[it["symbol"] for it in lst if it.get("symbol","").startswith(t)
    and it["symbol"].endswith(suffix)]]; [None] stands for the
    [KeyError] of an instrument without symbol that passes the first
    test. *)
Fixpoint select (t suffix : string) (lst : list item) : option (list string) :=
  match lst with
  | [] => Some []
  | Some sym :: rest =>
      if String.prefix t sym && Market.endswith sym suffix
      then cons sym <$> select t suffix rest
      else select t suffix rest
  | None :: rest =>
      if String.prefix t EmptyString then None else select t suffix rest
  end.

(** The loop that drops repeats, with its set [seen]. *)
Fixpoint dedup (out : list (string * string)) (seen : gset (string * string))
    : list (string * string) :=
  match out with
  | [] => []
  | k :: rest =>
      if bool_decide (k ∈ seen) then dedup rest seen
      else k :: dedup rest ({[k]} ∪ seen)
  end.

Section Resolve.
(** [str.upper]. *)
Variable upper : string -> string.
(** The three answers of the instruments endpoint: for the symbol of
    the token, for the linear catalog and for the inverse catalog; each
    is the list of its instruments, or [None] when the request failed
    or the venue refused it. *)
Variable direct : option (list item).
Variable linear_catalog : option (list item).
Variable inverse_catalog : option (list item).

Definition tag (cat : string) (syms : list string) : list (string * string) :=
  map (fun s => (cat, s)) syms.

(** The answer for the symbol of the token names a contract:
    [lst and lst[0].get("symbol")]. *)
Definition direct_hit (sym : string) : Prop :=
  exists rest, direct = Some (Some sym :: rest) /\ Py.str_empty sym = false.

(** [by_resolve_contracts]; [None] stands for an exception. *)
Definition by_resolve_contracts (token : string)
    : option (list (string * string)) :=
  let t := upper token in
  match BYBIT_CONTRACT_MAP !! token with
  | Some ((_ :: _) as l) => Some l
  | _ =>
      let out1 :=
        match direct with
        | Some (Some sym :: _) =>
            if Py.str_empty sym then [] else [("linear", sym)]
        | _ => []
        end in
      out2 ←
        match out1 with
        | [] =>
            match linear_catalog with
            | Some lst =>
                usdt ← select t "USDT" lst;
                usdc ← select t "USDC" lst;
                Some (tag "linear" usdt ++ tag "linear" usdc)
            | None => Some []
            end
        | _ :: _ => Some out1
        end;
      out3 ←
        match inverse_catalog with
        | Some lst => usd ← select t "USD" lst; Some (out2 ++ tag "inverse" usd)
        | None => Some out2
        end;
      Some (dedup out3 ∅)
  end.

End Resolve.

End Feeds.

(** ** Building the rows *)
Module Rows.
Import Calendar Nearest Reconcile.

Definition INTERVALS : gmap string Z :=
  list_to_map [("APT", 3); ("OM", 6); ("ENA", 6); ("PENGU", 6);
               ("ME", 24); ("BERA", 12); ("SIGN", 3)].

(** A small integer as a float. *)
Definition float_of_int (n : Z) : float := PrimFloat.of_uint63 (Uint63.of_Z n).

(** [funding_apr_percent]. *)
Definition funding_apr_percent (per_period : float) (token : string) : float :=
  let periods := default 3 (INTERVALS !! token) in
  (per_period * 100 * float_of_int periods * 365)%float.

(** [if after_dt and not (t_dt and t_dt > after_dt): continue], as the
    test for keeping the event. *)
Definition after_watermark (after_dt t_dt : option datetime) : bool :=
  match after_dt with
  | None => true
  | Some a =>
      match t_dt with
      | Some d => dt_gt d a
      | None => false
      end
  end.

(** A funding record as the loops read it: what [int] gives for its
    time and [float] for its rate, [None] where that raises (a missing
    key, a text that is no number). *)
Definition record : Type := option Z * option float.

Definition stamp (r : record) : Z := default 0 r.1.

Definition has_time (r : record) : bool :=
  match r.1 with Some _ => true | None => false end.

Fixpoint insert_record (x : record) (l : list record) : list record :=
  match l with
  | [] => [x]
  | y :: rest =>
      if stamp x <=? stamp y then x :: l else y :: insert_record x rest
  end.

(** [fund.sort(key=lambda r: int(r[...]))]: a stable sort on the times;
    the keys are computed first, and when one raises the sort raises
    ([None]) and leaves the list as it was. *)
Definition sort_records (l : list record) : option (list record) :=
  if forallb has_time l then Some (foldr insert_record [] l) else None.

Section Builders.
Variable localtime : Z -> option tm.
Variable _bn_kline : string -> Z -> option float.
Variable bybit_kline : string -> Z -> option float.

(** The row of one Binance funding event. *)
Definition binance_row (token : string) (hist : list sample)
    (init_ltv liq_ltv cap_usdt per_coin_max_usd : float)
    (ts : string) (t_ms : Z) (rate : float) (spot : option float)
    : list Py.value :=
  let b := funding_apr_percent rate token in
  let c := (- b)%float in
  let d := (fun x => (x * 100)%float) <$> pick_closest_rate hist t_ms in
  let j_collat :=
    if Py.float_truthy per_coin_max_usd
    then Loan.collateral_needed_usdt (Some per_coin_max_usd) (Some init_ltv)
    else None in
  let k_liq :=
    if Py.truthy spot
    then Loan.liquidation_start_price spot (Some init_ltv) (Some liq_ltv)
    else None in
  [Py.VStr ts; Py.VFloat b; Py.VFloat c; Py.of_option d; Py.of_option spot;
   Py.VFloat per_coin_max_usd; Py.VFloat cap_usdt; Py.VFloat init_ltv;
   Py.VFloat liq_ltv; Py.of_option j_collat; Py.of_option k_liq].

(** The loop of [build_binance_rows_since] over the events; the spot
    caches go along. [None] stands for an exception: of [int], of
    [fmt_dt], or of [float] on the rate of an event that is kept. *)
Fixpoint binance_loop (token : string) (after_dt : option datetime)
    (hist : list sample) (init_ltv liq_ltv cap_usdt per_coin_max_usd : float)
    (events : list record) (rows : list (list Py.value)) (st : Market.state)
    : option (list (list Py.value) * Market.state) :=
  match events with
  | [] => Some (rows, st)
  | (None, _) :: _ => None
  | (Some t_ms, rate) :: rest =>
      ts ← fmt_dt localtime t_ms;
      if after_watermark after_dt (_parse_dt ts) then
        rate ← rate;
        let '(spot, st') := Market.spot_binance _bn_kline token t_ms st in
        binance_loop token after_dt hist init_ltv liq_ltv cap_usdt
          per_coin_max_usd rest
          (rows ++ [binance_row token hist init_ltv liq_ltv cap_usdt
                      per_coin_max_usd ts t_ms rate spot]) st'
      else
        binance_loop token after_dt hist init_ltv liq_ltv cap_usdt
          per_coin_max_usd rest rows st
  end.

(** [build_binance_rows_since], given what its fetches returned: the
    funding records, the interest history, the LTV figures of USDT and
    the loanable limit of the token. *)
Definition build_binance_rows_since (token : string)
    (after_dt : option datetime) (fund : list record) (hist : list sample)
    (init_ltv liq_ltv cap_usdt per_coin_max_usd : float) (st : Market.state)
    : option (list (list Py.value) * Market.state) :=
  events ← sort_records fund;
  binance_loop token after_dt hist init_ltv liq_ltv cap_usdt
    per_coin_max_usd events [] st.

(** The row of one Bybit funding event. *)
Definition bybit_row (token : string) (init_ltv liq_ltv cap_usdt : float)
    (max_borrow_coin : option float) (ts : string) (rate : float)
    (spot : option float) : list Py.value :=
  let b := funding_apr_percent rate token in
  let c := (- b)%float in
  let per_coin_max_usd :=
    match max_borrow_coin, spot with
    | Some m, Some s =>
        if Py.float_truthy m && Py.float_truthy s then Some (m * s)%float
        else None
    | _, _ => None
    end in
  let j_collat :=
    if Py.truthy per_coin_max_usd
    then Loan.collateral_needed_usdt per_coin_max_usd (Some init_ltv)
    else None in
  let k_liq :=
    if Py.truthy spot
    then Loan.liquidation_start_price spot (Some init_ltv) (Some liq_ltv)
    else None in
  [Py.VStr ts; Py.VFloat b; Py.VFloat c; Py.VNone; Py.of_option spot;
   Py.of_option per_coin_max_usd; Py.VFloat cap_usdt; Py.VFloat init_ltv;
   Py.VFloat liq_ltv; Py.of_option j_collat; Py.of_option k_liq].

(** The loop of [build_bybit_rows_since]: a record whose time or rate
    cannot be read is passed over. *)
Fixpoint bybit_loop (token : string) (after_dt : option datetime)
    (used : option (string * string)) (init_ltv liq_ltv cap_usdt : float)
    (max_borrow_coin : option float) (events : list record)
    (rows : list (list Py.value)) : option (list (list Py.value)) :=
  match events with
  | [] => Some rows
  | (Some t_ms, Some rate) :: rest =>
      ts ← fmt_dt localtime t_ms;
      if after_watermark after_dt (_parse_dt ts) then
        let sym := match used with
                   | Some u => u.2
                   | None => token +:+ "USDT"
                   end in
        let spot :=
          Market.spot_bybit_from_contract_symbol bybit_kline sym t_ms in
        bybit_loop token after_dt used init_ltv liq_ltv cap_usdt
          max_borrow_coin rest
          (rows ++ [bybit_row token init_ltv liq_ltv cap_usdt max_borrow_coin
                      ts rate spot])
      else
        bybit_loop token after_dt used init_ltv liq_ltv cap_usdt
          max_borrow_coin rest rows
  | _ :: rest =>
      bybit_loop token after_dt used init_ltv liq_ltv cap_usdt
        max_borrow_coin rest rows
  end.

(** [build_bybit_rows_since], given what its fetches returned: the
    records and the contract of [by_pick_contract_with_rows], the LTV
    figures and the borrowable amount of the loan snapshot. *)
Definition build_bybit_rows_since (token : string)
    (after_dt : option datetime) (fund : list record)
    (used : option (string * string)) (init_ltv liq_ltv cap_usdt : float)
    (max_borrow_coin : option float) : option (list (list Py.value)) :=
  bybit_loop token after_dt used init_ltv liq_ltv cap_usdt max_borrow_coin
    (default fund (sort_records fund)) [].

End Builders.

End Rows.

(* ===================================================================== *)
(** * Part II: properties                                                *)
(* ===================================================================== *)

(** ** The quota-gated executor *)
Section ExecutorFacts.
Import Executor.
Context {W A : Type} (fn : W -> outcome A * W).

Lemma answer_S (k : nat) (w : W) :
  answer fn (S k) w = answer fn k (snd (fn w)).
Proof. reflexivity. Qed.

(** The loop, for any budget: [k] rate-limited answers, each followed by
    a sleep, then the answer that ends the run. *)
Lemma gs_retry_loop_run (budget : nat) :
  forall (k : nat) (delay : float) (w : W) (log : list float),
    (k <= budget)%nat ->
    (forall i, (i < k)%nat -> rate_limited (answer fn i w) = true) ->
    ((k < budget)%nat -> rate_limited (answer fn k w) = false) ->
    gs_retry_loop fn budget delay w log
    = Run (answer fn k w) (after_calls fn (S k) w) (log ++ backoff k delay).
Proof.
  induction budget as [|b IH]; intros k delay w log Hk Hpre Hend.
  - assert (k = 0%nat) by lia; subst k. simpl.
    unfold answer. simpl. destruct (fn w) as [r w']. simpl.
    by rewrite app_nil_r.
  - destruct k as [|k].
    + specialize (Hend ltac:(lia)). unfold answer in *. simpl in *.
      destruct (fn w) as [r w']. simpl in *. rewrite app_nil_r.
      destruct r as [a|e]; [done|]. simpl in Hend. by rewrite Hend.
    + pose proof (Hpre 0%nat ltac:(lia)) as H0.
      simpl. rewrite answer_S.
      unfold answer in H0. simpl in H0.
      destruct (fn w) as [r w'] eqn:Hfn. simpl in *.
      destruct r as [a|e]; [done|]. simpl in H0. rewrite H0.
      rewrite (IH k (delay * 2)%float w' (log ++ [delay])).
      * by rewrite <- app_assoc.
      * lia.
      * intros i Hi. specialize (Hpre (S i) ltac:(lia)).
        rewrite answer_S, Hfn in Hpre. exact Hpre.
      * intros Hlt. specialize (Hend ltac:(lia)).
        rewrite answer_S, Hfn in Hend. exact Hend.
Qed.

Lemma backoff_six (k : nat) :
  (k <= 6)%nat -> backoff k 1 = firstn k [1; 2; 4; 8; 16; 32]%float.
Proof.
  intros Hk.
  do 7 (destruct k as [|k]; [reflexivity|]). lia.
Qed.

(** A call that returns at once goes through untouched: one call, no
    sleep. *)
Lemma gs_retry_returns_first (w w' : W) (a : A) :
  fn w = (Returned a, w') -> gs_retry fn w = Run (Returned a) w' [].
Proof. intros E. unfold gs_retry. simpl. by rewrite E. Qed.

(** C5. [gs_retry] makes up to six guarded attempts. As long as the
    answer is an error classified as rate limit it sleeps and tries
    again, the delays being 1, 2, 4, 8, 16, 32 in this order; the first
    answer that is not such an error ends the run at once and is the
    result (a value returned, or an error that propagates); after six
    rate-limited answers the seventh call is made unguarded and its
    answer, whatever it is, is the result. Here [k] counts the
    rate-limited answers before the one that ends the run. *)
Theorem gs_retry_backoff (w : W) (k : nat) :
  (k <= 6)%nat ->
  (forall i, (i < k)%nat -> rate_limited (answer fn i w) = true) ->
  ((k < 6)%nat -> rate_limited (answer fn k w) = false) ->
  gs_retry fn w
  = Run (answer fn k w) (after_calls fn (S k) w)
        (firstn k [1; 2; 4; 8; 16; 32]%float).
Proof.
  intros Hk Hpre Hend. unfold gs_retry.
  rewrite (gs_retry_loop_run 6 k 1 w [] Hk Hpre Hend).
  by rewrite (backoff_six k Hk).
Qed.

End ExecutorFacts.

(** A store that answers every call with a quota error: six sleeps, seven
    calls, and the error of the last call comes out. *)
Lemma gs_retry_backoff_witness :
  Executor.gs_retry
    (fun n : nat =>
       (@Executor.Raised unit (Executor.APIError "429: Quota exceeded"), S n))
    0%nat
  = Executor.Run (Executor.Raised (Executor.APIError "429: Quota exceeded"))
      7%nat [1; 2; 4; 8; 16; 32]%float.
Proof.
  apply (gs_retry_backoff
           (fun n : nat =>
              (@Executor.Raised unit (Executor.APIError "429: Quota exceeded"),
               S n)) 0%nat 6%nat).
  - lia.
  - intros i _. reflexivity.
  - lia.
Defined.

(** ** Loan arithmetic *)
Section LoanFacts.
Import Loan.
Local Open Scope float_scope.

(** A float above zero is neither zero nor at most zero. *)
Lemma float_pos_inv (i : float) :
  (0 <? i) = true -> (i <=? 0) = false /\ (i =? 0) = false.
Proof.
  rewrite FloatAxioms.ltb_spec, FloatAxioms.leb_spec, FloatAxioms.eqb_spec.
  unfold SFltb, SFleb, SFeqb.
  replace (Prim2SF 0) with (S754_zero false) by reflexivity.
  destruct (Prim2SF i) as [sg|sg| |sg m e]; simpl;
    try destruct sg; simpl; try discriminate; auto.
Qed.

(** C8. [collateral_needed_usdt] is the quotient [loan_usd / init_ltv]
    when the loan is not zero and the initial LTV is above zero, and
    [None] when the loan is zero or absent or the initial LTV is absent
    or at most zero; [liquidation_start_price] is
    [spot * (liq_ltv / init_ltv)] when the spot is above zero and both
    LTVs are not zero, and [None] when the spot is absent or at most
    zero or one of the LTVs is zero or absent. On the two sample inputs
    the results are 2000 and 80. *)
Theorem loan_math :
  (forall l i : float,
      (l =? 0) = false -> (0 <? i) = true ->
      collateral_needed_usdt (Some l) (Some i) = Some (l / i))
  /\ (forall loan init : option float,
      Py.truthy loan = false \/ init = None
      \/ (exists i, init = Some i /\ (i <=? 0) = true) ->
      collateral_needed_usdt loan init = None)
  /\ (forall s i q : float,
      (0 <? s) = true -> (i =? 0) = false -> (q =? 0) = false ->
      liquidation_start_price (Some s) (Some i) (Some q) = Some (s * (q / i)))
  /\ (forall spot init liq : option float,
      spot = None \/ (exists s, spot = Some s /\ (s <=? 0) = true)
      \/ Py.truthy init = false \/ Py.truthy liq = false ->
      liquidation_start_price spot init liq = None)
  /\ collateral_needed_usdt (Some 1000) (Some 0.5) = Some 2000
  /\ liquidation_start_price (Some 100) (Some 0.5) (Some 0.4) = Some 80.
Proof.
  repeat split.
  - intros l i Hl Hi. destruct (float_pos_inv i Hi) as [Hle Hz].
    unfold collateral_needed_usdt, Py.float_truthy. by rewrite Hl, Hz, Hle.
  - intros loan init H. unfold collateral_needed_usdt.
    destruct loan as [l|], init as [i|]; try reflexivity.
    destruct H as [H|[H|(i' & Hi & Hle)]].
    + simpl in H. by rewrite H.
    + discriminate.
    + injection Hi as <-. rewrite Hle. by rewrite !orb_true_r.
  - intros s i q Hs Hi Hq. destruct (float_pos_inv s Hs) as [Hle Hz].
    unfold liquidation_start_price, Py.float_truthy.
    by rewrite Hz, Hle, Hi, Hq.
  - intros spot init liq H. unfold liquidation_start_price.
    destruct spot as [s|], init as [i|], liq as [q|]; try reflexivity.
    destruct H as [H|[(s' & Hs & Hle)|[H|H]]].
    + discriminate.
    + injection Hs as <-. rewrite Hle. by rewrite orb_true_r.
    + simpl in H. rewrite H. by rewrite !orb_true_r.
    + simpl in H. rewrite H. by rewrite !orb_true_r.
Qed.

End LoanFacts.

(** A loan of 3 against an initial LTV of 0.75 asks for 4. *)
Lemma loan_math_witness :
  Loan.collateral_needed_usdt (Some 3%float) (Some 0.75%float) = Some 4%float.
Proof.
  apply (proj1 loan_math 3%float 0.75%float); reflexivity.
Defined.

(** ** The snapshot row of the Bybit branch *)
Section SnapshotFacts.
Import Orchestrator.

(** C6 (the row as the code builds it). The snapshot row holds the
    formatted time, then the number [0.0] as funding APR and [0.0] as
    its reverse, neither of them [None], then the interest and seven
    fields that are [None]. *)
Theorem snapshot_row_funding_fields (ts : string) (snap : loan_snapshot) :
  exists d,
    snapshot_row ts snap
    = [Py.VStr ts; Py.VFloat 0; Py.VFloat 0; d; Py.VNone;
       Py.VNone; Py.VNone; Py.VNone; Py.VNone; Py.VNone; Py.VNone]
    /\ nth 1 (snapshot_row ts snap) Py.VNone <> Py.VNone
    /\ nth 2 (snapshot_row ts snap) Py.VNone <> Py.VNone.
Proof.
  eexists. split; [reflexivity|]. split; discriminate.
Qed.

End SnapshotFacts.

(** ** The duplicate-key cache and the append *)
Section LedgerFacts.
Import Calendar Ledger.
Variable float_repr : float -> string.

Local Abbreviation key_of := (Ledger.key_of float_repr).
Local Abbreviation is_new := (Ledger.is_new float_repr).
Local Abbreviation to_add := (Ledger.to_add float_repr).
Local Abbreviation append_new_unique_rows := (Ledger.append_new_unique_rows float_repr).

Lemma normalize_length (r : list Py.value) : length (normalize r) = 11%nat.
Proof.
  unfold normalize. rewrite length_app, repeat_length, length_firstn. lia.
Qed.

Lemma normalize_nth (r : list Py.value) (i : nat) (d : Py.value) :
  (i < 11)%nat ->
  nth i (normalize r) d
  = if (i <? length r)%nat then nth i r d else Py.VStr EmptyString.
Proof.
  intros Hi. unfold normalize.
  destruct (Nat.ltb_spec i (length r)) as [Hlt|Hge].
  - rewrite app_nth1 by (rewrite length_firstn; lia).
    revert i Hi Hlt. generalize 11%nat as n.
    induction r as [|x r IH]; intros n i Hi Hlt; simpl in *; [lia|].
    destruct n as [|n]; [lia|]. destruct i as [|i]; simpl; [done|].
    apply IH; lia.
  - rewrite app_nth2 by (rewrite length_firstn; lia).
    apply nth_repeat_lt. rewrite length_firstn. lia.
Qed.

Lemma key_of_normalize (r : list Py.value) :
  r <> [] -> key_of (normalize r) = key_of r.
Proof. destruct r as [|x r]; [done|reflexivity]. Qed.

Lemma fill_spec (l : list (list Py.value)) :
  forall (out : list (list Py.value)) (ex : gset string),
    fill float_repr l out ex
    = (out ++ map normalize l,
       list_to_set (map (fun r => key_of (normalize r)) l) ∪ ex).
Proof.
  induction l as [|r l IH]; intros out ex; simpl.
  - rewrite app_nil_r. f_equal. by rewrite (left_id_L ∅ (∪)).
  - rewrite IH, <- app_assoc. simpl. f_equal.
    rewrite (assoc_L (∪)). f_equal. apply (comm_L (∪)).
Qed.

Lemma is_new_true (ex : gset string) (r : list Py.value) :
  is_new ex r = true <-> r <> [] /\ key_of r ∉ ex.
Proof.
  unfold Ledger.is_new. destruct r as [|x r].
  - split; [done|]. by intros [? _].
  - rewrite negb_true_iff, bool_decide_eq_false.
    split; [intros H; split; [discriminate|exact H]|intros [_ H]; exact H].
Qed.


(** After a call the cache answers for the title, and a second look-up
    changes nothing. *)
Lemma get_existing_dates_set_cached (ws : worksheet) (st : state) :
  _EXISTING_DATES_CACHE (get_existing_dates_set ws st).2 !! title ws
  = Some (get_existing_dates_set ws st).1.
Proof.
  unfold get_existing_dates_set.
  destruct (_EXISTING_DATES_CACHE st !! title ws) as [s|] eqn:E; simpl.
  - exact E.
  - apply lookup_insert_eq.
Qed.

Lemma get_existing_dates_set_hit (ws : worksheet) (st : state) (s : gset string) :
  _EXISTING_DATES_CACHE st !! title ws = Some s ->
  get_existing_dates_set ws st = (s, st).
Proof. intros E. unfold get_existing_dates_set. by rewrite E. Qed.

(** What one call does to the state, case by case. *)
Lemma append_cases (ws : worksheet) (rows : list (list Py.value)) (st : state) :
  let ex := (get_existing_dates_set ws st).1 in
  let st1 := (get_existing_dates_set ws st).2 in
  let acc := to_add ws rows st in
  append_new_unique_rows ws rows st
  = match rows, acc with
    | [], _ => st
    | _ :: _, [] => st1
    | _ :: _, _ :: _ =>
        State (<[title ws := list_to_set (map key_of acc) ∪ ex]>
                 (_EXISTING_DATES_CACHE st1))
              (_LAST_FUNDING_DT_CACHE st1)
              (appended st1 ++ [(title ws, map normalize acc)])
    end.
Proof.
  intros ex st1 acc. subst ex st1 acc.
  unfold Ledger.append_new_unique_rows, Ledger.to_add.
  destruct rows as [|r0 rows]; [done|].
  destruct (get_existing_dates_set ws st) as [ex st1]. simpl fst. simpl snd.
  set (l := List.filter (is_new ex) (r0 :: rows)).
  assert (Hl : forall r, In r l -> r <> []).
  { intros r Hr. subst l. apply filter_In in Hr as [_ Hr].
    apply is_new_true in Hr. tauto. }
  clearbody l. destruct l as [|a l]; [done|].
  rewrite fill_spec. simpl app. do 3 f_equal.
  f_equal. clear -Hl. induction (a :: l) as [|x l' IH]; [done|].
  simpl. rewrite key_of_normalize by (apply Hl; by left).
  f_equal. apply IH. intros r Hr. apply Hl. by right.
Qed.

Lemma appended_get_existing (ws : worksheet) (st : state) :
  appended (get_existing_dates_set ws st).2 = appended st.
Proof.
  unfold get_existing_dates_set.
  by destruct (_EXISTING_DATES_CACHE st !! title ws).
Qed.



(** The cache after a call on a batch that is not empty. *)
Lemma append_cache (ws : worksheet) (rows : list (list Py.value)) (st : state) :
  rows <> [] ->
  _EXISTING_DATES_CACHE (append_new_unique_rows ws rows st) !! title ws
  = Some (list_to_set (map key_of (to_add ws rows st))
          ∪ (get_existing_dates_set ws st).1).
Proof.
  intros Hrows. rewrite append_cases.
  destruct rows as [|r0 rows]; [done|].
  destruct (to_add ws (r0 :: rows) st) as [|a l].
  - rewrite get_existing_dates_set_cached. f_equal.
    simpl. by rewrite (left_id_L ∅ (∪)).
  - simpl. apply lookup_insert_eq.
Qed.


(** C9. A batch that is empty leaves the state alone; when no row is
    kept nothing is handed to [append_rows]; otherwise the rows kept go
    out in one call of [append_rows], each normalised: exactly 11
    fields, the first 11 of the row when it has that many, the missing
    ones the empty string. *)
Theorem append_writes_normalized (ws : worksheet)
    (rows : list (list Py.value)) (st : state) :
  let acc := to_add ws rows st in
  let st' := append_new_unique_rows ws rows st in
  (rows = [] -> st' = st)
  /\ (acc = [] -> appended st' = appended st)
  /\ (acc <> [] ->
      appended st' = appended st ++ [(title ws, map normalize acc)])
  /\ (forall r, length (normalize r) = 11%nat
      /\ forall (i : nat) (d : Py.value), (i < 11)%nat ->
           nth i (normalize r) d
           = if (i <? length r)%nat then nth i r d else Py.VStr EmptyString).
Proof.
  intros acc st'. subst st'. rewrite append_cases. fold acc.
  split; [by intros ->|]. split; [|split].
  - intros ->. destruct rows; [done|]. apply appended_get_existing.
  - intros Hacc. destruct rows as [|r0 rows]; [done|].
    destruct acc as [|a l]; [done|]. simpl.
    by rewrite appended_get_existing.
  - intros r. split; [apply normalize_length|].
    intros i d Hi. by apply normalize_nth.
Qed.


(** The step of the watermark loop skips a row whose date does not
    parse. *)
Lemma last_dt_step_malformed (acc : option datetime) (row : list string) :
  _parse_dt (nth 0 row EmptyString) = None -> last_dt_step acc row = acc.
Proof.
  intros H. unfold last_dt_step. destruct row as [|a row]; [done|].
  rewrite H. by destruct (_ && _).
Qed.

Lemma fold_last_dt_filter (vals : list (list string)) :
  forall acc : option datetime,
    fold_left last_dt_step vals acc
    = fold_left last_dt_step
        (List.filter
           (fun row => bool_decide (is_Some (_parse_dt (nth 0 row EmptyString))))
           vals) acc.
Proof.
  induction vals as [|row vals IH]; intros acc; simpl; [done|].
  case_bool_decide as Hp; simpl.
  - apply IH.
  - rewrite last_dt_step_malformed; [apply IH|].
    by destruct (_parse_dt _); [exfalso; eauto|].
Qed.

(** C7 (as the code has it). A stored row whose date fails to parse adds
    nothing to the watermark: the watermark of the rows is that of the
    rows whose date parses. The duplicate-key set is built without
    parsing: on its first read it holds every text of column A below the
    header that is not empty, well formed or not. *)
Theorem malformed_dates_skip_watermark_only :
  (forall vals : list (list string),
      last_dt_of_rows vals
      = last_dt_of_rows
          (List.filter
             (fun row =>
                bool_decide (is_Some (_parse_dt (nth 0 row EmptyString))))
             vals))
  /\ (forall (ws : worksheet) (st : state) (v : string),
        _EXISTING_DATES_CACHE st !! title ws = None ->
        (v ∈ (get_existing_dates_set ws st).1
         <-> v <> EmptyString /\ In v (skipn 1 (col_values_1 ws)))).
Proof.
  split.
  - intros vals. apply fold_last_dt_filter.
  - intros ws st v Hmiss. unfold get_existing_dates_set. rewrite Hmiss.
    simpl. unfold dates_of_column.
    rewrite elem_of_list_to_set, list_elem_of_In, filter_In.
    destruct v; simpl; split; intros [? ?]; split; auto; done.
Qed.

End LedgerFacts.

(** *** Sample runs of the cache *)

(** The spec's row with one field: it is written with its 10 missing
    fields empty. *)
Lemma append_writes_normalized_witness :
  Ledger.appended
    (Ledger.append_new_unique_rows (fun _ => EmptyString)
       (Ledger.Worksheet "APT_Binance" [["Date"]])
       [[Py.VStr "1/1/2024 0:00:00"]] Ledger.empty_state)
  = [("APT_Binance",
      [[Py.VStr "1/1/2024 0:00:00"; Py.VStr ""; Py.VStr ""; Py.VStr "";
        Py.VStr ""; Py.VStr ""; Py.VStr ""; Py.VStr ""; Py.VStr "";
        Py.VStr ""; Py.VStr ""]])].
Proof.
  apply (proj1 (proj2 (proj2
           (append_writes_normalized (fun _ => EmptyString)
              (Ledger.Worksheet "APT_Binance" [["Date"]])
              [[Py.VStr "1/1/2024 0:00:00"]] Ledger.empty_state)))).
  vm_compute. discriminate.
Defined.



(** C7, against the sentence on the duplicate-key set: a text of column A
    that is no date is a key of the set. *)
Lemma malformed_date_is_a_cached_key :
  Calendar._parse_dt "not a date" = None
  /\ "not a date"
     ∈ (Ledger.get_existing_dates_set
          (Ledger.Worksheet "APT_Binance" [["Date"]; ["not a date"; "1.5"]])
          Ledger.empty_state).1.
Proof.
  split; [reflexivity|].
  refine (proj1 (bool_decide_eq_true _) _). vm_compute. reflexivity.
Qed.

(** A sheet with one malformed row among dated ones. *)
Lemma malformed_dates_skip_watermark_only_witness :
  "n/a" ∈ (Ledger.get_existing_dates_set
             (Ledger.Worksheet "APT_Binance" [["Date"]; ["n/a"; "1.5"]])
             Ledger.empty_state).1.
Proof.
  apply (proj2 malformed_dates_skip_watermark_only
           (Ledger.Worksheet "APT_Binance" [["Date"]; ["n/a"; "1.5"]])
           Ledger.empty_state "n/a").
  - reflexivity.
  - split; [discriminate|]. simpl. tauto.
Defined.

(** ** Formatting and parsing of dates *)
Section CalendarFacts.
Import Calendar.

(** The first match of a sequence of groups is the first match of the
    first group followed by the first match of the rest. *)
Lemma head_bind_first {A B : Type} (m : list A) (f : A -> list B)
    (x : A) (r : B) :
  head m = Some x -> head (f x) = Some r -> head (m ≫= f) = Some r.
Proof.
  destruct m as [|a l]; [done|]. intros [= ->] Hf. cbn.
  destruct (f x) as [|b t]; [done|]. exact Hf.
Qed.

Lemma lit_head (c : ascii) (R : string) : head (lit c (String c R)) = Some R.
Proof. unfold lit. by rewrite Ascii.eqb_refl. Qed.

(** Case analysis over a short range of integers: [cnt] values from [lo]. *)
Tactic Notation "enum_range" constr(z) constr(lo) integer(cnt) :=
  let n := fresh "n" in
  let Hn := fresh "Hn" in
  assert (Hn : exists n : nat, z = lo + Z.of_nat n)
    by (exists (Z.to_nat (z - lo)); lia);
  destruct Hn as (n & Hn); subst z;
  do cnt (destruct n as [|n]; [vm_compute; reflexivity|]); lia.

Lemma re_m_fmt (m : Z) (R : string) :
  1 <= m <= 12 ->
  head (re_m (Py.dec m +:+ String "/" R)) = Some (m, String "/" R).
Proof. intros Hm. enum_range m 1 12. Qed.

Lemma re_d_fmt (d : Z) (R : string) :
  1 <= d <= 31 ->
  head (re_d (Py.dec d +:+ String "/" R)) = Some (d, String "/" R).
Proof. intros Hd. enum_range d 1 31. Qed.

Lemma spaces_fmt (hh : Z) (R : string) :
  0 <= hh <= 23 ->
  head (spaces (String " " (Py.dec hh +:+ String ":" R)))
  = Some (Py.dec hh +:+ String ":" R).
Proof. intros Hh. enum_range hh 0 24. Qed.

Lemma re_H_fmt (hh : Z) (R : string) :
  0 <= hh <= 23 ->
  head (re_H (Py.dec hh +:+ String ":" R)) = Some (hh, String ":" R).
Proof. intros Hh. enum_range hh 0 24. Qed.

Lemma re_M_fmt (mm : Z) (R : string) :
  0 <= mm <= 59 ->
  head (re_M (Py.dec02 mm +:+ String ":" R)) = Some (mm, String ":" R).
Proof. intros Hm. enum_range mm 0 60. Qed.

Lemma re_S_fmt (ss : Z) :
  0 <= ss <= 59 ->
  head (re_S (Py.dec02 ss)) = Some (ss, EmptyString).
Proof. intros Hs. enum_range ss 0 60. Qed.

Lemma years_read_back : forallb year_reads_back (seqZ 1000 9000) = true.
Proof. vm_compute. reflexivity. Qed.

Lemma re_Y_fmt (y : Z) (R : string) :
  1000 <= y <= 9999 -> head (re_Y (Py.dec y +:+ R)) = Some (y, R).
Proof.
  intros Hy. pose proof years_read_back as H.
  rewrite forallb_forall in H. specialize (H y).
  assert (Hin : In y (seqZ 1000 9000))
    by (apply list_elem_of_In, elem_of_seqZ; lia).
  specialize (H Hin). unfold year_reads_back in H.
  destruct (Py.dec y) as [|c1 [|c2 [|c3 [|c4 [|c5 t]]]]]; try discriminate.
  change (String c1 (String c2 (String c3 (String c4 EmptyString))) +:+ R)
    with (String c1 (String c2 (String c3 (String c4 R)))).
  unfold re_Y.
  destruct (digit 0 9 c1), (digit 0 9 c2), (digit 0 9 c3), (digit 0 9 c4);
    try discriminate.
  apply Z.eqb_eq in H. subst y. reflexivity.
Qed.

Lemma layout_eq (m d y hh mm ss : Z) :
  layout m d y hh mm ss
  = Py.dec m +:+ String "/" (Py.dec d +:+ String "/" (Py.dec y +:+ String " "
      (Py.dec hh +:+ String ":" (Py.dec02 mm +:+ String ":" (Py.dec02 ss))))).
Proof. reflexivity. Qed.

Lemma days_in_month_le (y m : Z) : days_in_month y m <= 31.
Proof.
  unfold days_in_month.
  destruct (m =? 2); [destruct (is_leap y); lia|].
  destruct (_ || _); lia.
Qed.

Lemma valid_fields_ranges (y m d hh mm ss : Z) :
  valid_fields y m d hh mm ss = true ->
  1 <= y <= 9999 /\ 1 <= m <= 12 /\ 1 <= d <= 31
  /\ 0 <= hh <= 23 /\ 0 <= mm <= 59 /\ 0 <= ss <= 59.
Proof.
  unfold valid_fields. rewrite !andb_true_iff, !Z.leb_le.
  pose proof (days_in_month_le y m). lia.
Qed.

(** The text laid out for a real date and time with a year of four
    digits reads back as that date and time. *)
Lemma parse_layout (m d y hh mm ss : Z) :
  valid_fields y m d hh mm ss = true -> 1000 <= y ->
  _parse_dt (layout m d y hh mm ss) = Some (DateTime y m d hh mm ss 0).
Proof.
  intros Hv Hy.
  destruct (valid_fields_ranges _ _ _ _ _ _ Hv) as (Y & M & D & H & Mi & S).
  assert (Hhead : head (strptime_matches (layout m d y hh mm ss))
                  = Some ((m, d, y, hh, mm, ss), EmptyString)).
  { rewrite layout_eq. unfold strptime_matches.
    eapply head_bind_first; [by apply re_m_fmt|]. cbv beta iota.
    eapply head_bind_first; [apply lit_head|].
    eapply head_bind_first; [by apply re_d_fmt|]. cbv beta iota.
    eapply head_bind_first; [apply lit_head|].
    eapply head_bind_first; [apply re_Y_fmt; lia|]. cbv beta iota.
    eapply head_bind_first; [by apply spaces_fmt|].
    eapply head_bind_first; [by apply re_H_fmt|]. cbv beta iota.
    eapply head_bind_first; [apply lit_head|].
    eapply head_bind_first; [by apply re_M_fmt|]. cbv beta iota.
    eapply head_bind_first; [apply lit_head|].
    eapply head_bind_first; [by apply re_S_fmt|]. reflexivity. }
  unfold _parse_dt.
  destruct (strptime_matches _) as [|[[[[[[m' d'] y'] hh'] mm'] ss'] rest] tl];
    [discriminate|].
  injection Hhead as -> -> -> -> -> -> ->. simpl.
  unfold make_datetime. by rewrite Hv.
Qed.

(** C10 (as the code has it). Whenever [fmt_dt] returns for a
    millisecond time [t] and the local year has four digits, the text
    parses, and the parsed date-time is the local date-time of [t] cut
    to whole seconds, although month, day and hour are printed without
    padding. *)
Theorem parse_fmt_roundtrip (localtime : Z -> option tm) (t : Z)
    (dt : datetime) :
  fromtimestamp localtime (t / 1000) = Some dt ->
  1000 <= year dt ->
  exists s, fmt_dt localtime t = Some s /\ _parse_dt s = Some dt.
Proof.
  intros Hdt Hy. unfold fmt_dt. rewrite Hdt. simpl.
  eexists; split; [reflexivity|].
  unfold fromtimestamp in Hdt.
  destruct (localtime (t / 1000)) as [c|]; [|discriminate]. simpl in Hdt.
  unfold make_datetime in Hdt.
  destruct (valid_fields _ _ _ _ _ _) eqn:Hv; [|discriminate].
  injection Hdt as <-. simpl in *. by apply parse_layout.
Qed.

End CalendarFacts.

(** Under UTC, a time in November 2023 with its milliseconds. *)
Lemma parse_fmt_roundtrip_witness :
  exists s,
    Calendar.fmt_dt Calendar.utc_time 1700000000999 = Some s
    /\ Calendar._parse_dt s = Some (Calendar.DateTime 2023 11 14 22 13 20 0).
Proof.
  apply (parse_fmt_roundtrip Calendar.utc_time 1700000000999
           (Calendar.DateTime 2023 11 14 22 13 20 0)).
  - reflexivity.
  - simpl. lia.
Defined.

(** C10, against "every millisecond timestamp": under UTC a time in the
    year 987 is printed with a year of three digits, which [%Y] does
    not read. *)
Lemma year_below_1000_does_not_parse :
  Calendar.fmt_dt Calendar.utc_time (-31000000000000)
  = Some "8/25/987 16:53:20"
  /\ Calendar._parse_dt "8/25/987 16:53:20" = None.
Proof. split; reflexivity. Qed.

(** ** The nearest sample *)
Section NearestFacts.
Import Nearest.

Lemma half_between (lo hi : nat) :
  (lo < hi)%nat -> (lo <= (lo + hi) / 2 < hi)%nat.
Proof.
  intros H. pose proof (Nat.div_mod_eq (lo + hi) 2) as E.
  pose proof (Nat.mod_upper_bound (lo + hi) 2 ltac:(lia)). lia.
Qed.

(** The loop ends within its fuel, sorted input or not. *)
Lemma bisect_loop_total (a : list Z) (x : Z) (fuel : nat) :
  forall lo hi : nat,
    (lo <= hi)%nat -> (hi - lo < fuel)%nat ->
    exists p, bisect_loop fuel a x lo hi = Some p /\ (lo <= p <= hi)%nat.
Proof.
  induction fuel as [|f IH]; intros lo hi Hle Hf; [lia|].
  cbn [bisect_loop].
  destruct (Nat.ltb_spec lo hi) as [Hlt|Hge].
  - pose proof (half_between lo hi Hlt) as Hm.
    destruct (nth _ a 0 <? x).
    + destruct (IH ((lo + hi) / 2 + 1)%nat hi) as (p & Hp & Hr); [lia|lia|].
      exists p. split; [done|lia].
    + destruct (IH lo ((lo + hi) / 2)%nat) as (p & Hp & Hr); [lia|lia|].
      exists p. split; [done|lia].
  - exists lo. split; [done|lia].
Qed.

Lemma bisect_left_le (a : list Z) (x : Z) : (bisect_left a x <= length a)%nat.
Proof.
  unfold bisect_left.
  destruct (bisect_loop_total a x (S (length a)) 0 (length a)) as (p & -> & Hp);
    [lia|lia|]. simpl. lia.
Qed.

Lemma ascending_nth (a : list Z) :
  ascending a ->
  forall i j : nat, (i <= j < length a)%nat -> nth i a 0 <= nth j a 0.
Proof.
  induction a as [|x a IH]; intros Ha i j Hij; simpl in *; [lia|].
  destruct Ha as [Hx Ha]. destruct j as [|j].
  - assert (i = 0%nat) by lia. subst. lia.
  - destruct i as [|i].
    + rewrite List.Forall_forall in Hx. apply Hx, nth_In. lia.
    + apply IH; [done|lia].
Qed.

(** On an ascending list the loop keeps its two invariants: all before
    [lo] are below [x], all from [hi] on are at least [x]. *)
Lemma bisect_loop_sorted (a : list Z) (x : Z) (Ha : ascending a) (fuel : nat) :
  forall lo hi : nat,
    (lo <= hi <= length a)%nat -> (hi - lo < fuel)%nat ->
    (forall i, (i < lo)%nat -> nth i a 0 < x) ->
    (forall i, (hi <= i < length a)%nat -> x <= nth i a 0) ->
    exists p,
      bisect_loop fuel a x lo hi = Some p
      /\ (forall i, (i < p)%nat -> nth i a 0 < x)
      /\ (forall i, (p <= i < length a)%nat -> x <= nth i a 0).
Proof.
  induction fuel as [|f IH]; intros lo hi Hle Hf Hlo Hhi; [lia|].
  cbn [bisect_loop].
  destruct (Nat.ltb_spec lo hi) as [Hlt|Hge].
  - pose proof (half_between lo hi Hlt) as Hm.
    destruct (Z.ltb_spec (nth ((lo + hi) / 2) a 0) x) as [Hmid|Hmid].
    + apply IH; [lia|lia| |done].
      intros i Hi.
      pose proof (ascending_nth a Ha i ((lo + hi) / 2)%nat ltac:(lia)). lia.
    + apply IH; [lia|lia|done|].
      intros i Hi.
      pose proof (ascending_nth a Ha ((lo + hi) / 2)%nat i ltac:(lia)). lia.
  - exists lo. split; [done|]. split; [done|].
    intros i Hi. apply Hhi. lia.
Qed.

(** [bisect_left] on an ascending list is the insertion point. *)
Lemma bisect_left_sorted (a : list Z) (x : Z) :
  ascending a ->
  (forall i, (i < bisect_left a x)%nat -> nth i a 0 < x)
  /\ (forall i, (bisect_left a x <= i < length a)%nat -> x <= nth i a 0).
Proof.
  intros Ha. unfold bisect_left.
  destruct (bisect_loop_sorted a x Ha (S (length a)) 0 (length a))
    as (p & -> & H1 & H2); [lia|lia|intros; lia|intros; lia|].
  simpl. by split.
Qed.

Lemma key_lt_trans (a b c : Z * Z) :
  key_lt a b = true -> key_lt b c = true -> key_lt a c = true.
Proof.
  unfold key_lt. destruct a, b, c. simpl.
  rewrite !orb_true_iff, !andb_true_iff, !Z.ltb_lt, !Z.eqb_eq. lia.
Qed.

Lemma key_lt_total (a b : Z * Z) :
  key_lt a b = false -> key_lt b a = false -> a = b.
Proof.
  unfold key_lt. destruct a, b. simpl.
  rewrite !orb_false_iff, !andb_false_iff, !Z.ltb_ge, !Z.eqb_neq.
  intros. f_equal; lia.
Qed.

(** The loop of [min]: the result is an element and none has a smaller
    key. *)
Lemma min_loop_spec {A : Type} (k : A -> Z * Z) (rest : list A) :
  forall x : A,
    let b := fold_left (fun best y => if key_lt (k y) (k best) then y else best)
                       rest x in
    In b (x :: rest)
    /\ forall c, In c (x :: rest) -> key_lt (k c) (k b) = false.
Proof.
  induction rest as [|y rest IH]; intros x; simpl.
  - split; [by left|]. intros c [<-|[]].
    unfold key_lt. rewrite !Z.ltb_irrefl. by rewrite andb_false_r.
  - destruct (key_lt (k y) (k x)) eqn:E.
    + destruct (IH y) as [Hin Hmin]. split.
      * simpl in Hin. tauto.
      * intros c [<-|Hc]; [|by apply Hmin].
        destruct (key_lt (k x) _) eqn:E2; [|done].
        rewrite <- (Hmin y ltac:(by left)). symmetry.
        eapply key_lt_trans; eauto.
    + destruct (IH x) as [Hin Hmin]. split.
      * simpl in Hin. simpl. tauto.
      * intros c [<-|[<-|Hc]].
        -- apply Hmin. by left.
        -- pose proof (Hmin x (or_introl eq_refl)) as Hx.
           set (b := fold_left _ rest x) in *.
           destruct (key_lt (k y) (k b)) eqn:E2; [|done]. exfalso.
           destruct (key_lt (k b) (k x)) eqn:E3.
           ++ rewrite (key_lt_trans _ _ _ E2 E3) in E. discriminate.
           ++ rewrite (key_lt_total _ _ E3 Hx) in E2.
              rewrite E2 in E. discriminate.
        -- apply Hmin. by right.
Qed.

Lemma min_by_spec {A : Type} (k : A -> Z * Z) (l : list A) (b : A) :
  min_by k l = Some b ->
  In b l /\ forall c, In c l -> key_le (k b) (k c) = true.
Proof.
  destruct l as [|x rest]; [done|]. intros [= <-].
  destruct (min_loop_spec k rest x) as [Hin Hmin]. split; [exact Hin|].
  intros c Hc. unfold key_le. by rewrite (Hmin c Hc).
Qed.

Lemma candidates_nonempty (hist : list sample) (pos : nat) :
  hist <> [] -> candidates hist pos <> [].
Proof.
  intros Hh. unfold candidates.
  destruct (Nat.ltb_spec 0 pos); [done|].
  destruct (Nat.ltb_spec pos (length hist)); [done|].
  destruct hist; [done|]. simpl in *. lia.
Qed.

(** With a series that is not empty there is always a choice, and
    [pick_closest_rate] returns its value. *)
Lemma nearest_some (hist : list sample) (t : Z) :
  hist <> [] ->
  exists best,
    nearest hist t = Some best /\ pick_closest_rate hist t = Some best.2.
Proof.
  intros Hh. unfold pick_closest_rate, nearest.
  pose proof (candidates_nonempty hist (bisect_left (map fst hist) t) Hh) as Hc.
  destruct (candidates _ _) as [|c cs] eqn:E; [done|].
  destruct hist; [done|]. eexists. split; reflexivity.
Qed.

Lemma nth_map_fst (S : list sample) (i : nat) :
  nth i (map fst S) 0 = (nth i S (0, 0%float)).1.
Proof. exact (map_nth fst S (0, 0%float) i). Qed.

End NearestFacts.

(** *** The choice is the closest sample of the whole series *)
Section NearestOptimal.
Import Nearest.

Lemma key_le_spec (a b : Z * Z) :
  key_le a b = true <-> a.1 < b.1 \/ (a.1 = b.1 /\ a.2 <= b.2).
Proof.
  unfold key_le, key_lt. destruct a, b. simpl.
  rewrite negb_true_iff, orb_false_iff, andb_false_iff.
  rewrite !Z.ltb_ge, Z.eqb_neq. lia.
Qed.

Lemma key_le_trans (a b c : Z * Z) :
  key_le a b = true -> key_le b c = true -> key_le a c = true.
Proof. rewrite !key_le_spec. lia. Qed.

(** On an ascending series no sample has a smaller key than the choice
    made among the two neighbours of the insertion point. *)
Lemma nearest_is_closest (S : list sample) (t : Z) (best : sample) :
  ascending (map fst S) ->
  nearest S t = Some best ->
  forall s, In s S -> key_le (key t best) (key t s) = true.
Proof.
  intros Hasc Hbest s Hs.
  destruct (bisect_left_sorted (map fst S) t Hasc) as [Hlo Hhi].
  pose proof (bisect_left_le (map fst S) t) as Hp.
  rewrite length_map in Hp, Hhi.
  apply min_by_spec in Hbest as [_ Hmin].
  set (p := bisect_left (map fst S) t) in *. clearbody p.
  destruct (In_nth S s (0, 0%float) Hs) as (i & Hi & <-).
  pose proof (ascending_nth (map fst S) Hasc) as Hmono.
  rewrite length_map in Hmono.
  unfold sample in *.
  destruct (Nat.lt_ge_cases i p) as [Hip|Hip].
  - assert (H1 : nth i (map fst S) 0 <= nth (p - 1) (map fst S) 0)
      by (apply Hmono; lia).
    assert (H2 : nth (p - 1) (map fst S) 0 < t) by (apply Hlo; lia).
    rewrite !nth_map_fst in H1. rewrite nth_map_fst in H2.
    apply (key_le_trans _ (key t (nth (p - 1) S (0, 0%float)))).
    + apply Hmin. unfold candidates.
      destruct (Nat.ltb_spec 0 p); [|lia]. by left.
    + apply key_le_spec. unfold key, sample in *. simpl.
      destruct (Z.leb_spec (nth (p - 1) S (0, 0%float)).1 t); [|lia].
      destruct (Z.leb_spec (nth i S (0, 0%float)).1 t); [|lia]. lia.
  - assert (H1 : nth p (map fst S) 0 <= nth i (map fst S) 0)
      by (apply Hmono; lia).
    assert (H2 : t <= nth p (map fst S) 0) by (apply Hhi; lia).
    rewrite !nth_map_fst in H1. rewrite nth_map_fst in H2.
    apply (key_le_trans _ (key t (nth p S (0, 0%float)))).
    + apply Hmin. unfold candidates, sample. apply in_or_app. right.
      destruct (Nat.ltb_spec p (length S)); [|lia]. by left.
    + apply key_le_spec. unfold key, sample in *. simpl.
      destruct (Z.leb_spec (nth p S (0, 0%float)).1 t);
        destruct (Z.leb_spec (nth i S (0, 0%float)).1 t); lia.
Qed.

End NearestOptimal.

(** *** The sort of the snapshots *)
Section SortFacts.
Import Nearest Reconcile.

Lemma insert_by_time_Forall (P : Z -> Prop) (x : sample) (l : list sample) :
  Forall P (map fst (insert_by_time x l))
  <-> P x.1 /\ Forall P (map fst l).
Proof.
  induction l as [|y l IH]; simpl.
  - rewrite Forall_cons. tauto.
  - destruct (x.1 <=? y.1); simpl; rewrite !Forall_cons; [tauto|].
    rewrite IH. tauto.
Qed.

Lemma insert_by_time_ascending (x : sample) (l : list sample) :
  ascending (map fst l) -> ascending (map fst (insert_by_time x l)).
Proof.
  induction l as [|y l IH]; intros Hl; simpl in *.
  - split; [constructor|done].
  - destruct Hl as [Hy Hl]. destruct (Z.leb_spec x.1 y.1) as [Hle|Hgt]; simpl.
    + split; [|by split]. constructor; [done|].
      eapply Forall_impl; [exact Hy|]. simpl. intros z Hz. lia.
    + split; [|by apply IH]. apply insert_by_time_Forall.
      split; [lia|done].
Qed.

(** The series handed to the matching loop is ascending and holds the
    snapshots read, each as often as it was read. *)
Lemma sort_by_time_ascending (l : list sample) :
  ascending (map fst (sort_by_time l)).
Proof.
  induction l as [|x l IH]; simpl; [done|]. by apply insert_by_time_ascending.
Qed.

Lemma insert_by_time_perm (x : sample) (l : list sample) :
  Permutation (insert_by_time x l) (x :: l).
Proof.
  induction l as [|y l IH]; simpl; [done|].
  destruct (x.1 <=? y.1); [done|].
  rewrite IH. apply perm_swap.
Qed.

Lemma sort_by_time_perm (l : list sample) : Permutation (sort_by_time l) l.
Proof.
  induction l as [|x l IH]; simpl; [done|].
  rewrite insert_by_time_perm. by constructor.
Qed.

End SortFacts.

(** ** Matching targets against a series *)
Section MatchingFacts.
Import Calendar Ledger Nearest Reconcile.
Variable mktime : datetime -> Z.
Variable py_float : string -> option float.

Lemma candidates_elem (S : list sample) (p : nat) (c : sample) :
  In c (candidates S p)
  <-> ((0 < p)%nat /\ c = nth (p - 1) S (0, 0%float))
      \/ ((p < length S)%nat /\ c = nth p S (0, 0%float)).
Proof.
  unfold candidates. rewrite in_app_iff.
  destruct (Nat.ltb_spec 0 p), (Nat.ltb_spec p (length S)); simpl;
    intuition (try lia; auto).
Qed.

Lemma match_targets_elem (gap : Z) (snaps : list sample)
    (targets : list (Z * nat)) (row : nat) (v : float) :
  In (row, v) (match_targets gap snaps targets) ->
  exists t best,
    In (t, row) targets /\ nearest snaps t = Some best
    /\ best.2 = v /\ Z.abs (best.1 - t) <= gap.
Proof.
  unfold match_targets. rewrite in_flat_map.
  intros ([t r] & Hin & Hm). unfold match_target in Hm. simpl in Hm.
  destruct (nearest snaps t) as [best|] eqn:E; [|done].
  destruct (Z.leb_spec (Z.abs (best.1 - t)) gap) as [Hle|Hgt]; [|done].
  destruct Hm as [[= <- <-]|[]]. by exists t, best.
Qed.

(** C3. On a series ascending in time, [bisect_left] gives the
    insertion point [p] of the target: the samples before [p] are
    earlier than [t], those from [p] on are not. The candidates are the
    samples at [p-1] and at [p], those of the two that exist. The choice
    is a candidate, and against every candidate it is strictly closer to
    the target, or as close with a rank that is not higher, the rank
    being 0 for a sample not after [t] and 1 for a later one: among
    two candidates at equal distance the one not after the target is
    taken. With the series 100, 200, the targets 140 and 150 both get
    the sample at 100 and the targets 160 and 190 the sample at 200, in
    [pick_closest_rate] and in the matching loop of the alignment
    pass. *)
Theorem nearest_match_rule :
  (forall (S : list sample) (t : Z),
      ascending (map fst S) ->
      let p := bisect_left (map fst S) t in
      let rank := fun c : sample => if c.1 <=? t then 0 else 1 in
      (p <= length S)%nat
      /\ (forall i, (i < p)%nat -> (nth i S (0, 0%float)).1 < t)
      /\ (forall i, (p <= i < length S)%nat -> t <= (nth i S (0, 0%float)).1)
      /\ (forall c, In c (candidates S p)
                    <-> ((0 < p)%nat /\ c = nth (p - 1) S (0, 0%float))
                        \/ ((p < length S)%nat /\ c = nth p S (0, 0%float)))
      /\ (forall best, nearest S t = Some best ->
            In best (candidates S p)
            /\ forall c, In c (candidates S p) ->
                 Z.abs (best.1 - t) < Z.abs (c.1 - t)
                 \/ (Z.abs (best.1 - t) = Z.abs (c.1 - t)
                     /\ rank best <= rank c))
      /\ (S <> [] ->
          exists best,
            nearest S t = Some best /\ pick_closest_rate S t = Some best.2))
  /\ nearest [(100, 0.1%float); (200, 0.2%float)] 140 = Some (100, 0.1%float)
  /\ nearest [(100, 0.1%float); (200, 0.2%float)] 150 = Some (100, 0.1%float)
  /\ nearest [(100, 0.1%float); (200, 0.2%float)] 160 = Some (200, 0.2%float)
  /\ nearest [(100, 0.1%float); (200, 0.2%float)] 190 = Some (200, 0.2%float)
  /\ pick_closest_rate [(100, 0.1%float); (200, 0.2%float)] 140 = Some 0.1%float
  /\ pick_closest_rate [(100, 0.1%float); (200, 0.2%float)] 150 = Some 0.1%float
  /\ pick_closest_rate [(100, 0.1%float); (200, 0.2%float)] 190 = Some 0.2%float
  /\ match_targets 1000 [(100, 0.1%float); (200, 0.2%float)]
       [(140, 2%nat); (150, 3%nat); (190, 4%nat)]
     = [(2%nat, 0.1%float); (3%nat, 0.1%float); (4%nat, 0.2%float)].
Proof.
  split; [|by vm_compute].
  intros S t Hasc p rank.
  destruct (bisect_left_sorted (map fst S) t Hasc) as [Hlo Hhi].
  split; [|split; [|split; [|split; [|split]]]].
  - pose proof (bisect_left_le (map fst S) t) as H.
    by rewrite length_map in H.
  - intros i Hi. rewrite <- nth_map_fst. by apply Hlo.
  - intros i Hi. rewrite <- nth_map_fst. apply Hhi.
    by rewrite length_map.
  - intros c. apply candidates_elem.
  - intros best Hbest. apply min_by_spec in Hbest as [Hin Hmin].
    split; [done|]. intros c Hc. specialize (Hmin c Hc).
    apply key_le_spec in Hmin. unfold key in Hmin. simpl in Hmin.
    subst rank. simpl. lia.
  - apply nearest_some.
Qed.

(** C2 (as the code has it). In the alignment pass a choice whose
    distance to the target is above the gap is dropped: every update
    comes from a target and its choice within the gap, and a target
    whose choice lies further away gets no update. [pick_closest_rate]
    has no gap: on a series that is not empty it always returns the
    value of its choice, however far away. *)
Theorem gap_policy_only_in_alignment :
  (forall (gap : Z) (snaps : list sample) (targets : list (Z * nat))
          (row : nat) (v : float),
      In (row, v) (match_targets gap snaps targets) ->
      exists t best,
        In (t, row) targets /\ nearest snaps t = Some best
        /\ best.2 = v /\ Z.abs (best.1 - t) <= gap)
  /\ (forall (gap : Z) (snaps : list sample) (t : Z) (row : nat)
             (best : sample),
      nearest snaps t = Some best -> gap < Z.abs (best.1 - t) ->
      match_target gap snaps (t, row) = [])
  /\ (forall (gap : Z) (vals : list (list string)) (row : nat) (v : float),
      In (row, v) (align_updates mktime py_float gap vals) ->
      exists snaps targets t best,
        classify mktime py_float 2 vals ([], []) = (snaps, targets)
        /\ In (t, row) targets
        /\ nearest (sort_by_time snaps) t = Some best
        /\ best.2 = v /\ Z.abs (best.1 - t) <= gap)
  /\ (forall (hist : list sample) (ts_ms : Z),
      hist <> [] ->
      exists best,
        nearest hist ts_ms = Some best
        /\ pick_closest_rate hist ts_ms = Some best.2)
  /\ match_targets 1000 [(100, 0.1%float)] [(5000, 2%nat)] = []
  /\ pick_closest_rate [(100, 0.1%float)] 5000 = Some 0.1%float.
Proof.
  split; [exact match_targets_elem|].
  split.
  { intros gap snaps t row best Hb Hgap. unfold match_target. simpl.
    rewrite Hb. destruct (Z.leb_spec (Z.abs (best.1 - t)) gap); [lia|done]. }
  split.
  { intros gap vals row v. unfold align_updates.
    destruct (classify mktime py_float 2 vals ([], [])) as [snaps targets].
    destruct snaps as [|s snaps]; [done|].
    destruct targets as [|tg targets]; [done|].
    intros Hin. apply match_targets_elem in Hin as (t & best & H).
    by exists (s :: snaps), (tg :: targets), t, best. }
  split; [exact nearest_some|]. by vm_compute.
Qed.

End MatchingFacts.

(** The spec's series and its equidistant target: the sample at 100 is
    a candidate and no candidate beats it. *)
Lemma nearest_match_rule_witness :
  let S := [(100, 0.1%float); (200, 0.2%float)] in
  let p := Nearest.bisect_left (map fst S) 150 in
  In (100, 0.1%float) (Nearest.candidates S p)
  /\ forall c : Nearest.sample, In c (Nearest.candidates S p) ->
       Z.abs (100 - 150) < Z.abs (c.1 - 150)
       \/ (Z.abs (100 - 150) = Z.abs (c.1 - 150)
           /\ (if 100 <=? 150 then 0 else 1)
              <= (if c.1 <=? 150 then 0 else 1)).
Proof.
  intros S p.
  assert (Hasc : Nearest.ascending (map fst S)).
  { simpl. repeat constructor. lia. }
  destruct (proj1 nearest_match_rule S 150 Hasc) as (_ & _ & _ & _ & H & _).
  apply (H (100, 0.1%float)). reflexivity.
Defined.

(** A funding row at 5000 and a snapshot at 100 with a gap of 1000. *)
Lemma gap_policy_only_in_alignment_witness :
  Reconcile.match_target 1000 [(100, 0.1%float)] (5000, 2%nat) = [].
Proof.
  apply (proj1 (proj2 (gap_policy_only_in_alignment
                         (fun _ => 0) (fun _ => None)))
           1000 [(100, 0.1%float)] 5000 2%nat (100, 0.1%float)).
  - reflexivity.
  - simpl. lia.
Defined.

(** C2, against "in every use": [pick_closest_rate] returns the rate of
    a sample 4900 ms away, and of one twice the configured 48 hours
    away. *)
Lemma pick_closest_rate_has_no_gap :
  Nearest.pick_closest_rate [(100, 0.1%float)] 5000 = Some 0.1%float
  /\ 1000 < Z.abs (100 - 5000)
  /\ Nearest.pick_closest_rate [(100, 0.1%float)]
       (100 + 2 * Reconcile.gap_ms) = Some 0.1%float
  /\ Reconcile.gap_ms < Z.abs (100 - (100 + 2 * Reconcile.gap_ms)).
Proof. vm_compute. repeat split; reflexivity. Qed.

(** ** The alignment pass on the sheet *)
Section ReconcileFacts.
Import Calendar Ledger Nearest Reconcile.
Variable mktime : datetime -> Z.
Variable py_float : string -> option float.
Variable show_float : float -> string.

Local Abbreviation classify := (Reconcile.classify mktime py_float).
Local Abbreviation classify_row := (Reconcile.classify_row mktime py_float).
Local Abbreviation align_updates := (Reconcile.align_updates mktime py_float).
Local Abbreviation align_with :=
  (Reconcile.align_with mktime py_float show_float).
Local Abbreviation target_row := (Reconcile.target_row mktime).

Lemma nth_pad_to {A : Type} (n i : nat) (x : A) (l : list A) :
  nth i (pad_to n x l) x = nth i l x.
Proof.
  unfold pad_to. destruct (Nat.lt_ge_cases i (length l)) as [Hlt|Hge].
  - by rewrite app_nth1.
  - rewrite app_nth2 by done. rewrite nth_repeat.
    by rewrite (nth_overflow l x Hge).
Qed.

Lemma pad_to_length {A : Type} (n : nat) (x : A) (l : list A) :
  (n <= length (pad_to n x l))%nat.
Proof. unfold pad_to. rewrite length_app, repeat_length. lia. Qed.

(** Reading the grid after one cell has been set. *)
Lemma nth_set_cell (g : list (list string)) (r c : nat) (v : string)
    (r' c' : nat) :
  nth c' (nth r' (set_cell g r c v) []) EmptyString
  = if decide (r' = r /\ c' = c) then v
    else nth c' (nth r' g []) EmptyString.
Proof.
  unfold set_cell.
  pose proof (pad_to_length (S r) [] g) as Hg.
  set (g' := pad_to (S r) [] g) in *.
  assert (Hsame : forall i, nth i g' [] = nth i g [])
    by (intros i; apply nth_pad_to).
  rewrite (nth_lookup _ r').
  destruct (decide (r' = r)) as [->|Hr].
  - rewrite list_lookup_insert_eq by lia. simpl.
    pose proof (pad_to_length (S c) EmptyString (nth r g' [])) as Hrow.
    rewrite nth_lookup.
    destruct (decide (c' = c)) as [->|Hc].
    + rewrite list_lookup_insert_eq by lia. simpl.
      by rewrite decide_True.
    + rewrite list_lookup_insert_ne by done.
      rewrite <- nth_lookup, nth_pad_to, Hsame.
      rewrite decide_False; [done|]. intros [_ ?]. done.
  - rewrite list_lookup_insert_ne by done.
    rewrite <- nth_lookup, Hsame.
    rewrite decide_False; [done|]. intros [? _]. done.
Qed.

Lemma cell_update_cell (ws : worksheet) (row col : nat) (v : string)
    (r c : nat) :
  (1 <= row)%nat -> (1 <= col)%nat -> (1 <= r)%nat -> (1 <= c)%nat ->
  cell (update_cell ws row col v) r c
  = if decide (r = row /\ c = col) then v else cell ws r c.
Proof.
  intros Hrow Hcol Hr Hc. unfold cell, update_cell. simpl.
  rewrite nth_set_cell.
  destruct (decide (r - 1 = row - 1 /\ c - 1 = col - 1)%nat) as [H|H].
  - rewrite decide_True; [done|]. lia.
  - rewrite decide_False; [done|]. lia.
Qed.

(** The rows read from ['A2:D'] are the cells of columns A to D. *)
Lemma get_A2_cell (ws : worksheet) (row k : nat) :
  (2 <= row)%nat -> (k < 4)%nat ->
  nth k (nth (row - 2) (get_A2 4 ws) []) EmptyString = cell ws row (S k).
Proof.
  intros Hrow Hk. unfold get_A2, cell.
  change (@nil string) with (firstn 4 (@nil string)) at 1.
  rewrite map_nth.
  replace (nth (row - 2) (skipn 1 (grid ws)) [])
    with (nth (row - 1) (grid ws) []).
  - rewrite nth_firstn. destruct (Nat.ltb_spec k 4); [|lia].
    by replace (S k - 1)%nat with k by lia.
  - replace (row - 1)%nat with (S (row - 2)) by lia.
    by destruct (grid ws) as [|h g]; [destruct (row - 2)%nat|].
Qed.

Lemma classify_row_targets (i : nat) (row : list string)
    (acc : list sample * list (Z * nat)) (t : Z) (j : nat) :
  In (t, j) (classify_row i row acc).2 ->
  In (t, j) acc.2 \/ (j = i /\ target_row row t).
Proof.
  unfold Reconcile.classify_row, Reconcile.target_row.
  destruct (Py.str_empty _); [by left|].
  destruct (_to_ms mktime _) as [t_ms|]; [|by left].
  destruct (Py.blank (nth 1 row EmptyString)) eqn:Eb,
           (Py.blank (nth 3 row EmptyString)) eqn:Ed; simpl;
    try (by left).
  - destruct (py_float _); by left.
  - rewrite in_app_iff. simpl. intros [H|[[= <- <-]|[]]]; [by left|by right].
Qed.

Lemma classify_targets (vals : list (list string)) :
  forall (i : nat) (acc : list sample * list (Z * nat)) (t : Z) (j : nat),
    In (t, j) (classify i vals acc).2 ->
    In (t, j) acc.2
    \/ ((i <= j < i + length vals)%nat /\ target_row (nth (j - i) vals []) t).
Proof.
  induction vals as [|row vals IH]; intros i acc t j Hin; simpl in *.
  - by left.
  - apply IH in Hin as [Hin|[Hj Ht]].
    + apply classify_row_targets in Hin as [Hin|[-> Ht]]; [by left|].
      right. split; [lia|]. by rewrite Nat.sub_diag.
    + right. split; [lia|].
      by replace (j - i)%nat with (S (j - S i)) by lia.
Qed.

(** Every update names a row of the snapshot that was filed as a
    target. *)
Lemma align_updates_target (gap : Z) (vals : list (list string))
    (row : nat) (v : float) :
  In (row, v) (align_updates gap vals) ->
  (2 <= row)%nat /\ exists t, target_row (nth (row - 2) vals []) t.
Proof.
  unfold Reconcile.align_updates.
  destruct (classify 2 vals ([], [])) as [snaps targets] eqn:E.
  destruct snaps as [|s snaps]; [done|].
  destruct targets as [|tg targets]; [done|].
  intros Hin. apply match_targets_elem in Hin as (t & best & Ht & _).
  pose proof (classify_targets vals 2 ([], []) t row) as H.
  rewrite E in H. destruct (H Ht) as [[]|[Hr Htr]].
  split; [lia|]. by exists t.
Qed.

(** Cells outside the updates keep their text. *)
Lemma fold_update_frame (us : list (nat * float)) :
  forall (ws : worksheet) (r c : nat),
    (1 <= r)%nat -> (1 <= c)%nat ->
    (forall u, In u us -> (1 <= u.1)%nat) ->
    c <> 4%nat \/ (forall v, ~ In (r, v) us) ->
    cell (fold_left (fun w u => update_cell w u.1 4 (show_float u.2)) us ws) r c
    = cell ws r c.
Proof.
  induction us as [|u us IH]; intros ws r c Hr Hc Hrows Hout; simpl; [done|].
  rewrite IH; [|done|done| |].
  - rewrite cell_update_cell; [|by apply Hrows; left|lia|done|done].
    rewrite decide_False; [done|]. intros [-> ->].
    destruct Hout as [?|Hout]; [done|].
    apply (Hout u.2). left. by destruct u.
  - intros u' Hu'. apply Hrows. by right.
  - destruct Hout as [?|Hout]; [by left|]. right.
    intros v Hv. apply (Hout v). by right.
Qed.

Lemma updates_for_row_dec (us : list (nat * float)) (r : nat) :
  (exists v, In (r, v) us) \/ (forall v, ~ In (r, v) us).
Proof.
  induction us as [|[r' v'] us IH]; [right; intros v []|].
  destruct (decide (r' = r)) as [->|Hne]; [left; exists v'; by left|].
  destruct IH as [[v Hv]|Hno]; [left; exists v; by right|].
  right. intros v [[= ? ?]|Hv]; [done|]. by apply (Hno v).
Qed.

(** A stored row whose funding cell shows a text, a zero included, is
    not filed as a snapshot by the first loop. *)
Lemma funded_row_is_no_snapshot (i : nat) (row : list string)
    (acc : list sample * list (Z * nat)) :
  Py.blank (nth 1 row EmptyString) = false ->
  (classify_row i row acc).1 = acc.1.
Proof.
  intros Hb. unfold Reconcile.classify_row.
  destruct (Py.str_empty _); [done|].
  destruct (_to_ms mktime _); [|done].
  rewrite Hb. simpl. by destruct (Py.blank (nth 3 row EmptyString)).
Qed.

(** C4 (as the code has it). The pass takes as targets only rows of the
    snapshot, from row 2 on, whose funding cell (column 2) is not empty,
    nor blank, and whose interest cell (column 4) is blank; the only
    cells it changes are the interest cells of such rows; a cell that
    held a text that is not blank keeps it, and so does every other
    cell. Blank is the test of the code: nothing left once white space
    is stripped, so that an interest cell holding white space alone
    counts as empty. *)
Theorem alignment_fills_only_empty_interest (gap : Z) (ws : worksheet) :
  (forall row v, In (row, v) (align_updates gap (get_A2 4 ws)) ->
      (2 <= row)%nat
      /\ cell ws row 2 <> EmptyString
      /\ Py.blank (cell ws row 2) = false
      /\ Py.blank (cell ws row 4) = true)
  /\ (forall row col, (1 <= row)%nat -> (1 <= col)%nat ->
      cell (align_with gap ws) row col <> cell ws row col ->
      col = 4%nat /\ exists v, In (row, v) (align_updates gap (get_A2 4 ws)))
  /\ (forall row col, (1 <= row)%nat -> (1 <= col)%nat ->
      Py.blank (cell ws row col) = false ->
      cell (align_with gap ws) row col = cell ws row col)
  /\ title (align_with gap ws) = title ws.
Proof.
  assert (Htargets : forall row v,
             In (row, v) (align_updates gap (get_A2 4 ws)) ->
             (2 <= row)%nat
             /\ cell ws row 2 <> EmptyString
             /\ Py.blank (cell ws row 2) = false
             /\ Py.blank (cell ws row 4) = true).
  { intros row v Hin.
    apply align_updates_target in Hin as (Hrow & t & _ & Hb & Hd).
    rewrite get_A2_cell in Hb, Hd by lia.
    repeat split; try done. intros E. by rewrite E in Hb. }
  assert (Hchanged : forall row col, (1 <= row)%nat -> (1 <= col)%nat ->
             cell (align_with gap ws) row col <> cell ws row col ->
             col = 4%nat
             /\ exists v, In (row, v) (align_updates gap (get_A2 4 ws))).
  { intros row col Hrow Hcol Hne.
    assert (Hrows : forall u, In u (align_updates gap (get_A2 4 ws)) ->
                      (1 <= u.1)%nat).
    { intros [r v] Hu. apply Htargets in Hu. simpl. lia. }
    destruct (decide (col = 4%nat)) as [->|Hc].
    - split; [done|].
      destruct (updates_for_row_dec (align_updates gap (get_A2 4 ws)) row)
        as [H|H]; [done|].
      exfalso. apply Hne. unfold Reconcile.align_with.
      apply fold_update_frame; auto.
    - exfalso. apply Hne. unfold Reconcile.align_with.
      apply fold_update_frame; auto. }
  split; [exact Htargets|]. split; [exact Hchanged|]. split.
  - intros row col Hrow Hcol Hfull.
    destruct (decide (cell (align_with gap ws) row col = cell ws row col))
      as [Heq|Hne]; [done|].
    destruct (Hchanged row col Hrow Hcol Hne) as (-> & v & Hin).
    apply Htargets in Hin as (_ & _ & _ & Hblank). congruence.
  - clear Htargets Hchanged. unfold Reconcile.align_with.
    generalize (align_updates gap (get_A2 4 ws)). intros us. revert ws.
    induction us as [|u us IH]; intros ws; simpl; [done|]. by rewrite IH.
Qed.

End ReconcileFacts.

(** *** A sample pass under UTC

    A funding row at midnight without interest and a snapshot row one
    hour later: the pass writes the snapshot's rate into the interest
    cell of the funding row and nothing else. *)
Lemma align_sample_run :
  Ledger.grid
    (Reconcile.align_bybit_interest_to_funding Calendar.utc_mktime
       (fun s => if String.eqb s "5.5" then Some 5.5%float else None)
       (fun _ => "5.5")
       (Ledger.Worksheet "ENA_Bybit"
          [["Date"; "Funding Rate APR (%)"];
           ["1/1/2024 0:00:00"; "10.95"];
           ["1/1/2024 1:00:00"; ""; ""; "5.5"]]))
  = [["Date"; "Funding Rate APR (%)"];
     ["1/1/2024 0:00:00"; "10.95"; ""; "5.5"];
     ["1/1/2024 1:00:00"; ""; ""; "5.5"]].
Proof. vm_compute. reflexivity. Qed.

(** In that pass the funding cell of row 2 keeps its text. *)
Lemma alignment_fills_only_empty_interest_witness :
  let ws := Ledger.Worksheet "ENA_Bybit"
              [["Date"; "Funding Rate APR (%)"];
               ["1/1/2024 0:00:00"; "10.95"];
               ["1/1/2024 1:00:00"; ""; ""; "5.5"]] in
  Reconcile.cell
    (Reconcile.align_with Calendar.utc_mktime
       (fun s => if String.eqb s "5.5" then Some 5.5%float else None)
       (fun _ => "5.5") Reconcile.gap_ms ws) 2 2
  = Reconcile.cell ws 2 2.
Proof.
  intros ws.
  apply (proj1 (proj2 (proj2
           (alignment_fills_only_empty_interest Calendar.utc_mktime
              (fun s => if String.eqb s "5.5" then Some 5.5%float else None)
              (fun _ => "5.5") Reconcile.gap_ms ws)))).
  - lia.
  - lia.
  - reflexivity.
Defined.

(** C4, against "never changes a cell that already held a non-empty
    value": the interest cell of the funding row holds one space, which
    is a text that is not empty; the row is taken as a target and the
    cell is overwritten with the rate of the snapshot. *)
Lemma whitespace_interest_is_overwritten :
  let py_float := fun s : string =>
                    if String.eqb s "5.5" then Some 5.5%float else None in
  let show_float := fun _ : float => "5.5"%string in
  let ws := Ledger.Worksheet "ENA_Bybit"
              [["Date"; "Funding Rate APR (%)"];
               ["1/1/2024 0:00:00"; "10.95"; ""; " "];
               ["1/1/2024 1:00:00"; ""; ""; "5.5"]] in
  Reconcile.cell ws 2 2 = "10.95"%string
  /\ Reconcile.cell ws 2 4 = " "%string
  /\ Reconcile.cell ws 2 4 <> EmptyString
  /\ Reconcile.align_updates Calendar.utc_mktime py_float Reconcile.gap_ms
       (Ledger.get_A2 4 ws) = [(2%nat, 5.5%float)]
  /\ Reconcile.cell
       (Reconcile.align_bybit_interest_to_funding Calendar.utc_mktime
          py_float show_float ws) 2 4 = "5.5"%string.
Proof. vm_compute. repeat split; try reflexivity. discriminate. Qed.

(* ===================================================================== *)
(** * Part III: the rest of the collector                                *)
(* ===================================================================== *)

(** ** HTTP *)
Section HttpFacts.
Import Http.
Context {W J : Type} (get : W -> reply J * W).

Lemma http_json_loop_run (retries : nat) :
  forall (sleep_sec : float) (w : W) (log : list float),
  exists k : nat,
    (k <= retries)%nat
    /\ (forall i, (i < k)%nat -> is_body (reply_at get i w) = false)
    /\ slept (_http_json_loop get retries sleep_sec w log)
       = log ++ repeat sleep_sec k
    /\ ((k < retries)%nat
        /\ (exists j, reply_at get k w = Body j
                      /\ result (_http_json_loop get retries sleep_sec w log)
                         = Some j)
        /\ world (_http_json_loop get retries sleep_sec w log)
           = after_requests get (S k) w
        \/ k = retries
           /\ result (_http_json_loop get retries sleep_sec w log) = None
           /\ world (_http_json_loop get retries sleep_sec w log)
              = after_requests get k w).
Proof.
  induction retries as [|n IH]; intros sleep_sec w log.
  - exists 0%nat. simpl. rewrite app_nil_r.
    split; [lia|]. split; [intros; lia|]. split; [done|]. by right.
  - simpl. destruct (get w) as [r w'] eqn:E.
    assert (Hfirst : reply_at get 0 w = r)
      by (unfold reply_at; simpl; by rewrite E).
    assert (Hstep : forall i, reply_at get (S i) w = reply_at get i w')
      by (intros i; unfold reply_at; simpl; by rewrite E).
    assert (Hafter : forall i, after_requests get (S i) w
                               = after_requests get i w')
      by (intros i; simpl; by rewrite E).
    destruct r as [j| |].
    1: { exists 0%nat. simpl. rewrite app_nil_r.
         split; [lia|]. split; [intros; lia|]. split; [done|].
         left. split; [lia|]. split; [by exists j|reflexivity]. }
    all: destruct (IH sleep_sec w' (log ++ [sleep_sec]))
           as (k & Hk & Hpre & Hs & Hend);
         exists (S k); split; [lia|]; split;
         [intros [|i] Hi; [by rewrite Hfirst|rewrite Hstep; apply Hpre; lia]|];
         split; [rewrite Hs, <- app_assoc; reflexivity|];
         rewrite Hstep, !Hafter;
         destruct Hend as [(Hlt & Hj & Hw)|(-> & Hres & Hw)];
         [left; split; [lia|]; by split|right; by split].
Qed.

(** X1. [_http_json] never raises and makes at most three requests: it
    returns the body of the first reply that has one, having napped 0.6
    once for each reply before it; after three replies without a body
    it has napped three times, the last nap included, and returns
    [None]. *)
Theorem http_json_three_tries (w : W) :
  exists k : nat,
    (k <= 3)%nat
    /\ (forall i, (i < k)%nat -> is_body (reply_at get i w) = false)
    /\ slept (_http_json get w) = repeat 0.6%float k
    /\ ((k < 3)%nat
        /\ (exists j, reply_at get k w = Body j
                      /\ result (_http_json get w) = Some j)
        /\ world (_http_json get w) = after_requests get (S k) w
        \/ k = 3%nat
           /\ result (_http_json get w) = None
           /\ world (_http_json get w) = after_requests get 3 w).
Proof.
  destruct (http_json_loop_run 3 0.6%float w []) as (k & Hk & Hpre & Hs & Hend).
  exists k. split; [exact Hk|]. split; [exact Hpre|]. split; [exact Hs|].
  destruct Hend as [H|(-> & H)]; [by left|by right].
Qed.

End HttpFacts.

(** ** Spot prices *)
Section MarketFacts.
Import Market.

Lemma minute_open_eq (ts : Z) : minute_open ts = 60000 * (ts / 60000).
Proof. unfold minute_open. pose proof (Z.div_mod ts 60000). lia. Qed.

(** X2. [minute_open] is the start of the minute of its argument: a
    multiple of 60000 not above it and less than 60000 below it; it
    leaves a minute start alone, and two times have the same minute
    open exactly when they lie in the same minute. *)
Theorem minute_open_is_floor (ts : Z) :
  minute_open ts mod 60000 = 0
  /\ minute_open ts <= ts < minute_open ts + 60000
  /\ minute_open (minute_open ts) = minute_open ts
  /\ (forall ts', minute_open ts' = minute_open ts
                  <-> minute_open ts <= ts' < minute_open ts + 60000).
Proof.
  assert (Hmod : minute_open ts mod 60000 = 0).
  { rewrite minute_open_eq, Z.mul_comm. by apply Z.mod_mul. }
  assert (Hin : minute_open ts <= ts < minute_open ts + 60000).
  { unfold minute_open. pose proof (Z.mod_pos_bound ts 60000). lia. }
  split; [exact Hmod|]. split; [exact Hin|]. split.
  - unfold minute_open at 1. rewrite Hmod. lia.
  - intros ts'. rewrite !minute_open_eq. split.
    + intros E. pose proof (Z.mod_pos_bound ts' 60000).
      pose proof (Z.div_mod ts' 60000). lia.
    + intros H. f_equal. symmetry.
      apply (Z.div_unique ts' 60000 (ts / 60000) (ts' - 60000 * (ts / 60000)));
        lia.
Qed.

Lemma endswith_refl (s : string) : endswith s s = true.
Proof. destruct s; simpl; [done|]. by rewrite Ascii.eqb_refl, String.eqb_refl. Qed.

Lemma endswith_app (a b : string) : endswith (a +:+ b) b = true.
Proof.
  induction a as [|c a IH]; simpl.
  - apply endswith_refl.
  - rewrite IH. apply orb_true_r.
Qed.

(** X3. The spot symbol asked of Bybit always ends in [USDT]; a symbol
    that already does is asked as it is, so mapping twice changes
    nothing. *)
Theorem spot_sym_ends_in_usdt (contract_symbol : string) :
  endswith (spot_sym contract_symbol) "USDT" = true
  /\ (endswith contract_symbol "USDT" = true ->
      spot_sym contract_symbol = contract_symbol)
  /\ spot_sym (spot_sym contract_symbol) = spot_sym contract_symbol.
Proof.
  assert (H1 : endswith (spot_sym contract_symbol) "USDT" = true).
  { unfold spot_sym.
    destruct (endswith contract_symbol "USDT") eqn:E; [done|].
    destruct (endswith contract_symbol "USDC");
      [apply endswith_app|].
    destruct (endswith contract_symbol "USD"); apply endswith_app. }
  assert (H2 : forall s, endswith s "USDT" = true -> spot_sym s = s).
  { intros s Hs. unfold spot_sym. by rewrite Hs. }
  split; [exact H1|]. split; [apply H2|]. by apply H2.
Qed.

Lemma try_quotes_spec (kline : string -> Z -> option float)
    (token : string) (mo : Z) (quotes : list string) :
  forall log : list (string * Z),
  exists extra : list (string * Z),
    (try_quotes kline token mo quotes log).2 = log ++ extra
    /\ (length extra <= length quotes)%nat
    /\ match (try_quotes kline token mo quotes log).1 with
       | Some sym =>
           exists pre q post,
             quotes = pre ++ q :: post /\ sym = token +:+ q
             /\ is_Some (kline sym mo)
             /\ forall q', In q' pre -> kline (token +:+ q') mo = None
       | None => forall q, In q quotes -> kline (token +:+ q) mo = None
       end.
Proof.
  induction quotes as [|q quotes IH]; intros log; simpl.
  - exists []. rewrite app_nil_r. split; [done|]. split; [done|]. by intros q [].
  - destruct (kline (token +:+ q) mo) as [px|] eqn:E; simpl.
    + exists [(token +:+ q, mo)]. split; [done|]. split; [simpl; lia|].
      exists [], q, quotes. split; [done|]. split; [done|].
      split; [by rewrite E|]. by intros q' [].
    + destruct (IH (log ++ [(token +:+ q, mo)])) as (extra & Hlog & Hlen & Hr).
      exists ((token +:+ q, mo) :: extra).
      split; [by rewrite Hlog, <- app_assoc|]. split; [simpl; lia|].
      destruct (try_quotes kline token mo quotes _).1 as [sym|].
      * destruct Hr as (pre & q0 & post & -> & -> & Hsome & Hpre).
        exists (q :: pre), q0, post. split; [done|]. split; [done|].
        split; [done|]. intros q' [<-|Hq']; [done|by apply Hpre].
      * intros q' [<-|Hq']; [done|by apply Hr].
Qed.

(** X4. [_bn_resolve_symbol] settles the symbol of a token once: a
    second call, at any probe time and whatever the venue would answer
    by then, returns the first answer without a request, a failure to
    resolve included. On a first call the symbol is the token followed
    by the first quote of [_SPOT_QUOTES] that has a candle at the minute
    of the probe, or [None] when none has, and at most five requests
    are made. *)
Theorem bn_symbol_is_resolved_once (kline : string -> Z -> option float)
    (token : string) (probe_ms : Z) (st : state) :
  let r := (_bn_resolve_symbol kline token probe_ms st).1 in
  let st1 := (_bn_resolve_symbol kline token probe_ms st).2 in
  (forall (kline' : string -> Z -> option float) (probe' : Z),
      _bn_resolve_symbol kline' token probe' st1 = (r, st1))
  /\ (_SYMBOL_CACHE_BN st !! token = None ->
      (exists extra, asked st1 = asked st ++ extra /\ (length extra <= 5)%nat)
      /\ match r with
         | Some sym =>
             exists pre q post,
               _SPOT_QUOTES = pre ++ q :: post /\ sym = token +:+ q
               /\ is_Some (kline sym (minute_open probe_ms))
               /\ forall q', In q' pre ->
                    kline (token +:+ q') (minute_open probe_ms) = None
         | None =>
             forall q, In q _SPOT_QUOTES ->
               kline (token +:+ q) (minute_open probe_ms) = None
         end).
Proof.
  unfold _bn_resolve_symbol.
  destruct (_SYMBOL_CACHE_BN st !! token) as [r0|] eqn:E.
  - simpl. split; [|done]. intros kline' probe'. by rewrite E.
  - destruct (try_quotes_spec kline token (minute_open probe_ms)
                _SPOT_QUOTES (asked st)) as (extra & Hlog & Hlen & Hr).
    destruct (try_quotes kline token (minute_open probe_ms) _SPOT_QUOTES
                (asked st)) as [r log].
    cbn [fst snd _SYMBOL_CACHE_BN asked] in *.
    split.
    + intros kline' probe'. by rewrite lookup_insert_eq.
    + intros _. split; [by exists extra|exact Hr].
Qed.

Lemma cached_sym_truthy (st : state) (token sym : string) :
  cached_sym st token = Some sym ->
  _SYMBOL_CACHE_BN st !! token = Some (Some sym) /\ Py.str_empty sym = false.
Proof.
  unfold cached_sym.
  destruct (_SYMBOL_CACHE_BN st !! token) as [[s|]|]; try done.
  destruct (Py.str_empty s) eqn:E; [done|]. by intros [= ->].
Qed.

Lemma cached_sym_intro (st : state) (token sym : string) :
  _SYMBOL_CACHE_BN st !! token = Some (Some sym) ->
  Py.str_empty sym = false -> cached_sym st token = Some sym.
Proof. intros H E. unfold cached_sym. by rewrite H, E. Qed.

(** A call that finds symbol and price in the caches returns the price
    and makes no request. *)
Lemma spot_binance_hit (kline : string -> Z -> option float)
    (token sym : string) (ts_ms : Z) (px : float) (st : state) :
  cached_sym st token = Some sym ->
  _SPOT_CACHE_BN st !! (sym, minute_open ts_ms) = Some px ->
  spot_binance kline token ts_ms st = (Some px, st).
Proof.
  intros Hsym Hpx. unfold spot_binance. rewrite Hsym.
  apply cached_sym_truthy in Hsym as [_ ->]. by rewrite Hpx.
Qed.

(** After a call that returned a price, both caches hold it. *)
Lemma spot_binance_post (kline : string -> Z -> option float)
    (token : string) (ts_ms : Z) (px : float) (st st1 : state) :
  spot_binance kline token ts_ms st = (Some px, st1) ->
  exists sym,
    cached_sym st1 token = Some sym
    /\ _SPOT_CACHE_BN st1 !! (sym, minute_open ts_ms) = Some px.
Proof.
  unfold spot_binance.
  assert (Hfetch : forall (sym : string) (st0 : state),
    cached_sym st0 token = Some sym ->
    match _SPOT_CACHE_BN st0 !! (sym, minute_open ts_ms) with
    | Some px0 => (Some px0, st0)
    | None =>
        match kline sym (minute_open ts_ms) with
        | Some p =>
            (kline sym (minute_open ts_ms),
             State (_SYMBOL_CACHE_BN st0)
               (<[(sym, minute_open ts_ms) := p]> (_SPOT_CACHE_BN st0))
               (asked st0 ++ [(sym, minute_open ts_ms)]))
        | None =>
            (kline sym (minute_open ts_ms),
             State (_SYMBOL_CACHE_BN st0) (_SPOT_CACHE_BN st0)
               (asked st0 ++ [(sym, minute_open ts_ms)]))
        end
    end = (Some px, st1) ->
    exists sym,
      cached_sym st1 token = Some sym
      /\ _SPOT_CACHE_BN st1 !! (sym, minute_open ts_ms) = Some px).
  { intros sym st0 Hsym H.
    destruct (_SPOT_CACHE_BN st0 !! (sym, minute_open ts_ms)) as [px0|] eqn:Ec.
    - injection H as -> ->. by exists sym.
    - destruct (kline sym (minute_open ts_ms)) as [p|] eqn:Ek;
        [|discriminate].
      injection H as -> <-. exists sym. split.
      + apply cached_sym_truthy in Hsym as [H1 H2].
        by apply cached_sym_intro.
      + simpl. apply lookup_insert_eq. }
  destruct (cached_sym st token) as [sym|] eqn:Ecs.
  - pose proof (cached_sym_truthy _ _ _ Ecs) as [_ Hne]. rewrite Hne.
    by apply Hfetch.
  - destruct (_bn_resolve_symbol kline token ts_ms st) as [r st0] eqn:Er.
    destruct r as [sym|]; [|discriminate].
    destruct (Py.str_empty sym) eqn:Hne; [discriminate|].
    apply Hfetch. apply cached_sym_intro; [|exact Hne].
    unfold _bn_resolve_symbol in Er.
    destruct (_SYMBOL_CACHE_BN st !! token) as [r0|] eqn:E0.
    + injection Er as -> <-.
      unfold cached_sym in Ecs. rewrite E0, Hne in Ecs. discriminate.
    + destruct (try_quotes kline token (minute_open ts_ms) _SPOT_QUOTES
                  (asked st)) as [r log].
      injection Er as -> <-. simpl. apply lookup_insert_eq.
Qed.

(** X5. A price [spot_binance] has returned for a token is returned
    again, without any request, for every time of the same minute,
    whatever the venue would answer by then. *)
Theorem spot_binance_minute_is_cached (kline : string -> Z -> option float)
    (token : string) (ts_ms : Z) (px : float) (st st1 : state) :
  spot_binance kline token ts_ms st = (Some px, st1) ->
  forall (kline' : string -> Z -> option float) (ts' : Z),
    minute_open ts' = minute_open ts_ms ->
    spot_binance kline' token ts' st1 = (Some px, st1).
Proof.
  intros H kline' ts' Hmin.
  apply spot_binance_post in H as (sym & Hsym & Hpx).
  apply (spot_binance_hit kline' token sym); [exact Hsym|].
  by rewrite Hmin.
Qed.

End MarketFacts.

(** The token ENA, priced against USDT only, at two times of a minute. *)
Lemma spot_binance_minute_is_cached_witness :
  let kline := fun (sym : string) (_ : Z) =>
                 if String.eqb sym "ENAUSDT" then Some 0.5%float else None in
  let st1 := (Market.spot_binance kline "ENA" 1700000000999
                Market.empty_state).2 in
  Market.spot_binance (fun _ _ => None) "ENA" 1700000030000 st1
  = (Some 0.5%float, st1).
Proof.
  intros kline st1.
  apply (spot_binance_minute_is_cached kline "ENA" 1700000000999 0.5%float
           Market.empty_state st1).
  - vm_compute. reflexivity.
  - reflexivity.
Defined.

(** A contract quoted in USDC is priced on the USDT spot pair. *)
Lemma spot_sym_ends_in_usdt_witness :
  Market.spot_sym (Market.spot_sym "ENAUSDC") = "ENAUSDT".
Proof.
  rewrite (proj1 (proj2 (spot_sym_ends_in_usdt (Market.spot_sym "ENAUSDC")))).
  - reflexivity.
  - reflexivity.
Defined.

(** ** Sheets and their header row *)
Section SheetsFacts.
Import Sheets.

Lemma ensure_headers_header (g : list (list string)) :
  firstn 11 (row_values_1 (ensure_headers g)) = HEADERS.
Proof.
  unfold ensure_headers.
  destruct (_ || _) eqn:E.
  - destruct g as [|first rest]; reflexivity.
  - apply orb_false_iff in E as [_ E].
    apply negb_false_iff, bool_decide_eq_true in E. exact E.
Qed.

Lemma ensure_headers_fix (g : list (list string)) :
  firstn 11 (row_values_1 g) = HEADERS -> ensure_headers g = g.
Proof.
  intros H. unfold ensure_headers.
  change (length HEADERS) with 11%nat. rewrite H.
  rewrite bool_decide_eq_true_2 by done.
  destruct (row_values_1 g); [discriminate|]. reflexivity.
Qed.

Lemma ensure_headers_rows (g : list (list string)) :
  skipn 1 (ensure_headers g) = skipn 1 g
  /\ skipn 11 (row_values_1 (ensure_headers g)) = skipn 11 (row_values_1 g).
Proof.
  unfold ensure_headers.
  destruct (_ || _); [|done].
  destruct g as [|first rest]; [done|]. split; reflexivity.
Qed.

(** X6. After [ensure_headers] row 1 begins with the eleven header
    texts; the rows below and the cells of row 1 past column 11 are as
    before; a sheet whose header is right is left alone, so a second
    call changes nothing. *)
Theorem ensure_headers_sets_header (g : list (list string)) :
  firstn 11 (row_values_1 (ensure_headers g)) = HEADERS
  /\ skipn 1 (ensure_headers g) = skipn 1 g
  /\ skipn 11 (row_values_1 (ensure_headers g)) = skipn 11 (row_values_1 g)
  /\ (firstn 11 (row_values_1 g) = HEADERS -> ensure_headers g = g)
  /\ ensure_headers (ensure_headers g) = ensure_headers g.
Proof.
  split; [apply ensure_headers_header|].
  split; [apply ensure_headers_rows|].
  split; [apply ensure_headers_rows|].
  split; [apply ensure_headers_fix|].
  apply ensure_headers_fix, ensure_headers_header.
Qed.

(** X7. Opening a sheet as [main] does leaves the spreadsheet with a
    sheet of that title whose row 1 begins with the header texts: a new
    sheet holds the header alone, an old one keeps its rows from row 2
    on. The sheets of other titles are untouched, and opening the sheet
    again changes nothing. *)
Theorem open_sheet_gives_header (ss : gmap string (list (list string)))
    (title : string) :
  (exists g,
      open_sheet ss title !! title = Some g
      /\ firstn 11 (row_values_1 g) = HEADERS
      /\ match ss !! title with
         | Some g0 => skipn 1 g = skipn 1 g0
         | None => g = [HEADERS]
         end)
  /\ (forall title', title' <> title ->
        open_sheet ss title !! title' = ss !! title')
  /\ open_sheet (open_sheet ss title) title = open_sheet ss title.
Proof.
  assert (Hself : forall g0 : list (list string),
             ensure_sheet ss title !! title = Some g0 ->
             open_sheet ss title !! title = Some (ensure_headers g0)).
  { intros g0 H. unfold open_sheet. by rewrite lookup_alter_eq, H. }
  assert (Hcur : exists g0,
             ensure_sheet ss title !! title = Some g0
             /\ match ss !! title with
                | Some g1 => g0 = g1
                | None => g0 = [HEADERS]
                end).
  { unfold ensure_sheet. destruct (ss !! title) as [g1|] eqn:E.
    - by exists g1.
    - exists [HEADERS]. split; [apply lookup_insert_eq|done]. }
  destruct Hcur as (g0 & Hg0 & Hfrom).
  split; [|split].
  - exists (ensure_headers g0). split; [by apply Hself|].
    split; [apply ensure_headers_header|].
    destruct (ss !! title) as [g1|]; subst g0.
    + apply ensure_headers_rows.
    + reflexivity.
  - intros title' Hne. unfold open_sheet.
    rewrite lookup_alter_ne by done. unfold ensure_sheet.
    destruct (ss !! title); [done|]. by rewrite lookup_insert_ne.
  - apply map_eq. intros t.
    assert (Hkeep : ensure_sheet (open_sheet ss title) title
                    = open_sheet ss title).
    { unfold ensure_sheet at 1. by rewrite (Hself g0 Hg0). }
    unfold open_sheet at 1. rewrite Hkeep.
    destruct (decide (t = title)) as [->|Hne].
    + rewrite lookup_alter_eq, (Hself g0 Hg0). simpl. f_equal.
      apply ensure_headers_fix, ensure_headers_header.
    + by rewrite lookup_alter_ne.
Qed.

End SheetsFacts.

(** A sheet with a stale header and one row of data. *)
Lemma ensure_headers_sets_header_witness :
  Sheets.ensure_headers
    [Sheets.HEADERS ++ ["note"]; ["1/1/2024 0:00:00"; "10.95"]]
  = [Sheets.HEADERS ++ ["note"]; ["1/1/2024 0:00:00"; "10.95"]].
Proof.
  apply (proj1 (proj2 (proj2 (proj2
           (ensure_headers_sets_header
              [Sheets.HEADERS ++ ["note"];
               ["1/1/2024 0:00:00"; "10.95"]]))))).
  reflexivity.
Defined.

(** ** The executor, for any operation *)
Section ExecutorBound.
Import Executor.
Context {W A : Type} (fn : W -> outcome A * W).

Lemma gs_retry_loop_ends (budget : nat) :
  forall (delay : float) (w : W) (log : list float),
  exists k : nat,
    (k <= budget)%nat
    /\ (forall i, (i < k)%nat -> rate_limited (answer fn i w) = true)
    /\ ((k < budget)%nat -> rate_limited (answer fn k w) = false)
    /\ gs_retry_loop fn budget delay w log
       = Run (answer fn k w) (after_calls fn (S k) w) (log ++ backoff k delay).
Proof.
  induction budget as [|b IH]; intros delay w log.
  - exists 0%nat. split; [lia|]. split; [intros; lia|]. split; [lia|].
    simpl. unfold answer. simpl. destruct (fn w). simpl. by rewrite app_nil_r.
  - destruct (rate_limited (answer fn 0 w)) eqn:E0.
    + destruct (IH (delay * 2)%float (snd (fn w)) (log ++ [delay]))
        as (k & Hk & Hpre & Hend & Hrun).
      exists (S k). split; [lia|]. split; [|split].
      * intros [|i] Hi; [exact E0|]. apply Hpre. lia.
      * intros Hlt. apply Hend. lia.
      * simpl. unfold answer in E0. simpl in E0.
        destruct (fn w) as [r w'] eqn:Efn. simpl in *.
        destruct r as [a|e]; [discriminate|]. simpl in E0. rewrite E0.
        rewrite Hrun, <- app_assoc. unfold answer. simpl. by rewrite Efn.
    + exists 0%nat. split; [lia|]. split; [intros; lia|]. split; [done|].
      simpl. unfold answer in *. simpl in *.
      destruct (fn w) as [r w'] eqn:Efn. simpl in *. rewrite app_nil_r.
      destruct r as [a|e]; [done|]. simpl in E0. by rewrite E0.
Qed.

(** X8. Whatever the wrapped operation does, [gs_retry] ends after at
    most seven calls of it: some number [k <= 6] of rate-limited
    answers, each followed by one sleep, the sleeps being the first [k]
    of 1, 2, 4, 8, 16, 32 (63 in all at worst), and then the answer of
    call [k], which is the result. *)
Theorem gs_retry_at_most_seven_calls (w : W) :
  exists k : nat,
    (k <= 6)%nat
    /\ (forall i, (i < k)%nat -> rate_limited (answer fn i w) = true)
    /\ ((k < 6)%nat -> rate_limited (answer fn k w) = false)
    /\ gs_retry fn w
       = Run (answer fn k w) (after_calls fn (S k) w)
             (firstn k [1; 2; 4; 8; 16; 32]%float).
Proof.
  destruct (gs_retry_loop_ends 6 1%float w []) as (k & Hk & Hpre & Hend & Hrun).
  exists k. split; [exact Hk|]. split; [exact Hpre|]. split; [exact Hend|].
  unfold gs_retry. rewrite Hrun. simpl. f_equal.
  do 7 (destruct k as [|k]; [reflexivity|]). lia.
Qed.

End ExecutorBound.

(** ** The caches of a run *)
Section CacheFacts.
Import Calendar Ledger.
Variable float_repr : float -> string.

Lemma get_last_funding_dt_cached (ws : worksheet) (st : state) :
  _LAST_FUNDING_DT_CACHE (get_last_funding_dt ws st).2 !! title ws
  = Some (get_last_funding_dt ws st).1.
Proof.
  unfold get_last_funding_dt.
  destruct (_LAST_FUNDING_DT_CACHE st !! title ws) as [d|] eqn:E; simpl.
  - exact E.
  - apply lookup_insert_eq.
Qed.

Lemma append_keeps_watermarks (ws : worksheet) (rows : list (list Py.value))
    (st : state) :
  _LAST_FUNDING_DT_CACHE (append_new_unique_rows float_repr ws rows st)
  = _LAST_FUNDING_DT_CACHE st.
Proof.
  rewrite append_cases.
  assert (H : _LAST_FUNDING_DT_CACHE (get_existing_dates_set ws st).2
              = _LAST_FUNDING_DT_CACHE st).
  { unfold get_existing_dates_set.
    by destruct (_EXISTING_DATES_CACHE st !! title ws). }
  destruct rows as [|r0 rows]; [done|].
  by destruct (to_add float_repr ws (r0 :: rows) st).
Qed.

(** X9. Each cache is filled by the first look-up of a title and never
    read again: after it, a look-up through any worksheet of that
    title, whatever the sheet holds by then, returns the first answer
    and leaves the state alone. In particular the watermark of a sheet
    is the same after rows have been appended to it in the run. *)
Theorem caches_read_each_sheet_once (ws ws' : worksheet) (st : state) :
  title ws' = title ws ->
  (let '(s, st1) := get_existing_dates_set ws st in
   get_existing_dates_set ws' st1 = (s, st1))
  /\ (let '(d, st1) := get_last_funding_dt ws st in
      get_last_funding_dt ws' st1 = (d, st1)
      /\ forall rows : list (list Py.value),
           (get_last_funding_dt ws'
              (append_new_unique_rows float_repr ws rows st1)).1 = d).
Proof.
  intros Ht. split.
  - pose proof (get_existing_dates_set_cached ws st) as H.
    destruct (get_existing_dates_set ws st) as [s st1]. simpl in H.
    unfold get_existing_dates_set. by rewrite Ht, H.
  - pose proof (get_last_funding_dt_cached ws st) as H.
    destruct (get_last_funding_dt ws st) as [d st1]. simpl in H.
    split.
    + unfold get_last_funding_dt. by rewrite Ht, H.
    + intros rows. unfold get_last_funding_dt.
      by rewrite append_keeps_watermarks, Ht, H.
Qed.

(** X10. A call of [append_new_unique_rows] touches the keys of its own
    sheet only and never drops one: the watermarks and the key sets of
    other titles are as before, a key set cached for the title is
    contained in the one cached afterwards, which holds the key of
    every row written, and at most one batch, for that title, is added
    to the batches handed to the store. *)
Theorem append_touches_one_sheet (ws : worksheet)
    (rows : list (list Py.value)) (st : state) :
  let st' := append_new_unique_rows float_repr ws rows st in
  _LAST_FUNDING_DT_CACHE st' = _LAST_FUNDING_DT_CACHE st
  /\ (forall t, t <> title ws ->
        _EXISTING_DATES_CACHE st' !! t = _EXISTING_DATES_CACHE st !! t)
  /\ (forall s, _EXISTING_DATES_CACHE st !! title ws = Some s ->
        exists s', _EXISTING_DATES_CACHE st' !! title ws = Some s' /\ s ⊆ s')
  /\ (rows <> [] ->
      exists s', _EXISTING_DATES_CACHE st' !! title ws = Some s'
                 /\ forall r, In r (to_add float_repr ws rows st) ->
                      key_of float_repr r ∈ s')
  /\ (exists batches,
        appended st' = appended st ++ batches
        /\ (length batches <= 1)%nat
        /\ forall b, In b batches -> b.1 = title ws).
Proof.
  intros st'.
  assert (Hother : forall t, t <> title ws ->
            _EXISTING_DATES_CACHE (get_existing_dates_set ws st).2 !! t
            = _EXISTING_DATES_CACHE st !! t).
  { intros t Ht. unfold get_existing_dates_set.
    destruct (_EXISTING_DATES_CACHE st !! title ws); [done|].
    simpl. by rewrite lookup_insert_ne. }
  split; [apply append_keeps_watermarks|]. split; [|split; [|split]].
  - intros t Ht. subst st'. rewrite append_cases.
    destruct rows as [|r0 rows]; [done|].
    destruct (to_add float_repr ws (r0 :: rows) st); [by apply Hother|].
    simpl. rewrite lookup_insert_ne by done. by apply Hother.
  - intros s Hs. subst st'.
    destruct rows as [|r0 rows]; [exists s; by split|].
    rewrite append_cache by done.
    rewrite (get_existing_dates_set_hit _ _ _ Hs). simpl.
    eexists. split; [reflexivity|]. apply union_subseteq_r.
  - intros Hrows. subst st'. rewrite append_cache by done.
    eexists. split; [reflexivity|]. intros r Hr.
    apply elem_of_union_l, elem_of_list_to_set, list_elem_of_In.
    by apply (in_map (key_of float_repr)).
  - subst st'. rewrite append_cases.
    destruct rows as [|r0 rows].
    { exists []. rewrite app_nil_r. split; [done|].
      split; [simpl; lia|]. by intros b []. }
    destruct (to_add float_repr ws (r0 :: rows) st) as [|a l].
    + exists []. rewrite app_nil_r, appended_get_existing. split; [done|].
      split; [simpl; lia|]. by intros b [].
    + eexists [_]. simpl. rewrite appended_get_existing.
      split; [reflexivity|]. split; [lia|]. by intros b [<-|[]].
Qed.

End CacheFacts.

(** The same title read twice, the second time with another row. *)
Lemma caches_read_each_sheet_once_witness :
  let ws := Ledger.Worksheet "APT_Binance"
              [["Date"]; ["1/1/2024 0:00:00"; "10.95"]] in
  let ws' := Ledger.Worksheet "APT_Binance"
               [["Date"]; ["1/1/2024 0:00:00"; "10.95"];
                ["1/1/2024 8:00:00"; "11.2"]] in
  let st1 := (Ledger.get_last_funding_dt ws Ledger.empty_state).2 in
  Ledger.get_last_funding_dt ws' st1
  = (Some (Calendar.DateTime 2024 1 1 0 0 0 0), st1).
Proof.
  intros ws ws' st1.
  exact (proj1 (proj2 (caches_read_each_sheet_once (fun _ => EmptyString)
                         ws ws' Ledger.empty_state eq_refl))).
Defined.

(** ** The watermark is the latest funded date *)
Section WatermarkFacts.
Import Calendar Ledger.

Lemma compare_fields_antisym (a : list Z) :
  forall b, compare_fields b a = CompOpp (compare_fields a b).
Proof.
  induction a as [|x a IH]; intros [|y b]; simpl; try done.
  rewrite (Z.compare_antisym x y).
  destruct (x ?= y); simpl; [apply IH|done|done].
Qed.

Lemma compare_fields_eq (a : list Z) :
  forall b, compare_fields a b = Eq -> a = b.
Proof.
  induction a as [|x a IH]; intros [|y b]; simpl; try done.
  destruct (Z.compare_spec x y) as [->| |]; try done.
  intros H. f_equal. by apply IH.
Qed.

Lemma compare_fields_gt_trans (a : list Z) :
  forall b c,
    compare_fields a b = Gt -> compare_fields b c = Gt ->
    compare_fields a c = Gt.
Proof.
  induction a as [|x a IH]; intros [|y b] [|z c]; simpl; try done.
  destruct (Z.compare_spec x y), (Z.compare_spec y z), (Z.compare_spec x z);
    subst; try lia; try done.
  apply IH.
Qed.

Lemma dt_gt_irrefl (d : datetime) : dt_gt d d = false.
Proof.
  unfold dt_gt.
  assert (H : forall l, compare_fields l l = Eq).
  { induction l as [|x l IH]; simpl; [done|]. by rewrite Z.compare_refl. }
  by rewrite H.
Qed.

(** Not later than, chained. *)
Lemma dt_not_gt_trans (a b c : datetime) :
  dt_gt a b = false -> dt_gt b c = false -> dt_gt a c = false.
Proof.
  unfold dt_gt. intros Hab Hbc.
  destruct (compare_fields (fields a) (fields c)) eqn:Eac; try done.
  destruct (compare_fields (fields a) (fields b)) eqn:Eab; try done.
  - apply compare_fields_eq in Eab. rewrite <- Eab, Eac in Hbc. done.
  - assert (Eba : compare_fields (fields b) (fields a) = Gt)
      by (by rewrite compare_fields_antisym, Eab).
    by rewrite (compare_fields_gt_trans _ _ _ Eba Eac) in Hbc.
Qed.

(** One turn of the loop: the date of a funded row, if the row is one,
    is weighed against the latest so far. *)
Lemma last_dt_step_spec (acc : option datetime) (row : list string) :
  last_dt_step acc row
  = match (if Py.blank (nth 1 row EmptyString) then None
           else _parse_dt (nth 0 row EmptyString)) with
    | Some d =>
        match acc with
        | None => Some d
        | Some l => if dt_gt d l then Some d else acc
        end
    | None => acc
    end.
Proof.
  unfold last_dt_step. destruct row as [|a row]; [done|]. simpl nth.
  destruct a as [|c a]; simpl Py.str_empty; simpl negb; simpl andb.
  - change (_parse_dt EmptyString) with (@None datetime).
    by destruct (Py.blank _).
  - by destruct (Py.blank _).
Qed.

Lemma last_dt_fold_spec (vals : list (list string)) :
  forall acc : option datetime,
    match fold_left last_dt_step vals acc with
    | Some m =>
        (acc = Some m
         \/ exists row, In row vals
              /\ Py.blank (nth 1 row EmptyString) = false
              /\ _parse_dt (nth 0 row EmptyString) = Some m)
        /\ (forall l, acc = Some l -> dt_gt l m = false)
        /\ (forall row d, In row vals ->
              Py.blank (nth 1 row EmptyString) = false ->
              _parse_dt (nth 0 row EmptyString) = Some d ->
              dt_gt d m = false)
    | None =>
        acc = None
        /\ forall row d, In row vals ->
             Py.blank (nth 1 row EmptyString) = false ->
             _parse_dt (nth 0 row EmptyString) <> Some d
    end.
Proof.
  induction vals as [|row vals IH]; intros acc; simpl.
  - destruct acc as [m|].
    + split; [by left|]. split; [|by intros ? ? []].
      intros l [= ->]. apply dt_gt_irrefl.
    + split; [done|]. by intros ? ? [].
  - pose proof (last_dt_step_spec acc row) as Hstep.
    set (acc' := last_dt_step acc row) in *. clearbody acc'.
    specialize (IH acc').
    destruct (fold_left last_dt_step vals acc') as [m|]; subst acc'.
    + destruct IH as (Hfrom & Hacc & Hrows).
      destruct (Py.blank (nth 1 row EmptyString)) eqn:Eb.
      { split; [|split].
        - destruct Hfrom as [?|(r & ? & ?)]; [by left|right; exists r; tauto].
        - exact Hacc.
        - intros r d [<-|Hr] Hb Hp; [congruence|by eapply Hrows]. }
      destruct (_parse_dt (nth 0 row EmptyString)) as [d0|] eqn:Ep.
      2:{ split; [|split].
          - destruct Hfrom as [?|(r & ? & ?)]; [by left|right; exists r; tauto].
          - exact Hacc.
          - intros r d [<-|Hr] Hb Hp; [congruence|by eapply Hrows]. }
      assert (Hd0 : dt_gt d0 m = false).
      { destruct acc as [l|]; [|by apply Hacc].
        destruct (dt_gt d0 l) eqn:E; [by apply Hacc|].
        apply (dt_not_gt_trans _ l); [exact E|by apply Hacc]. }
      split; [|split].
      * destruct Hfrom as [Hm|(r & ? & ?)]; [|right; exists r; tauto].
        destruct acc as [l|].
        -- destruct (dt_gt d0 l); [|by left].
           right. exists row. injection Hm as <-. tauto.
        -- right. exists row. injection Hm as <-. tauto.
      * intros l ->. destruct (dt_gt d0 l) eqn:E; [|by apply Hacc].
        apply (dt_not_gt_trans _ d0); [|exact Hd0].
        unfold dt_gt in *.
        rewrite compare_fields_antisym.
        by destruct (compare_fields (fields d0) (fields l)).
      * intros r d [<-|Hr] Hb Hp; [|by eapply Hrows].
        rewrite Ep in Hp. by injection Hp as <-.
    + destruct IH as (Hnone & Hrows).
      destruct (Py.blank (nth 1 row EmptyString)) eqn:Eb.
      { split; [done|]. intros r d [<-|Hr] Hb; [congruence|by apply Hrows]. }
      destruct (_parse_dt (nth 0 row EmptyString)) as [d0|] eqn:Ep.
      { destruct acc as [l|]; [by destruct (dt_gt d0 l)|done]. }
      split; [done|]. intros r d [<-|Hr] Hb; [congruence|by apply Hrows].
Qed.

(** X11. The watermark of a sheet is the latest date among its funded
    rows, the rows whose date parses and whose funding cell is not
    blank: it is the date of one of them and none of them is later; it
    is [None] exactly when the sheet has no such row. *)
Theorem watermark_is_latest_funded_date (vals : list (list string)) :
  match last_dt_of_rows vals with
  | Some m =>
      (exists row, In row vals
         /\ Py.blank (nth 1 row EmptyString) = false
         /\ _parse_dt (nth 0 row EmptyString) = Some m)
      /\ (forall row d, In row vals ->
            Py.blank (nth 1 row EmptyString) = false ->
            _parse_dt (nth 0 row EmptyString) = Some d ->
            dt_gt d m = false)
  | None =>
      forall row d, In row vals ->
        Py.blank (nth 1 row EmptyString) = false ->
        _parse_dt (nth 0 row EmptyString) <> Some d
  end.
Proof.
  unfold last_dt_of_rows. pose proof (last_dt_fold_spec vals None) as H.
  destruct (fold_left last_dt_step vals None) as [m|].
  - destruct H as ([?|?] & _ & ?); [done|]. by split.
  - by destruct H.
Qed.

End WatermarkFacts.

(** ** What the matching finds *)
Section ClosestFacts.
Import Calendar Ledger Nearest Reconcile.
Variable mktime : datetime -> Z.
Variable py_float : string -> option float.

Lemma candidates_in_series (S : list sample) (p : nat) (c : sample) :
  (p <= length S)%nat -> In c (candidates S p) -> In c S.
Proof.
  intros Hp Hc. apply candidates_elem in Hc as [[H ->]|[H ->]];
    apply nth_In; lia.
Qed.

(** The choice, in plain distances: a sample of the series, none closer
    to the target, and on equal distance not after the target when the
    other is not. *)
Lemma nearest_closest (S : list sample) (t : Z) (best : sample) :
  ascending (map fst S) ->
  nearest S t = Some best ->
  In best S
  /\ forall s, In s S ->
       Z.abs (best.1 - t) <= Z.abs (s.1 - t)
       /\ (Z.abs (best.1 - t) = Z.abs (s.1 - t) -> s.1 <= t -> best.1 <= t).
Proof.
  intros Hasc Hbest. split.
  - pose proof (bisect_left_le (map fst S) t) as Hp.
    rewrite length_map in Hp.
    apply (candidates_in_series S _ best Hp).
    by apply min_by_spec in Hbest as [Hin _].
  - intros s Hs.
    pose proof (nearest_is_closest S t best Hasc Hbest s Hs) as H.
    apply key_le_spec in H. unfold key in H. simpl in H.
    destruct (Z.leb_spec best.1 t), (Z.leb_spec s.1 t); lia.
Qed.

(** X12. On a series ascending in time, the rate [pick_closest_rate]
    returns is that of a sample of the series to which no other sample
    is closer in time than it; among two samples at the same distance
    it takes the one not after the target. *)
Theorem pick_closest_rate_is_closest (hist : list sample) (ts_ms : Z)
    (v : float) :
  ascending (map fst hist) ->
  pick_closest_rate hist ts_ms = Some v ->
  exists best,
    In best hist /\ best.2 = v
    /\ forall s, In s hist ->
         Z.abs (best.1 - ts_ms) <= Z.abs (s.1 - ts_ms)
         /\ (Z.abs (best.1 - ts_ms) = Z.abs (s.1 - ts_ms) ->
             s.1 <= ts_ms -> best.1 <= ts_ms).
Proof.
  intros Hasc Hv. unfold pick_closest_rate in Hv.
  destruct hist as [|h hist]; [done|].
  destruct (nearest (h :: hist) ts_ms) as [best|] eqn:E; [|done].
  injection Hv as <-. exists best.
  destruct (nearest_closest _ _ _ Hasc E) as [Hin Hmin]. by split.
Qed.

(** X13. Every update the alignment pass decides on carries the rate of a
    snapshot row read in the same pass that lies within the gap of the
    target row and to which no other snapshot row read is closer in
    time. *)
Theorem alignment_writes_closest_snapshot (gap : Z)
    (vals : list (list string)) (row : nat) (v : float) :
  In (row, v) (align_updates mktime py_float gap vals) ->
  exists snaps targets t best,
    classify mktime py_float 2 vals ([], []) = (snaps, targets)
    /\ In (t, row) targets /\ In best snaps /\ best.2 = v
    /\ Z.abs (best.1 - t) <= gap
    /\ forall s, In s snaps -> Z.abs (best.1 - t) <= Z.abs (s.1 - t).
Proof.
  unfold align_updates.
  destruct (classify mktime py_float 2 vals ([], [])) as [snaps targets].
  destruct snaps as [|s0 snaps]; [done|].
  destruct targets as [|tg targets]; [done|].
  intros Hin.
  apply match_targets_elem in Hin as (t & best & Ht & Hbest & Hv & Hgap).
  destruct (nearest_closest _ _ _ (sort_by_time_ascending (s0 :: snaps)) Hbest)
    as [Hmem Hmin].
  exists (s0 :: snaps), (tg :: targets), t, best.
  split; [done|]. split; [done|]. split.
  { eapply Permutation_in; [apply sort_by_time_perm|exact Hmem]. }
  split; [done|]. split; [done|].
  intros s Hs. apply Hmin.
  eapply Permutation_in; [symmetry; apply sort_by_time_perm|exact Hs].
Qed.

Lemma classify_row_rows (i : nat) (row : list string)
    (acc : list sample * list (Z * nat)) :
  (classify_row mktime py_float i row acc).2 = acc.2
  \/ exists t, (classify_row mktime py_float i row acc).2 = acc.2 ++ [(t, i)].
Proof.
  unfold classify_row.
  destruct (Py.str_empty _); [by left|].
  destruct (_to_ms mktime _) as [t|]; [|by left].
  destruct (_ && _); [destruct (py_float _); by left|].
  destruct (_ && _); [right; by exists t|by left].
Qed.

Lemma classify_rows_distinct (vals : list (list string)) :
  forall (i : nat) (acc : list sample * list (Z * nat)),
    NoDup (map snd acc.2) ->
    (forall tj, In tj acc.2 -> (tj.2 < i)%nat) ->
    NoDup (map snd (classify mktime py_float i vals acc).2).
Proof.
  induction vals as [|row vals IH]; intros i acc Hnd Hlt; simpl; [done|].
  apply IH.
  - destruct (classify_row_rows i row acc) as [->|[t ->]]; [done|].
    rewrite map_app. simpl. apply NoDup_app. split; [done|]. split.
    + intros j Hj [->|[]]%list_elem_of_In.
      apply list_elem_of_In, in_map_iff in Hj as (tj & <- & Htj).
      specialize (Hlt tj Htj). lia.
    + apply NoDup_singleton.
  - intros tj Htj.
    destruct (classify_row_rows i row acc) as [E|[t E]]; rewrite E in Htj.
    + specialize (Hlt tj Htj). lia.
    + apply in_app_iff in Htj as [Htj|[<-|[]]]; [|simpl; lia].
      specialize (Hlt tj Htj). lia.
Qed.

Lemma match_targets_rows (gap : Z) (snaps : list sample)
    (targets : list (Z * nat)) :
  sublist (map fst (match_targets gap snaps targets)) (map snd targets).
Proof.
  induction targets as [|tg targets IH]; simpl; [constructor|].
  rewrite map_app. unfold match_target at 1.
  destruct (nearest snaps tg.1) as [best|]; [|by constructor].
  destruct (_ <=? _); simpl; by constructor.
Qed.

(** X14. The alignment pass decides on at most one update for a row: the
    rows of its updates are pairwise distinct, so no cell is written
    twice in a pass. *)
Theorem alignment_one_update_per_row (gap : Z) (vals : list (list string)) :
  NoDup (map fst (align_updates mktime py_float gap vals)).
Proof.
  unfold align_updates.
  pose proof (classify_rows_distinct vals 2 ([], [])) as H.
  destruct (classify mktime py_float 2 vals ([], [])) as [snaps targets].
  simpl in H.
  destruct snaps as [|s0 snaps]; [constructor|].
  destruct targets as [|tg targets]; [constructor|].
  apply (sublist_NoDup _ (map snd (tg :: targets)));
    [|apply match_targets_rows].
  apply H; [constructor|by intros ? []].
Qed.

End ClosestFacts.

(** The spec's series and the target 140. *)
Lemma pick_closest_rate_is_closest_witness :
  exists best,
    In best [(100, 0.1%float); (200, 0.2%float)] /\ best.2 = 0.1%float
    /\ forall s, In s [(100, 0.1%float); (200, 0.2%float)] ->
         Z.abs (best.1 - 140) <= Z.abs (s.1 - 140)
         /\ (Z.abs (best.1 - 140) = Z.abs (s.1 - 140) ->
             s.1 <= 140 -> best.1 <= 140).
Proof.
  apply (pick_closest_rate_is_closest
           [(100, 0.1%float); (200, 0.2%float)] 140 0.1%float).
  - simpl. repeat constructor. lia.
  - reflexivity.
Defined.

(** The sample pass: the update of row 2 carries the only snapshot. *)
Lemma alignment_writes_closest_snapshot_witness :
  let py_float := fun s : string =>
                    if String.eqb s "5.5" then Some 5.5%float else None in
  let vals := [["1/1/2024 0:00:00"; "10.95"];
               ["1/1/2024 1:00:00"; ""; ""; "5.5"]] in
  exists snaps targets t best,
    Reconcile.classify Calendar.utc_mktime py_float 2 vals ([], [])
    = (snaps, targets)
    /\ In (t, 2%nat) targets /\ In best snaps /\ best.2 = 5.5%float
    /\ Z.abs (best.1 - t) <= Reconcile.gap_ms
    /\ forall s, In s snaps -> Z.abs (best.1 - t) <= Z.abs (s.1 - t).
Proof.
  intros py_float vals.
  apply (alignment_writes_closest_snapshot Calendar.utc_mktime py_float
           Reconcile.gap_ms vals 2%nat 5.5%float).
  vm_compute. by left.
Defined.

(** ** What is fetched from the venues *)
Section FeedsFacts.
Import Nearest Reconcile Feeds.

Lemma read_rows_elem (rows : list (option sample)) :
  forall (out : list sample) (p : sample),
    In p (read_rows rows out) <-> In p out \/ In (Some p) rows.
Proof.
  induction rows as [|[q|] rows IH]; intros out p; simpl.
  - tauto.
  - rewrite IH, in_app_iff. simpl. split.
    + intros [[H|[->|[]]]|H]; auto.
    + intros [H|[[= ->]|H]]; auto.
  - rewrite IH. split; [intros [H|H]; auto|intros [H|[H|H]]; auto; done].
Qed.

Variable fetch : nat -> option (list (option sample)).

Lemma read_pages_elem (left : nat) :
  forall (page : nat) (out : list sample) (p : sample),
    In p (read_pages fetch left page 100 out)
    <-> In p out
        \/ exists n rows,
             (page <= n < page + left)%nat
             /\ fetch n = Some rows /\ In (Some p) rows
             /\ forall m, (page <= m < n)%nat -> full_page fetch m.
Proof.
  induction left as [|left IH]; intros page out p.
  - simpl. split; [auto|]. intros [H|(n & rows & Hn & _)]; [done|lia].
  - cbn [read_pages].
    assert (Hlater : forall n rows',
              (page <= n < page + S left)%nat ->
              fetch n = Some rows' ->
              (forall m, (page <= m < n)%nat -> full_page fetch m) ->
              n = page \/ ((S page <= n < S page + left)%nat
                          /\ full_page fetch page
                          /\ forall m, (S page <= m < n)%nat ->
                                       full_page fetch m)).
    { intros n rows' Hn _ Hfull.
      destruct (decide (n = page)) as [->|Hne]; [by left|right].
      split; [lia|]. split; [apply Hfull; lia|].
      intros m Hm. apply Hfull. lia. }
    destruct (fetch page) as [rows|] eqn:E.
    2:{ split; [auto|]. intros [H|(n & rows' & Hn & Hf & Hp & Hfull)]; [done|].
        destruct (Hlater n rows' Hn Hf Hfull) as [->|(_ & (r & Hr & _) & _)];
          congruence. }
    destruct rows as [|r rows].
    { split; [auto|]. intros [H|(n & rows' & Hn & Hf & Hp & Hfull)]; [done|].
      destruct (Hlater n rows' Hn Hf Hfull) as [->|(_ & (r & Hr & Hlen) & _)].
      - rewrite E in Hf. injection Hf as <-. destruct Hp.
      - rewrite E in Hr. injection Hr as <-. simpl in Hlen. lia. }
    set (rs := r :: rows) in *.
    destruct (Nat.ltb_spec (length rs) 100) as [Hshort|Hfull].
    + rewrite read_rows_elem. split.
      * intros [H|H]; [by left|right]. exists page, rs.
        split; [lia|]. split; [done|]. split; [done|]. intros m Hm. lia.
      * intros [H|(n & rows' & Hn & Hf & Hp & Hfl)]; [by left|].
        destruct (Hlater n rows' Hn Hf Hfl) as [->|(_ & (r' & Hr & Hlen) & _)].
        -- rewrite E in Hf. injection Hf as <-. by right.
        -- rewrite E in Hr. injection Hr as <-. lia.
    + rewrite IH, read_rows_elem. split.
      * intros [[H|H]|(n & rows' & Hn & Hf & Hp & Hfl)].
        -- by left.
        -- right. exists page, rs.
           split; [lia|]. split; [done|]. split; [done|]. intros m Hm. lia.
        -- right. exists n, rows'.
           split; [lia|]. split; [done|]. split; [done|]. intros m Hm.
           destruct (decide (m = page)) as [->|Hne]; [by exists rs|].
           apply Hfl. lia.
      * intros [H|(n & rows' & Hn & Hf & Hp & Hfl)]; [by left; left|].
        destruct (Hlater n rows' Hn Hf Hfl) as [->|(Hn' & _ & Hfl')].
        -- rewrite E in Hf. injection Hf as <-. by left; right.
        -- right. by exists n, rows'.
Qed.

(** X15. [bn_interest_history] returns its samples in ascending order of
    time. A sample is returned exactly when it is a readable row of one
    of the pages 1 to 10 and every page before that one came with at
    least 100 rows: the first page that is missing, empty or short ends
    the reading, and rows that cannot be read are passed over. *)
Theorem interest_history_reads_full_pages :
  ascending (map fst (bn_interest_history fetch))
  /\ forall p : sample,
       In p (bn_interest_history fetch)
       <-> exists n rows,
             (1 <= n <= 10)%nat
             /\ fetch n = Some rows /\ In (Some p) rows
             /\ forall m, (1 <= m < n)%nat -> full_page fetch m.
Proof.
  split; [apply sort_by_time_ascending|].
  intros p. unfold bn_interest_history. split.
  - intros H. eapply Permutation_in in H; [|apply sort_by_time_perm].
    apply read_pages_elem in H as [[]|(n & rows & Hn & H)].
    exists n, rows. split; [lia|done].
  - intros (n & rows & Hn & H).
    eapply Permutation_in; [symmetry; apply sort_by_time_perm|].
    apply read_pages_elem. right. exists n, rows. split; [lia|done].
Qed.

End FeedsFacts.

(** ** Which contract is followed *)
Section ContractFacts.
Import Feeds.

(** X16. [by_pick_contract_with_rows] returns the history of the first
    candidate that has one, with that candidate: the history is not
    empty and every candidate tried before it had none. It returns no
    rows and no contract exactly when no candidate has a history. *)
Theorem pick_contract_first_with_history {R : Type}
    (history : string * string -> list R)
    (candidates : list (string * string)) :
  match by_pick_contract_with_rows history candidates with
  | (rows, Some c) =>
      rows = history c /\ rows <> []
      /\ exists before rest,
           candidates = before ++ c :: rest
           /\ Forall (fun c' => history c' = []) before
  | (rows, None) =>
      rows = [] /\ Forall (fun c' => history c' = []) candidates
  end.
Proof.
  induction candidates as [|c cs IH]; simpl; [by split|].
  destruct (history c) as [|r rows] eqn:E.
  - destruct (by_pick_contract_with_rows history cs) as [rows' [c'|]].
    + destruct IH as (H1 & H2 & before & rest & -> & Hb).
      split; [done|]. split; [done|].
      exists (c :: before), rest. split; [done|]. by constructor.
    + destruct IH as [-> H]. split; [done|]. by constructor.
  - split; [done|]. split; [done|]. exists [], cs. split; [done|constructor].
Qed.

Lemma select_elem (t suffix : string) (lst : list item) :
  forall syms s,
    select t suffix lst = Some syms -> In s syms ->
    In (Some s) lst
    /\ String.prefix t s = true /\ Market.endswith s suffix = true.
Proof.
  induction lst as [|[sym|] lst IH]; intros syms s; simpl.
  - intros [= <-] [].
  - destruct (String.prefix t sym && Market.endswith sym suffix) eqn:E.
    + destruct (select t suffix lst) as [l|]; [|done].
      simpl. intros [= <-] [<-|H].
      * apply andb_true_iff in E. by split; [left|].
      * destruct (IH l s eq_refl H) as [? ?]. by split; [right|].
    + intros Hs H. destruct (IH syms s Hs H) as [? ?]. by split; [right|].
  - destruct t; [done|].
    intros Hs H. destruct (IH syms s Hs H) as [? ?]. by split; [right|].
Qed.

Lemma dedup_elem (out : list (string * string)) :
  forall (seen : gset (string * string)) (k : string * string),
    In k (dedup out seen) <-> In k out /\ k ∉ seen.
Proof.
  induction out as [|x out IH]; intros seen k; simpl; [tauto|].
  destruct (bool_decide_reflect (x ∈ seen)) as [Hx|Hx].
  - rewrite IH. split; [tauto|]. intros [[<-|H] Hk]; [done|tauto].
  - simpl. rewrite IH, elem_of_union, elem_of_singleton. split.
    + intros [<-|[H Hk]]; tauto.
    + intros [[<-|H] Hk]; [tauto|].
      destruct (decide (k = x)) as [->|Hne]; tauto.
Qed.

Lemma dedup_NoDup (out : list (string * string)) :
  forall seen : gset (string * string), List.NoDup (dedup out seen).
Proof.
  induction out as [|x out IH]; intros seen; simpl; [constructor|].
  destruct (bool_decide (x ∈ seen)); [apply IH|].
  constructor; [|apply IH].
  rewrite dedup_elem, elem_of_union, elem_of_singleton. tauto.
Qed.

Variable upper : string -> string.
Variable direct linear_catalog inverse_catalog : option (list item).

(** X17. The contracts [by_resolve_contracts] returns are pairwise
    distinct. A linear one is the contract the venue named for the
    token's USDT symbol, or a symbol of the linear catalog that starts
    with the upper-cased token and ends in USDT or USDC; an inverse one
    is a symbol of the inverse catalog that starts with the upper-cased
    token and ends in USD. *)
Theorem resolved_contracts_distinct_and_matching (token : string)
    (out : list (string * string)) :
  by_resolve_contracts upper direct linear_catalog inverse_catalog token
  = Some out ->
  List.NoDup out
  /\ forall cat sym, In (cat, sym) out ->
       (cat = "linear"%string
        /\ (direct_hit direct sym
            \/ exists lst, linear_catalog = Some lst /\ In (Some sym) lst
                 /\ String.prefix (upper token) sym = true
                 /\ (Market.endswith sym "USDT" = true
                     \/ Market.endswith sym "USDC" = true)))
       \/ (cat = "inverse"%string
           /\ exists lst, inverse_catalog = Some lst /\ In (Some sym) lst
                /\ String.prefix (upper token) sym = true
                /\ Market.endswith sym "USD" = true).
Proof.
  unfold by_resolve_contracts. unfold BYBIT_CONTRACT_MAP.
  rewrite lookup_empty.
  set (out1 := match direct with
               | Some (Some sym :: _) =>
                   if Py.str_empty sym then [] else [("linear"%string, sym)]
               | _ => []
               end).
  assert (H1 : forall cat sym, In (cat, sym) out1 ->
                 cat = "linear"%string /\ direct_hit direct sym).
  { subst out1. intros cat sym. unfold direct_hit.
    destruct direct as [[|[s|] rest]|]; simpl; try (by intros []).
    destruct (Py.str_empty s) eqn:E; simpl; [by intros []|].
    intros [[= <- <-]|[]]. split; [done|]. by exists rest. }
  clearbody out1.
  set (out2 := match out1 with
               | [] => _
               | _ :: _ => Some out1
               end).
  assert (H2 : forall o2, out2 = Some o2 ->
            forall cat sym, In (cat, sym) o2 ->
              cat = "linear"%string
              /\ (direct_hit direct sym
                  \/ exists lst, linear_catalog = Some lst /\ In (Some sym) lst
                       /\ String.prefix (upper token) sym = true
                       /\ (Market.endswith sym "USDT" = true
                           \/ Market.endswith sym "USDC" = true))).
  { subst out2. intros o2 Ho2 cat sym Hin.
    destruct out1 as [|x out1].
    - destruct linear_catalog as [lst|]; [|injection Ho2 as <-; done].
      destruct (select (upper token) "USDT" lst) as [usdt|] eqn:Et; [|done].
      destruct (select (upper token) "USDC" lst) as [usdc|] eqn:Ec; [|done].
      simpl in Ho2. injection Ho2 as <-.
      apply in_app_iff in Hin as [Hin|Hin];
        apply in_map_iff in Hin as (s & [= <- <-] & Hs).
      + destruct (select_elem _ _ _ _ _ Et Hs) as (? & ? & ?).
        split; [done|]. right. exists lst. auto.
      + destruct (select_elem _ _ _ _ _ Ec Hs) as (? & ? & ?).
        split; [done|]. right. exists lst. auto.
    - injection Ho2 as <-. destruct (H1 cat sym Hin). auto. }
  clearbody out2. destruct out2 as [o2|]; [|done]. simpl.
  specialize (H2 o2 eq_refl).
  set (out3 := match inverse_catalog with
               | Some lst => _
               | None => Some o2
               end).
  assert (H3 : forall o3, out3 = Some o3 ->
            forall cat sym, In (cat, sym) o3 ->
              In (cat, sym) o2
              \/ (cat = "inverse"%string
                  /\ exists lst, inverse_catalog = Some lst
                       /\ In (Some sym) lst
                       /\ String.prefix (upper token) sym = true
                       /\ Market.endswith sym "USD" = true)).
  { subst out3. intros o3 Ho3 cat sym Hin.
    destruct inverse_catalog as [lst|]; [|injection Ho3 as <-; by left].
    destruct (select (upper token) "USD" lst) as [usd|] eqn:Eu; [|done].
    simpl in Ho3. injection Ho3 as <-.
    apply in_app_iff in Hin as [Hin|Hin]; [by left|right].
    apply in_map_iff in Hin as (s & [= <- <-] & Hs).
    destruct (select_elem _ _ _ _ _ Eu Hs) as (? & ? & ?).
    split; [done|]. by exists lst. }
  clearbody out3. destruct out3 as [o3|]; [|done]. simpl.
  intros [= <-]. split; [apply dedup_NoDup|].
  intros cat sym Hin. apply dedup_elem in Hin as [Hin _].
  destruct (H3 o3 eq_refl cat sym Hin) as [Ho2|Hinv]; [left|by right].
  by apply H2.
Qed.

(** X18. When the venue names a contract for the token's USDT symbol,
    [by_resolve_contracts] does not consult the linear catalog: whatever
    that catalog holds, the answer is the same, and the named contract
    comes first in it. *)
Theorem direct_hit_skips_linear_catalog (token sym : string)
    (rest : list item) (other_catalog : option (list item)) :
  direct = Some (Some sym :: rest) ->
  Py.str_empty sym = false ->
  by_resolve_contracts upper direct linear_catalog inverse_catalog token
  = by_resolve_contracts upper direct other_catalog inverse_catalog token
  /\ forall out,
       by_resolve_contracts upper direct linear_catalog inverse_catalog token
       = Some out ->
       head out = Some ("linear"%string, sym).
Proof.
  intros -> Hsym. unfold by_resolve_contracts, BYBIT_CONTRACT_MAP.
  rewrite lookup_empty, Hsym. split; [done|].
  intros out. simpl.
  destruct inverse_catalog as [lst|]; simpl.
  - destruct (select (upper token) "USD" lst); [|done]. simpl.
    by intros [= <-].
  - by intros [= <-].
Qed.

End ContractFacts.

(** The token ME against a linear catalog that also lists MEME: both are
    returned, the repeated symbol once. *)
Lemma resolved_contracts_distinct_and_matching_witness :
  let upper := fun s : string => s in
  let linear := Some [Some "MEUSDT"; None; Some "MEMEUSDT"; Some "BTCUSDT";
                      Some "MEUSDC"; Some "MEUSDT"]%string in
  let inverse := Some [Some "MEUSD"; Some "BTCUSD"]%string in
  let out := [("linear", "MEUSDT"); ("linear", "MEMEUSDT");
              ("linear", "MEUSDC"); ("inverse", "MEUSD")]%string in
  List.NoDup out
  /\ forall cat sym, In (cat, sym) out ->
       (cat = "linear"%string
        /\ (Feeds.direct_hit None sym
            \/ exists lst, linear = Some lst /\ In (Some sym) lst
                 /\ String.prefix (upper "ME"%string) sym = true
                 /\ (Market.endswith sym "USDT" = true
                     \/ Market.endswith sym "USDC" = true)))
       \/ (cat = "inverse"%string
           /\ exists lst, inverse = Some lst /\ In (Some sym) lst
                /\ String.prefix (upper "ME"%string) sym = true
                /\ Market.endswith sym "USD" = true).
Proof.
  intros upper linear inverse out.
  apply (resolved_contracts_distinct_and_matching upper None linear inverse
           "ME" out).
  vm_compute. reflexivity.
Defined.

(** The venue names MEUSDT for ME: the linear catalog is not looked at. *)
Lemma direct_hit_skips_linear_catalog_witness :
  let upper := fun s : string => s in
  let direct := Some [Some "MEUSDT"%string] in
  let linear := Some [Some "MEUSDC"%string] in
  Feeds.by_resolve_contracts upper direct linear None "ME"
  = Feeds.by_resolve_contracts upper direct None None "ME"
  /\ forall out,
       Feeds.by_resolve_contracts upper direct linear None "ME" = Some out ->
       head out = Some ("linear"%string, "MEUSDT"%string).
Proof.
  intros upper direct linear.
  apply (direct_hit_skips_linear_catalog upper direct linear None
           "ME" "MEUSDT" [] None); reflexivity.
Defined.

(** ** The rows that are built *)
Section RowsFacts.
Import Calendar Ledger Nearest Rows.
Variable localtime : Z -> option tm.
Variable float_repr : float -> string.
Variable _bn_kline : string -> Z -> option float.
Variable bybit_kline : string -> Z -> option float.

Lemma insert_record_perm (x : record) (l : list record) :
  Permutation (insert_record x l) (x :: l).
Proof.
  induction l as [|y l IH]; simpl; [done|].
  destruct (stamp x <=? stamp y); [done|].
  rewrite IH. apply perm_swap.
Qed.

Lemma insert_record_Forall (P : Z -> Prop) (x : record) (l : list record) :
  Forall P (map stamp (insert_record x l))
  <-> P (stamp x) /\ Forall P (map stamp l).
Proof.
  induction l as [|y l IH]; simpl.
  - rewrite Forall_cons. tauto.
  - destruct (stamp x <=? stamp y); simpl; rewrite !Forall_cons; [tauto|].
    rewrite IH. tauto.
Qed.

Lemma insert_record_ascending (x : record) (l : list record) :
  ascending (map stamp l) -> ascending (map stamp (insert_record x l)).
Proof.
  induction l as [|y l IH]; intros Hl; simpl in *.
  - split; [constructor|done].
  - destruct Hl as [Hy Hl].
    destruct (Z.leb_spec (stamp x) (stamp y)) as [Hle|Hgt]; simpl.
    + split; [|by split]. constructor; [done|].
      eapply Forall_impl; [exact Hy|]. simpl. intros z Hz. lia.
    + split; [|by apply IH]. apply insert_record_Forall.
      split; [lia|done].
Qed.

Lemma sort_records_spec (l events : list record) :
  sort_records l = Some events ->
  Permutation events l
  /\ ascending (map stamp events)
  /\ Forall (fun r => has_time r = true) events.
Proof.
  unfold sort_records. destruct (forallb has_time l) eqn:E; [|done].
  intros [= <-].
  assert (Hp : Permutation (foldr insert_record [] l) l).
  { clear E. induction l as [|x l IH]; simpl; [done|].
    rewrite insert_record_perm. by constructor. }
  split; [done|]. split.
  - clear. induction l as [|x l IH]; simpl; [done|].
    by apply insert_record_ascending.
  - apply List.Forall_forall. intros r Hr.
    rewrite forallb_forall in E. apply E.
    eapply Permutation_in; [exact Hp|exact Hr].
Qed.

Lemma ascending_drop (l1 l2 : list Z) (x : Z) :
  ascending (l1 ++ x :: l2) -> ascending (l1 ++ l2).
Proof.
  induction l1 as [|y l1 IH]; simpl; [tauto|].
  intros [Hy Hl]. split; [|by apply IH].
  apply Forall_app in Hy as [H1 H2]. apply Forall_app. split; [done|].
  by apply Forall_cons in H2 as [_ H2].
Qed.

Lemma after_watermark_spec (a : datetime) (t_dt : option datetime) :
  after_watermark (Some a) t_dt = true
  <-> exists dt, t_dt = Some dt /\ dt_gt dt a = true.
Proof.
  simpl. destruct t_dt as [d|].
  - split; [by exists d|]. by intros (dt & [= <-] & H).
  - split; [done|]. by intros (dt & [=] & _).
Qed.

Section Binance.
Variable token : string.
Variable after_dt : option datetime.
Variable hist : list sample.
Variables init_ltv liq_ltv cap_usdt per_coin_max_usd : float.

Local Abbreviation loop :=
  (binance_loop localtime _bn_kline token after_dt hist
     init_ltv liq_ltv cap_usdt per_coin_max_usd).
Local Abbreviation row_of :=
  (binance_row token hist init_ltv liq_ltv cap_usdt per_coin_max_usd).

Lemma binance_loop_rows (P : list Py.value -> Prop) (events : list record) :
  (forall t rate ts spot,
     In (Some t, Some rate) events ->
     fmt_dt localtime t = Some ts ->
     after_watermark after_dt (_parse_dt ts) = true ->
     P (row_of ts t rate spot)) ->
  forall rows0 st rows st',
    Forall P rows0 -> loop events rows0 st = Some (rows, st') ->
    Forall P rows.
Proof.
  induction events as [|[[t|] rate] events IH]; intros HP rows0 st rows st' H0;
    cbn [binance_loop]; [by intros [= <- <-]| |done].
  destruct (fmt_dt localtime t) as [ts|] eqn:Ets; [|done]. simpl.
  destruct (after_watermark after_dt (_parse_dt ts)) eqn:Ew.
  - destruct rate as [rate|]; [|done]. simpl.
    destruct (Market.spot_binance _bn_kline token t st) as [spot st1].
    apply IH.
    + intros. eapply HP; eauto. by right.
    + apply Forall_app. split; [done|]. constructor; [|constructor].
      apply HP; auto. by left.
  - apply IH; [|done]. intros. eapply HP; eauto. by right.
Qed.

Lemma binance_loop_times (events : list record) :
  forall rows0 times0 st rows st',
    Forall2 (fun row t => fmt_dt localtime t = Some (key_of float_repr row))
            rows0 times0 ->
    ascending (times0 ++ map stamp events) ->
    loop events rows0 st = Some (rows, st') ->
    exists times,
      Forall2 (fun row t => fmt_dt localtime t = Some (key_of float_repr row))
              rows times
      /\ ascending times
      /\ (forall t, In t times ->
            In t times0 \/ In (Some t) (map fst events))
      /\ (after_dt = None -> times = times0 ++ map stamp events).
Proof.
  induction events as [|[[t|] rate] events IH]; intros rows0 times0 st rows st'
    H0 Hasc; cbn [binance_loop]; [| |done].
  - intros [= <- <-]. exists times0. simpl in *. rewrite app_nil_r in *.
    repeat split; auto.
  - destruct (fmt_dt localtime t) as [ts|] eqn:Ets; [|done]. simpl.
    destruct (after_watermark after_dt (_parse_dt ts)) eqn:Ew.
    + destruct rate as [rate|]; [|done]. simpl.
      destruct (Market.spot_binance _bn_kline token t st) as [spot st1].
      intros Hl.
      apply (IH _ (times0 ++ [t])) in Hl
        as (times & HF & Ha & Hin & Hall).
      * exists times. split; [done|]. split; [done|]. split.
        -- intros u Hu. destruct (Hin u Hu) as [H|H].
           ++ apply in_app_iff in H as [H|[<-|[]]]; [by left|].
              right. by left.
           ++ right. by right.
        -- intros Hn. rewrite (Hall Hn), <- app_assoc. done.
      * apply Forall2_app; [done|]. constructor; [|constructor]. done.
      * rewrite <- app_assoc. exact Hasc.
    + intros Hl. apply (IH _ times0) in Hl as (times & HF & Ha & Hin & Hall).
      * exists times. split; [done|]. split; [done|]. split.
        -- intros u Hu. destruct (Hin u Hu) as [H|H]; [by left|].
           right. by right.
        -- intros Hn. rewrite Hn in Ew. done.
      * done.
      * eapply ascending_drop. exact Hasc.
Qed.

(** X19. Every row [build_binance_rows_since] returns has the eleven
    fields of the header, so that the append writes it as it is. Its
    date is the formatted time of a funding record that was fetched; when
    there is a watermark, that date parses to a moment strictly after
    it. Its funding APR is that of the record's rate, and its interest
    is 100 times the rate of the history sample closest to the
    record. *)
Theorem binance_rows_fit_ledger (fund : list record) (st : Market.state)
    (rows : list (list Py.value)) (st' : Market.state) :
  build_binance_rows_since localtime _bn_kline token after_dt fund hist
    init_ltv liq_ltv cap_usdt per_coin_max_usd st = Some (rows, st') ->
  Forall (fun row =>
    length row = length Sheets.HEADERS
    /\ normalize row = row
    /\ exists t rate,
         In (Some t, Some rate) fund
         /\ fmt_dt localtime t = Some (key_of float_repr row)
         /\ (forall a, after_dt = Some a ->
               exists dt, _parse_dt (key_of float_repr row) = Some dt
                          /\ dt_gt dt a = true)
         /\ nth 1 row Py.VNone = Py.VFloat (funding_apr_percent rate token)
         /\ nth 3 row Py.VNone
            = Py.of_option
                ((fun x => (x * 100)%float) <$> pick_closest_rate hist t))
    rows.
Proof.
  unfold build_binance_rows_since.
  destruct (sort_records fund) as [events|] eqn:Es; [|done]. simpl.
  destruct (sort_records_spec _ _ Es) as (Hperm & _ & _).
  apply binance_loop_rows; [|constructor].
  intros t rate ts spot Hin Hts Hw.
  split; [done|]. split; [done|]. exists t, rate.
  split. { eapply Permutation_in; [exact Hperm|exact Hin]. }
  split; [done|]. split; [|by split].
  intros a ->. by apply after_watermark_spec.
Qed.

(** X20. The rows [build_binance_rows_since] returns come in ascending
    order of the time of their funding records, whatever the order in
    which the records were fetched. On a sheet without watermark there
    is one row for every record fetched. *)
Theorem binance_rows_in_time_order (fund : list record) (st : Market.state)
    (rows : list (list Py.value)) (st' : Market.state) :
  build_binance_rows_since localtime _bn_kline token after_dt fund hist
    init_ltv liq_ltv cap_usdt per_coin_max_usd st = Some (rows, st') ->
  exists times,
    Forall2 (fun row t => fmt_dt localtime t = Some (key_of float_repr row))
            rows times
    /\ ascending times
    /\ (forall t, In t times -> In (Some t) (map fst fund))
    /\ (after_dt = None -> Permutation (map Some times) (map fst fund)).
Proof.
  unfold build_binance_rows_since.
  destruct (sort_records fund) as [events|] eqn:Es; [|done]. simpl.
  destruct (sort_records_spec _ _ Es) as (Hperm & Hasc & Htimes).
  intros Hl.
  apply (binance_loop_times _ _ []) in Hl as (times & HF & Ha & Hin & Hall);
    [|constructor|done].
  exists times. split; [done|]. split; [done|]. split.
  - intros t Ht. destruct (Hin t Ht) as [[]|H].
    eapply Permutation_in; [|exact H]. by apply Permutation_map.
  - intros Hn. rewrite (Hall Hn). simpl.
    rewrite <- (Permutation_map fst Hperm).
    assert (E : map Some (map stamp events) = map fst events).
    { clear -Htimes. induction events as [|[[t|] r] events IH]; simpl.
      - done.
      - apply Forall_cons in Htimes as [_ H]. by rewrite IH.
      - by apply Forall_cons in Htimes as [? _]. }
    by rewrite E.
Qed.

(** X21. [build_binance_rows_since] raises when the time of one funding
    record cannot be read, wherever the record stands and whatever the
    watermark; on a sheet without watermark it also raises when a rate
    cannot be read. *)
Theorem binance_builder_raises_on_unreadable_record (fund : list record)
    (st : Market.state) (r : record) :
  In r fund ->
  r.1 = None \/ (after_dt = None /\ r.2 = None) ->
  build_binance_rows_since localtime _bn_kline token after_dt fund hist
    init_ltv liq_ltv cap_usdt per_coin_max_usd st = None.
Proof.
  intros Hin Hbad. unfold build_binance_rows_since.
  destruct (sort_records fund) as [events|] eqn:Es; [|done]. simpl.
  destruct (sort_records_spec _ _ Es) as (Hperm & _ & Htimes).
  rewrite List.Forall_forall in Htimes.
  destruct Hbad as [Ht|[Hn Hr]].
  { symmetry in Hperm. apply (Permutation_in _ Hperm) in Hin.
    specialize (Htimes r Hin). unfold has_time in Htimes.
    by rewrite Ht in Htimes. }
  symmetry in Hperm. apply (Permutation_in _ Hperm) in Hin.
  clear Es Hperm Htimes. generalize (@nil (list Py.value)) as rows0.
  revert st. induction events as [|[[t|] rate] events IH]; intros st rows0;
    [destruct Hin| |done].
  cbn [binance_loop].
  destruct (fmt_dt localtime t) as [ts|]; [|done]. simpl.
  replace (after_watermark after_dt (_parse_dt ts)) with true
    by (by rewrite Hn).
  destruct Hin as [<-|Hin]; [simpl in Hr; by rewrite Hr|].
  destruct rate as [rate|]; [|done]. simpl.
  destruct (Market.spot_binance _bn_kline token t st) as [spot st1].
  by apply IH.
Qed.

End Binance.

Section Bybit.
Variable token : string.
Variable after_dt : option datetime.
Variable used : option (string * string).
Variables init_ltv liq_ltv cap_usdt : float.
Variable max_borrow_coin : option float.

Local Abbreviation bloop :=
  (bybit_loop localtime bybit_kline token after_dt used
     init_ltv liq_ltv cap_usdt max_borrow_coin).
Local Abbreviation brow :=
  (bybit_row token init_ltv liq_ltv cap_usdt max_borrow_coin).

Lemma bybit_loop_rows (P : list Py.value -> Prop) (events : list record) :
  (forall t rate ts spot,
     In (Some t, Some rate) events ->
     fmt_dt localtime t = Some ts ->
     after_watermark after_dt (_parse_dt ts) = true ->
     P (brow ts rate spot)) ->
  forall rows0 rows,
    Forall P rows0 -> bloop events rows0 = Some rows -> Forall P rows.
Proof.
  induction events as [|[[t|] [rate|]] events IH]; intros HP rows0 rows H0;
    cbn [bybit_loop]; [by intros [= <-]| | | |].
  2-4: apply IH; [|done]; intros; eapply HP; eauto; by right.
  destruct (fmt_dt localtime t) as [ts|] eqn:Ets; [|done]. simpl.
  destruct (after_watermark after_dt (_parse_dt ts)) eqn:Ew.
  - apply IH.
    + intros. eapply HP; eauto. by right.
    + apply Forall_app. split; [done|]. constructor; [|constructor].
      apply (HP t); auto. by left.
  - apply IH; [|done]. intros. eapply HP; eauto. by right.
Qed.

Lemma sorted_or_not_elem (fund : list record) (r : record) :
  In r (default fund (sort_records fund)) -> In r fund.
Proof.
  destruct (sort_records fund) as [events|] eqn:Es; simpl; [|done].
  destruct (sort_records_spec _ _ Es) as (Hperm & _ & _).
  by apply Permutation_in.
Qed.

(** X22. Every row [build_bybit_rows_since] returns has the eleven fields
    of the header, so that the append writes it as it is, and its
    interest field is empty: the interest of a Bybit funding row is left
    to the alignment. Its date is the formatted time of a fetched record
    whose time and rate are both readable; when there is a watermark,
    that date parses to a moment strictly after it. *)
Theorem bybit_rows_fit_ledger (fund : list record)
    (rows : list (list Py.value)) :
  build_bybit_rows_since localtime bybit_kline token after_dt fund used
    init_ltv liq_ltv cap_usdt max_borrow_coin = Some rows ->
  Forall (fun row =>
    length row = length Sheets.HEADERS
    /\ normalize row = row
    /\ nth 3 row (Py.VStr "") = Py.VNone
    /\ exists t rate,
         In (Some t, Some rate) fund
         /\ fmt_dt localtime t = Some (key_of float_repr row)
         /\ (forall a, after_dt = Some a ->
               exists dt, _parse_dt (key_of float_repr row) = Some dt
                          /\ dt_gt dt a = true)
         /\ nth 1 row Py.VNone = Py.VFloat (funding_apr_percent rate token))
    rows.
Proof.
  unfold build_bybit_rows_since.
  apply bybit_loop_rows; [|constructor].
  intros t rate ts spot Hin Hts Hw.
  split; [done|]. split; [done|]. split; [done|]. exists t, rate.
  split; [by apply sorted_or_not_elem|].
  split; [done|]. split; [|done].
  intros a ->. by apply after_watermark_spec.
Qed.

(** X23. [build_bybit_rows_since] does not raise on records it cannot
    read: when the time of every readable record can be formatted, it
    returns its rows, and on a sheet without watermark these are as many
    as the records whose time and rate are both readable. *)
Theorem bybit_builder_passes_over_unreadable (fund : list record) :
  (forall t rate, In (Some t, Some rate) fund ->
     is_Some (fmt_dt localtime t)) ->
  exists rows,
    build_bybit_rows_since localtime bybit_kline token after_dt fund used
      init_ltv liq_ltv cap_usdt max_borrow_coin = Some rows
    /\ (after_dt = None ->
        length rows
        = length (List.filter
                    (fun r : record =>
                       match r with (Some _, Some _) => true | _ => false end)
                    fund)).
Proof.
  intros Hfmt. unfold build_bybit_rows_since.
  set (readable := fun r : record =>
                     match r with (Some _, Some _) => true | _ => false end).
  assert (Hperm : Permutation (default fund (sort_records fund)) fund).
  { destruct (sort_records fund) as [events|] eqn:Es; simpl; [|done].
    by destruct (sort_records_spec _ _ Es) as (Hperm & _ & _). }
  assert (Hlen : length (List.filter readable fund)
                 = length (List.filter readable
                             (default fund (sort_records fund)))).
  { apply Permutation_length. symmetry.
    clear -Hperm. induction Hperm; simpl.
    - done.
    - destruct (readable x); by try constructor.
    - destruct (readable x), (readable y); try done.
      + apply perm_swap.
    - by etransitivity. }
  rewrite Hlen.
  assert (Hfmt' : forall t rate,
            In (Some t, Some rate) (default fund (sort_records fund)) ->
            is_Some (fmt_dt localtime t)).
  { intros t rate H. apply (Hfmt t rate). by apply sorted_or_not_elem. }
  clear Hfmt Hperm Hlen.
  generalize dependent (default fund (sort_records fund)). intros events Hfmt.
  assert (H : forall rows0, exists rows,
            bloop events rows0 = Some rows
            /\ (after_dt = None ->
                length rows
                = (length rows0 + length (List.filter readable events))%nat)).
  { induction events as [|[[t|] [rate|]] events IH]; intros rows0;
      cbn [bybit_loop].
    1:{ exists rows0. split; [done|]. simpl. lia. }
    2-4: edestruct IH as (rows & Hr & Hlen);
      [intros; eapply Hfmt; right; eauto|];
      exists rows; (split; [exact Hr|]); intros Hn; rewrite (Hlen Hn);
      simpl; lia.
    destruct (Hfmt t rate) as [ts Ets]; [by left|]. rewrite Ets. simpl.
    destruct (after_watermark after_dt (_parse_dt ts)) eqn:Ew.
    - edestruct IH as (rows & Hr & Hlen).
      { intros. eapply Hfmt. right. eauto. }
      exists rows. split; [exact Hr|]. intros Hn. rewrite (Hlen Hn).
      rewrite length_app. simpl. lia.
    - edestruct IH as (rows & Hr & Hlen).
      { intros. eapply Hfmt. right. eauto. }
      exists rows. split; [exact Hr|]. intros Hn.
      rewrite Hn in Ew. done. }
  destruct (H []) as (rows & Hr & Hlen). exists rows. split; [done|].
  intros Hn. by rewrite (Hlen Hn).
Qed.

End Bybit.

End RowsFacts.

(** Two events fetched newest first, the watermark at the older one. *)
Lemma binance_rows_fit_ledger_witness :
  let float_repr := fun _ : float => EmptyString in
  let kline := fun (_ : string) (_ : Z) => Some 8.5%float in
  let fund := [(Some 1704070800000, Some 0.0002%float);
               (Some 1704067200000, Some 0.0001%float)] in
  let after_dt := Calendar.make_datetime 2024 1 1 0 0 0 in
  let hist := [(1704060000000, 0.05%float)] in
  exists rows st',
    Rows.build_binance_rows_since Calendar.utc_time kline "APT" after_dt fund
      hist 0.78%float 0.91%float 1000000%float 5000%float Market.empty_state
    = Some (rows, st')
    /\ Forall (fun row =>
         length row = length Sheets.HEADERS
         /\ Ledger.normalize row = row
         /\ exists t rate,
              In (Some t, Some rate) fund
              /\ Calendar.fmt_dt Calendar.utc_time t
                 = Some (Ledger.key_of float_repr row)
              /\ (forall a, after_dt = Some a ->
                    exists dt,
                      Calendar._parse_dt (Ledger.key_of float_repr row)
                      = Some dt
                      /\ Calendar.dt_gt dt a = true)
              /\ nth 1 row Py.VNone
                 = Py.VFloat (Rows.funding_apr_percent rate "APT")
              /\ nth 3 row Py.VNone
                 = Py.of_option
                     ((fun x => (x * 100)%float)
                        <$> Nearest.pick_closest_rate hist t))
         rows.
Proof.
  intros float_repr kline fund after_dt hist.
  eexists _, _. split; [vm_compute; reflexivity|].
  eapply (binance_rows_fit_ledger Calendar.utc_time float_repr kline "APT"
            after_dt hist 0.78%float 0.91%float 1000000%float 5000%float
            fund Market.empty_state).
  vm_compute. reflexivity.
Defined.

(** Two events fetched newest first on a sheet without watermark. *)
Lemma binance_rows_in_time_order_witness :
  let float_repr := fun _ : float => EmptyString in
  let kline := fun (_ : string) (_ : Z) => Some 8.5%float in
  let fund := [(Some 1704070800000, Some 0.0002%float);
               (Some 1704067200000, Some 0.0001%float)] in
  exists rows st',
    Rows.build_binance_rows_since Calendar.utc_time kline "APT" None fund
      [] 0.78%float 0.91%float 1000000%float 5000%float Market.empty_state
    = Some (rows, st')
    /\ exists times,
         Forall2 (fun row t => Calendar.fmt_dt Calendar.utc_time t
                               = Some (Ledger.key_of float_repr row))
                 rows times
         /\ Nearest.ascending times
         /\ (forall t, In t times -> In (Some t) (map fst fund))
         /\ (@None Calendar.datetime = None ->
             Permutation (map Some times) (map fst fund)).
Proof.
  intros float_repr kline fund.
  eexists _, _. split; [vm_compute; reflexivity|].
  eapply (binance_rows_in_time_order Calendar.utc_time float_repr kline "APT"
            None [] 0.78%float 0.91%float 1000000%float 5000%float
            fund Market.empty_state).
  vm_compute. reflexivity.
Defined.

(** A record without time behind a good one. *)
Lemma binance_builder_raises_on_unreadable_record_witness :
  let kline := fun (_ : string) (_ : Z) => Some 8.5%float in
  let fund := [(Some 1704067200000, Some 0.0001%float);
               (None, Some 0.0002%float)] in
  Rows.build_binance_rows_since Calendar.utc_time kline "APT"
    (Calendar.make_datetime 2024 1 1 0 0 0) fund
    [] 0.78%float 0.91%float 1000000%float 5000%float Market.empty_state
  = None.
Proof.
  intros kline fund.
  apply (binance_builder_raises_on_unreadable_record Calendar.utc_time kline
           "APT" (Calendar.make_datetime 2024 1 1 0 0 0) []
           0.78%float 0.91%float 1000000%float 5000%float
           fund Market.empty_state (None, Some 0.0002%float)).
  - right. by left.
  - by left.
Defined.

(** Two events and a record without rate, the watermark at the older
    event. *)
Lemma bybit_rows_fit_ledger_witness :
  let float_repr := fun _ : float => EmptyString in
  let kline := fun (_ : string) (_ : Z) => Some 0.85%float in
  let fund := [(Some 1704070800000, Some 0.0002%float);
               (Some 1704074400000, None);
               (Some 1704067200000, Some 0.0001%float)] in
  let after_dt := Calendar.make_datetime 2024 1 1 0 0 0 in
  let used := Some ("linear", "MEUSDT")%string in
  exists rows,
    Rows.build_bybit_rows_since Calendar.utc_time kline "ME" after_dt fund
      used 0.8%float 0.93%float 2000000%float (Some 1500%float)
    = Some rows
    /\ Forall (fun row =>
         length row = length Sheets.HEADERS
         /\ Ledger.normalize row = row
         /\ nth 3 row (Py.VStr "") = Py.VNone
         /\ exists t rate,
              In (Some t, Some rate) fund
              /\ Calendar.fmt_dt Calendar.utc_time t
                 = Some (Ledger.key_of float_repr row)
              /\ (forall a, after_dt = Some a ->
                    exists dt,
                      Calendar._parse_dt (Ledger.key_of float_repr row)
                      = Some dt
                      /\ Calendar.dt_gt dt a = true)
              /\ nth 1 row Py.VNone
                 = Py.VFloat (Rows.funding_apr_percent rate "ME"))
         rows.
Proof.
  intros float_repr kline fund after_dt used.
  eexists. split; [vm_compute; reflexivity|].
  eapply (bybit_rows_fit_ledger Calendar.utc_time float_repr kline "ME"
            after_dt used 0.8%float 0.93%float 2000000%float
            (Some 1500%float) fund).
  vm_compute. reflexivity.
Defined.

(** One good record among two that cannot be read. *)
Lemma bybit_builder_passes_over_unreadable_witness :
  let kline := fun (_ : string) (_ : Z) => Some 0.85%float in
  let fund := [(None, Some 0.0002%float);
               (Some 1704067200000, Some 0.0001%float);
               (Some 1704074400000, None)] in
  exists rows,
    Rows.build_bybit_rows_since Calendar.utc_time kline "ME" None fund
      None 0.8%float 0.93%float 2000000%float None
    = Some rows
    /\ (@None Calendar.datetime = None ->
        length rows
        = length (List.filter
                    (fun r : Rows.record =>
                       match r with (Some _, Some _) => true | _ => false end)
                    fund)).
Proof.
  intros kline fund.
  apply (bybit_builder_passes_over_unreadable Calendar.utc_time kline "ME"
           None None 0.8%float 0.93%float 2000000%float None fund).
  intros t rate [[=]|[[= <- <-]|[[=]|[]]]].
  vm_compute. eauto.
Defined.

(** ** A second alignment pass *)
Section SecondPass.
Import Calendar Ledger Nearest Reconcile.
Variable mktime : datetime -> Z.
Variable py_float : string -> option float.
Variable show_float : float -> string.

Local Abbreviation classify := (Reconcile.classify mktime py_float).
Local Abbreviation classify_row := (Reconcile.classify_row mktime py_float).
Local Abbreviation align_updates := (Reconcile.align_updates mktime py_float).
Local Abbreviation align_with :=
  (Reconcile.align_with mktime py_float show_float).
Local Abbreviation write :=
  (fold_left (fun w u => update_cell w u.1 4 (show_float u.2))).

Lemma set_cell_length (g : list (list string)) (r c : nat) (v : string) :
  (r < length g)%nat -> length (set_cell g r c v) = length g.
Proof.
  intros H. unfold set_cell, pad_to.
  rewrite length_insert, length_app, repeat_length. lia.
Qed.

Lemma write_length (us : list (nat * float)) :
  forall ws : worksheet,
    (forall u, In u us -> (u.1 - 1 < length (grid ws))%nat) ->
    length (grid (write us ws)) = length (grid ws).
Proof.
  induction us as [|u us IH]; intros ws Hrows; simpl; [done|].
  assert (Hu : length (grid (update_cell ws u.1 4 (show_float u.2)))
               = length (grid ws)).
  { simpl. apply set_cell_length, Hrows. by left. }
  rewrite IH, Hu; [done|].
  intros u' Hu'. rewrite Hu. apply Hrows. by right.
Qed.

(** The interest cell of a row with an update shows a number. *)
Lemma write_hit (us : list (nat * float)) :
  forall (ws : worksheet) (r : nat),
    (1 <= r)%nat ->
    (forall u, In u us -> (1 <= u.1)%nat) ->
    (exists v, In (r, v) us) ->
    exists v, cell (write us ws) r 4 = show_float v.
Proof.
  induction us as [|u us IH]; intros ws r Hr Hrows [v Hv]; [destruct Hv|].
  simpl. destruct (updates_for_row_dec us r) as [Hin|Hout].
  - apply IH; [done| |done]. intros u' Hu'. apply Hrows. by right.
  - destruct Hv as [->|Hv]; [|by destruct (Hout v)].
    exists v. rewrite (fold_update_frame show_float); [|done|lia| |by right].
    + rewrite cell_update_cell; [|simpl; lia..].
      by rewrite decide_True.
    + intros u' Hu'. apply Hrows. by right.
Qed.

Lemma align_updates_rows (gap : Z) (vals : list (list string))
    (row : nat) (v : float) :
  In (row, v) (align_updates gap vals) ->
  (2 <= row < 2 + length vals)%nat.
Proof.
  unfold Reconcile.align_updates.
  destruct (classify 2 vals ([], [])) as [snaps targets] eqn:E.
  destruct snaps as [|s snaps]; [done|].
  destruct targets as [|tg targets]; [done|].
  intros Hin. apply match_targets_elem in Hin as (t & best & Ht & _).
  pose proof (classify_targets mktime py_float vals 2 ([], []) t row) as H.
  rewrite E in H. by destruct (H Ht) as [[]|[Hr _]].
Qed.

(** The first loop on two readings of the same rows, the second taken
    after the rows marked by [upd], targets all, had their interest
    cell filled: the snapshots are the same, the targets those not
    marked. *)
Lemma classify_row_again (upd : nat -> bool) (i : nat)
    (row row' : list string) (acc acc' : list sample * list (Z * nat)) :
  nth 0 row' EmptyString = nth 0 row EmptyString ->
  nth 1 row' EmptyString = nth 1 row EmptyString ->
  (if upd i
   then Py.blank (nth 1 row EmptyString) = false
        /\ Py.blank (nth 3 row EmptyString) = true
        /\ Py.blank (nth 3 row' EmptyString) = false
   else nth 3 row' EmptyString = nth 3 row EmptyString) ->
  acc'.1 = acc.1 ->
  acc'.2 = List.filter (fun tg => negb (upd tg.2)) acc.2 ->
  (classify_row i row' acc').1 = (classify_row i row acc).1
  /\ (classify_row i row' acc').2
     = List.filter (fun tg => negb (upd tg.2)) (classify_row i row acc).2.
Proof.
  intros Ha Hb Hd H1 H2. unfold Reconcile.classify_row. rewrite Ha, Hb.
  destruct (Py.str_empty _); [done|].
  destruct (_to_ms mktime _) as [t|]; [|done].
  destruct (upd i) eqn:Eu.
  - destruct Hd as (-> & -> & ->). simpl.
    rewrite List.filter_app. simpl. rewrite Eu. simpl.
    by rewrite app_nil_r.
  - rewrite Hd.
    destruct (Py.blank (nth 1 row EmptyString)),
             (Py.blank (nth 3 row EmptyString)); simpl; try done.
    + destruct (py_float _); simpl; [|done]. by rewrite H1.
    + rewrite List.filter_app. simpl. rewrite Eu. simpl. by rewrite H2.
Qed.

Lemma classify_again (upd : nat -> bool) (vals : list (list string)) :
  forall (vals' : list (list string)) (i : nat)
         (acc acc' : list sample * list (Z * nat)),
    length vals' = length vals ->
    (forall k, (k < length vals)%nat ->
       nth 0 (nth k vals' []) EmptyString = nth 0 (nth k vals []) EmptyString
       /\ nth 1 (nth k vals' []) EmptyString
          = nth 1 (nth k vals []) EmptyString
       /\ if upd (i + k)%nat
          then Py.blank (nth 1 (nth k vals []) EmptyString) = false
               /\ Py.blank (nth 3 (nth k vals []) EmptyString) = true
               /\ Py.blank (nth 3 (nth k vals' []) EmptyString) = false
          else nth 3 (nth k vals' []) EmptyString
               = nth 3 (nth k vals []) EmptyString) ->
    acc'.1 = acc.1 ->
    acc'.2 = List.filter (fun tg => negb (upd tg.2)) acc.2 ->
    (classify i vals' acc').1 = (classify i vals acc).1
    /\ (classify i vals' acc').2
       = List.filter (fun tg => negb (upd tg.2)) (classify i vals acc).2.
Proof.
  induction vals as [|row vals IH]; intros [|row' vals'] i acc acc' Hlen Hrel
    H1 H2; simpl in *; try done.
  destruct (Hrel 0%nat) as (Ha & Hb & Hd); [lia|].
  rewrite Nat.add_0_r in Hd.
  destruct (classify_row_again upd i row row' acc acc' Ha Hb Hd H1 H2)
    as [H1' H2'].
  apply IH; [lia| |done|done].
  intros k Hk. specialize (Hrel (S k)). simpl in Hrel.
  replace (S i + k)%nat with (i + S k)%nat by lia. apply Hrel. lia.
Qed.

(** A target left without update in a pass finds no snapshot in the
    next. *)
Lemma match_targets_rest (gap : Z) (snaps : list sample)
    (us : list (nat * float)) (targets : list (Z * nat)) :
  (forall tg u, In tg targets -> In u (match_target gap snaps tg) ->
     u.1 ∈ map fst us) ->
  match_targets gap snaps
    (List.filter (fun tg => negb (bool_decide (tg.2 ∈ map fst us))) targets)
  = [].
Proof.
  induction targets as [|tg targets IH]; intros Hus; simpl; [done|].
  destruct (bool_decide_reflect (tg.2 ∈ map fst us)) as [Hin|Hout]; simpl.
  - apply IH. intros tg' u Htg'. apply Hus. by right.
  - unfold match_targets in *. simpl. rewrite IH.
    + pose proof (Hus tg) as Htg. unfold match_target in *.
      destruct (nearest snaps tg.1) as [best|]; [|done].
      destruct (_ <=? _); [|done].
      destruct Hout. apply (Htg (tg.2, best.2)); by left.
    + intros tg' u Htg'. apply Hus. by right.
Qed.

(** X24. When the sheet shows every number as a text that is not blank, a
    second alignment pass right after the first changes nothing: the
    rows the first pass filled are targets no more, and the targets it
    left unfilled find the same snapshots out of reach. *)
Theorem alignment_is_idempotent (gap : Z) (ws : worksheet) :
  (forall v, Py.blank (show_float v) = false) ->
  align_with gap (align_with gap ws) = align_with gap ws.
Proof.
  intros Hshow.
  assert (Hnone : align_updates gap (get_A2 4 (align_with gap ws)) = []).
  2:{ unfold Reconcile.align_with at 1. by rewrite Hnone. }
  unfold Reconcile.align_with.
  set (vals := get_A2 4 ws).
  set (us := align_updates gap vals).
  set (ws' := write us ws).
  set (upd := fun r : nat => bool_decide (r ∈ map fst us)).
  assert (Hrows : forall u, In u us -> (2 <= u.1 < 2 + length vals)%nat).
  { intros [r v] Hu. by apply align_updates_rows in Hu. }
  assert (Hvals : forall w, length (get_A2 4 w) = (length (grid w) - 1)%nat).
  { intros w. unfold get_A2. by rewrite length_map, length_skipn. }
  assert (Hgrid : length (grid ws') = length (grid ws)).
  { apply write_length. intros u Hu. specialize (Hrows u Hu).
    subst vals. rewrite Hvals in Hrows. lia. }
  assert (Hlen : length (get_A2 4 ws') = length vals).
  { subst vals. by rewrite !Hvals, Hgrid. }
  assert (Hnth : forall w k j, (j < 4)%nat ->
            nth j (nth k (get_A2 4 w) []) EmptyString
            = cell w (k + 2) (S j)).
  { intros w k j Hj. rewrite <- get_A2_cell by lia.
    by replace (k + 2 - 2)%nat with k by lia. }
  assert (Hsame : forall k c, (1 <= c)%nat -> c <> 4%nat ->
            cell ws' (k + 2) c = cell ws (k + 2) c).
  { intros k c Hc Hne. apply (fold_update_frame show_float); [lia|done| |by left].
    intros u Hu. specialize (Hrows u Hu). lia. }
  pose proof (classify_again upd vals (get_A2 4 ws') 2 ([], []) ([], []) Hlen)
    as Hagain.
  destruct Hagain as [H1 H2]; [|done|done|].
  { assert (Hnthv : forall k j, (j < 4)%nat ->
              nth j (nth k vals []) EmptyString = cell ws (k + 2) (S j))
      by (intros; by apply Hnth).
    intros k Hk. rewrite !Hnth, !Hnthv by lia.
    split; [apply Hsame; lia|]. split; [apply Hsame; lia|].
    subst upd. cbv beta.
    destruct (bool_decide_reflect ((2 + k)%nat ∈ map fst us)) as [Hin|Hout].
    - apply list_elem_of_In, in_map_iff in Hin as ([r v] & Hr & Hu).
      simpl in Hr. subst r.
      destruct (align_updates_target mktime py_float gap vals _ v Hu)
        as (_ & t & _ & Hb & Hd).
      rewrite Hnthv in Hb, Hd by lia.
      replace (S (S k) - 2 + 2)%nat with (k + 2)%nat in * by lia.
      split; [done|]. split; [done|].
      destruct (write_hit us ws (k + 2)) as [v' Hv'].
      + lia.
      + intros u' Hu'. specialize (Hrows u' Hu'). lia.
      + exists v. by replace (k + 2)%nat with (S (S k)) by lia.
      + fold ws' in Hv'. rewrite Hv'. apply Hshow.
    - apply (fold_update_frame show_float); [lia|lia| |right].
      + intros u Hu. specialize (Hrows u Hu). lia.
      + intros v Hv. apply Hout, list_elem_of_In, in_map_iff.
        exists (k + 2, v)%nat. split; [simpl; lia|done]. }
  unfold Reconcile.align_updates at 1.
  destruct (classify 2 (get_A2 4 ws') ([], [])) as [snaps' targets'].
  simpl in H1, H2. subst snaps' targets'.
  assert (Hus : us = align_updates gap vals) by done.
  unfold Reconcile.align_updates in Hus.
  destruct (classify 2 vals ([], [])) as [snaps targets]. simpl.
  destruct snaps as [|s snaps]; [done|].
  destruct targets as [|tg targets]; [done|].
  set (rest := List.filter _ (tg :: targets)).
  assert (Hrest : match_targets gap (sort_by_time (s :: snaps)) rest = []).
  { subst rest upd. apply match_targets_rest.
    intros tg' u Htg' Hu. apply list_elem_of_In, in_map_iff.
    exists u. split; [done|]. rewrite Hus.
    apply in_flat_map. by exists tg'. }
  by destruct rest.
Qed.

End SecondPass.

(** The sample pass, run twice. *)
Lemma alignment_is_idempotent_witness :
  let py_float := fun s : string =>
                    if String.eqb s "5.5" then Some 5.5%float else None in
  let show_float := fun _ : float => "5.5"%string in
  let ws := Ledger.Worksheet "ENA_Bybit"
              [["Date"; "Funding Rate APR (%)"];
               ["1/1/2024 0:00:00"; "10.95"];
               ["1/1/2024 1:00:00"; ""; ""; "5.5"]] in
  Reconcile.align_with Calendar.utc_mktime py_float show_float
    Reconcile.gap_ms
    (Reconcile.align_with Calendar.utc_mktime py_float show_float
       Reconcile.gap_ms ws)
  = Reconcile.align_with Calendar.utc_mktime py_float show_float
      Reconcile.gap_ms ws.
Proof.
  intros py_float show_float ws.
  apply (alignment_is_idempotent Calendar.utc_mktime py_float show_float
           Reconcile.gap_ms ws).
  intros v. reflexivity.
Defined.
